(** * CrowdDetector API (app.py): a shallow embedding and its properties

    The program is one FastAPI handler, [analyze_image], and one helper,
    [extract_first_json].  The handler validates an upload, sends it to a
    hosted vision model, extracts a JSON object from the model's text with
    a regular expression and [json.loads], and normalizes the fields of the
    object into a [CrowdResult].

    Python values are embedded as follows.
    - A [str] is the list of its code points ([pystr]); [bytes] is a list
      of [Byte.byte].
    - An [int] is a [Z]; a [dict] is the list of its items in insertion
      order, with distinct keys.
    - An exception is a value of [exn]; code that can raise returns a
      [result].
    - What the source takes from outside itself and that cannot be written
      down from the source is a member of a class: the [float] type with
      its conversions, [int] on a [str], [str.lower] outside ASCII
      ([PyRuntime]); pydantic's treatment of a value that is not a [str] in
      a [str] field, the SDK's [Part.from_bytes] and the model call
      ([Services]).  Every definition and theorem is parametric in them.
    - The functions of [re] and [json] that the source calls are written
      out: the backtracking matcher for the three patterns, the decoder
      [json.loads] and the encoder [json.dumps] with their defaults.

    What the embedding leaves out.
    - The limits of the interpreter: the bound on the depth of nested
      calls, which makes [json.loads] and [json.dumps] raise
      [RecursionError] on deeply nested values, and the bound on the
      digits of an [int] literal (4300 from Python 3.11 on).  The decoder
      below takes fuel only to be structural; [json_loads] gives it more
      than it can use ([json_loads_fuel]).
    - The byte order mark that [json.loads] refuses at the start of a
      text: every text given to it here starts with an opening brace.
    - Logging, and the rendering of the [JSONResponse]: a response is its
      status code with its content or detail.
    - pydantic's validation of a value that already has the type of its
      field, which is taken to succeed and to leave the value as it is. *)

From Stdlib Require Import String Ascii ZArith NArith List Lia Bool Permutation.
From Stdlib Require Decimal DecimalZ DecimalFacts DecimalString.
Import ListNotations.

(** ** Text *)

(** A Python [str]: its code points. *)
Definition pystr : Type := list N.

(** An ASCII literal as a [pystr]. *)
Definition str (s : string) : pystr := map N_of_ascii (list_ascii_of_string s).

(** The same, with every apostrophe (U+0027) of the literal standing for
    a double quote (U+0022): used to write JSON texts. *)
Definition text (s : string) : pystr :=
  map (fun c => if N.eqb c 39 then 34%N else c) (str s).

Fixpoint str_eqb (a b : pystr) : bool :=
  match a, b with
  | [], [] => true
  | x :: a', y :: b' => N.eqb x y && str_eqb a' b'
  | _, _ => false
  end.

(** [x in xs] for a list of strings. *)
Definition str_in (x : pystr) (xs : list pystr) : bool := existsb (str_eqb x) xs.

(** Python's [str.isspace] on one code point, which is also what [\s]
    matches in a [str] pattern. *)
Definition is_space (c : N) : bool :=
  ((9 <=? c) && (c <=? 13) || (28 <=? c) && (c <=? 32) || (c =? 0x85) || (c =? 0xA0)
   || (c =? 0x1680) || (0x2000 <=? c) && (c <=? 0x200A) || (c =? 0x2028) || (c =? 0x2029)
   || (c =? 0x202F) || (c =? 0x205F) || (c =? 0x3000))%N.

Fixpoint lstrip (s : pystr) : pystr :=
  match s with
  | c :: s' => if is_space c then lstrip s' else s
  | [] => []
  end.

(** [s.strip()] *)
Definition py_strip (s : pystr) : pystr := rev (lstrip (rev (lstrip s))).

Definition is_ascii (c : N) : bool := (c <? 128)%N.

Definition ascii_lower (c : N) : N :=
  if ((65 <=? c) && (c <=? 90))%N then (c + 32)%N else c.

(** ** Exceptions *)

Inductive exn : Type :=
| JSONDecodeError
| ValueError (msg : string)
| TypeError
| OverflowError
| AttributeError
| ValidationError
| RecursionError
| SDKError.

Inductive result (A : Type) : Type :=
| Ok (a : A)
| Raise (e : exn).

Arguments Ok {A} a.
Arguments Raise {A} e.

Definition bind {A B : Type} (r : result A) (k : A -> result B) : result B :=
  match r with
  | Ok a => k a
  | Raise e => Raise e
  end.

Notation "x <- r ;; k" := (bind r (fun x => k))
  (at level 61, r at next level, right associativity).
Notation "' p <- r ;; k" := (bind r (fun x => let 'p := x in k))
  (at level 61, p pattern, r at next level, right associativity).

(** ** Regular expressions

    The three patterns of the source are sequences of single characters,
    character classes and greedy starred classes.  [re_match] is the
    backtracking matcher of [re] on such sequences: a star takes as many
    characters as it can and gives them back one at a time while the rest
    of the pattern fails. *)

Inductive atom : Type :=
| Chr (c : N)
| Cls (p : N -> bool).

Definition atom_ok (a : atom) (c : N) : bool :=
  match a with
  | Chr x => N.eqb c x
  | Cls p => p c
  end.

Inductive item : Type :=
| One (a : atom)
| Star (a : atom).

Definition regex : Type := list item.

(** [a*] followed by the continuation [k]; the result is the matched text
    and what follows it. *)
Fixpoint star_match (a : atom) (k : pystr -> option (pystr * pystr)) (s : pystr)
  : option (pystr * pystr) :=
  match s with
  | c :: s' =>
      if atom_ok a c then
        match star_match a k s' with
        | Some (m, rest) => Some (c :: m, rest)
        | None => k s
        end
      else k s
  | [] => k s
  end.

(** A match of [r] at the start of [s]. *)
Fixpoint re_match (r : regex) (s : pystr) : option (pystr * pystr) :=
  match r with
  | [] => Some ([], s)
  | One a :: r' =>
      match s with
      | c :: s' =>
          if atom_ok a c then
            match re_match r' s' with
            | Some (m, rest) => Some (c :: m, rest)
            | None => None
            end
          else None
      | [] => None
      end
  | Star a :: r' => star_match a (re_match r') s
  end.

(** [re.search(r, s)]: the leftmost match; the result is its text (the
    pattern of the source is one group, so this is [m.group(1)]). *)
Fixpoint re_search (r : regex) (s : pystr) : option pystr :=
  match re_match r s with
  | Some (m, _) => Some m
  | None =>
      match s with
      | [] => None
      | _ :: s' => re_search r s'
      end
  end.

(** [re.sub(r, repl, s)] for a pattern whose matches are never empty (each
    pattern substituted in the source starts with a comma): matches are
    taken left to right and do not overlap.  [skip] counts the characters
    of the current match still to be dropped. *)
Fixpoint re_sub_from (r : regex) (repl : pystr) (skip : nat) (s : pystr) : pystr :=
  match s with
  | [] => []
  | c :: s' =>
      match skip with
      | S n => re_sub_from r repl n s'
      | O =>
          match re_match r s with
          | Some (m, _) => repl ++ re_sub_from r repl (pred (length m)) s'
          | None => c :: re_sub_from r repl O s'
          end
      end
  end.

Definition re_sub (r : regex) (repl : pystr) (s : pystr) : pystr :=
  re_sub_from r repl O s.

(** [[\s\S]]: any character. *)
Definition any_char : atom := Cls (fun c => is_space c || negb (is_space c)).

(** [r"(\{[\s\S]*\})"] *)
Definition json_object_re : regex := [One (Chr 123); Star any_char; One (Chr 125)].

(** [r",\s*}"] *)
Definition comma_brace_re : regex := [One (Chr 44); Star (Cls is_space); One (Chr 125)].

(** [r",\s*]"] *)
Definition comma_bracket_re : regex := [One (Chr 44); Star (Cls is_space); One (Chr 93)].

(** ** What the source takes from the Python runtime

    [float] is IEEE binary64 in CPython; the decimal conversions in and out
    of it are not written out here, so the type and its operations are the
    members of a class.  [int] on a [str] accepts Unicode digits and
    [str.lower] follows the Unicode tables outside ASCII: both are members
    as well. *)

Inductive float_class : Type := FNan | FPosInf | FNegInf | FFinite.

Class PyRuntime : Type := {
  pyfloat : Type;
  (** [float(s)] for a [str] *)
  float_of_str : pystr -> result pyfloat;
  (** [float(n)] for an [int] *)
  float_of_int : Z -> result pyfloat;
  (** [int(x)] for a [float]: towards zero; raises on nan and the infinities *)
  int_of_float : pyfloat -> result Z;
  (** [bool(x)] for a [float] *)
  float_bool : pyfloat -> bool;
  float_class_of : pyfloat -> float_class;
  (** [float.__repr__] *)
  float_repr : pyfloat -> pystr;
  (** [float('nan')], [float('inf')], [float('-inf')] *)
  float_nan : pyfloat;
  float_inf : pyfloat;
  float_neg_inf : pyfloat;
  (** [int(s)] for a [str] *)
  int_of_str : pystr -> result Z;
  (** [s.lower()] for a [str] with a character outside ASCII *)
  unicode_lower : pystr -> pystr
}.

Section Program.

Context {rt : PyRuntime}.

(** ** Values

    The values [json.loads] builds. *)

Unset Elimination Schemes.

Inductive value : Type :=
| VNone
| VBool (b : bool)
| VInt (n : Z)
| VFloat (x : pyfloat)
| VStr (s : pystr)
| VList (l : list value)
| VDict (d : list (pystr * value)).

Set Elimination Schemes.

Definition pydict : Type := list (pystr * value).

(** [d[k] = v]: a key already in the dict keeps its place. *)
Fixpoint dict_set (d : pydict) (k : pystr) (v : value) : pydict :=
  match d with
  | [] => [(k, v)]
  | (k', v') :: d' =>
      if str_eqb k k' then (k', v) :: d' else (k', v') :: dict_set d' k v
  end.

Fixpoint dict_lookup (d : pydict) (k : pystr) : option value :=
  match d with
  | [] => None
  | (k', v) :: d' => if str_eqb k k' then Some v else dict_lookup d' k
  end.

(** [d.get(k, default)] and [d.get(k)] *)
Definition py_get_default (d : pydict) (k : pystr) (default : value) : value :=
  match dict_lookup d k with
  | Some v => v
  | None => default
  end.

Definition py_get (d : pydict) (k : pystr) : value := py_get_default d k VNone.

(** ** [json.loads]

    The decoder of CPython's [json] with its defaults, on a [str].  A
    position in the text is the suffix that starts there.  Every failure
    of the decoder is a [JSONDecodeError]. *)

(** The decoder's whitespace: space, tab, line feed, carriage return. *)
Definition json_ws (c : N) : bool :=
  ((c =? 32) || (c =? 9) || (c =? 10) || (c =? 13))%N.

Fixpoint skip_ws (s : pystr) : pystr :=
  match s with
  | c :: s' => if json_ws c then skip_ws s' else s
  | [] => []
  end.

Fixpoint strip_prefix (p s : pystr) : option pystr :=
  match p, s with
  | [], _ => Some s
  | x :: p', y :: s' => if N.eqb x y then strip_prefix p' s' else None
  | _ :: _, [] => None
  end.

Definition is_digit (c : N) : bool := ((48 <=? c) && (c <=? 57))%N.

Definition hex_value (c : N) : option N :=
  if is_digit c then Some (c - 48)%N
  else if ((97 <=? c) && (c <=? 102))%N then Some (c - 87)%N
  else if ((65 <=? c) && (c <=? 70))%N then Some (c - 55)%N
  else None.

(** The four hexadecimal digits of a [\uXXXX] escape. *)
Definition hex4 (a b c d : N) : option N :=
  match hex_value a, hex_value b, hex_value c, hex_value d with
  | Some x, Some y, Some z, Some w => Some (((x * 16 + y) * 16 + z) * 16 + w)%N
  | _, _, _, _ => None
  end.

Definition is_high_surrogate (c : N) : bool := ((0xD800 <=? c) && (c <=? 0xDBFF))%N.
Definition is_low_surrogate (c : N) : bool := ((0xDC00 <=? c) && (c <=? 0xDFFF))%N.

Definition join_surrogates (hi lo : N) : N :=
  (0x10000 + ((hi - 0xD800) * 1024 + (lo - 0xDC00)))%N.

(** The decoder's table of one-letter escapes. *)
Definition unescape (c : N) : option N :=
  if (c =? 34)%N then Some 34%N          (* quotation mark *)
  else if (c =? 92)%N then Some 92%N     (* backslash *)
  else if (c =? 47)%N then Some 47%N     (* solidus *)
  else if (c =? 98)%N then Some 8%N      (* b: backspace *)
  else if (c =? 102)%N then Some 12%N    (* f: form feed *)
  else if (c =? 110)%N then Some 10%N    (* n: line feed *)
  else if (c =? 114)%N then Some 13%N    (* r: carriage return *)
  else if (c =? 116)%N then Some 9%N     (* t: tab *)
  else None.

(** [scanstring], strict: [s] starts after the opening quote; the result
    is the string and the text after the closing quote.  A high surrogate
    escape followed by a low surrogate escape is one character. *)
Fixpoint scanstring (s : pystr) : result (pystr * pystr) :=
  match s with
  | [] => Raise JSONDecodeError
  | c :: s1 =>
      if (c =? 34)%N then Ok ([], s1)
      else if (c =? 92)%N then
        match s1 with
        | [] => Raise JSONDecodeError
        | esc :: s2 =>
            if (esc =? 117)%N then
              match s2 with
              | h1 :: h2 :: h3 :: h4 :: s3 =>
                  match hex4 h1 h2 h3 h4 with
                  | None => Raise JSONDecodeError
                  | Some uni =>
                      let single :=
                        '(chars, rest) <- scanstring s3 ;; Ok (uni :: chars, rest) in
                      if is_high_surrogate uni then
                        match s3 with
                        | b :: u :: k1 :: k2 :: k3 :: k4 :: s4 =>
                            if ((b =? 92) && (u =? 117))%N then
                              match hex4 k1 k2 k3 k4 with
                              | None => Raise JSONDecodeError
                              | Some uni2 =>
                                  if is_low_surrogate uni2 then
                                    '(chars, rest) <- scanstring s4 ;;
                                    Ok (join_surrogates uni uni2 :: chars, rest)
                                  else single
                              end
                            else single
                        | _ => single
                        end
                      else single
                  end
              | _ => Raise JSONDecodeError
              end
            else
              match unescape esc with
              | None => Raise JSONDecodeError
              | Some ch => '(chars, rest) <- scanstring s2 ;; Ok (ch :: chars, rest)
              end
        end
      else if (c <? 32)%N then Raise JSONDecodeError
      else '(chars, rest) <- scanstring s1 ;; Ok (c :: chars, rest)
  end.

(** The longest prefix of characters that satisfy [p], and the rest. *)
Fixpoint span (p : N -> bool) (s : pystr) : pystr * pystr :=
  match s with
  | c :: s' => if p c then let (a, b) := span p s' in (c :: a, b) else ([], s)
  | [] => ([], [])
  end.

(** The number at the start of a text is matched in three steps, one for
    each group of the decoder's pattern.  First the integer: an optional
    minus sign, then either 0 or a digit from 1 to 9 followed by digits. *)
Definition match_digits (s : pystr) : option (pystr * pystr) :=
  match s with
  | [] => None
  | c :: t =>
      if ((49 <=? c) && (c <=? 57))%N then
        let (ds, r) := span is_digit t in Some (c :: ds, r)
      else if (c =? 48)%N then Some ([c], t)
      else None
  end.

Definition match_integer (s : pystr) : option (pystr * pystr) :=
  match s with
  | [] => None
  | c :: t =>
      if (c =? 45)%N then
        match match_digits t with
        | Some (ds, r) => Some (c :: ds, r)
        | None => None
        end
      else match_digits s
  end.

(** The fraction, if there is one: a dot and one digit or more. *)
Definition match_frac (s : pystr) : pystr * pystr :=
  match s with
  | dot :: d :: t =>
      if (dot =? 46)%N && is_digit d then
        let (fs, r) := span is_digit t in (dot :: d :: fs, r)
      else ([], s)
  | _ => ([], s)
  end.

(** The exponent, if there is one: e or E, an optional sign and one digit
    or more. *)
Definition match_exp (s : pystr) : pystr * pystr :=
  match s with
  | e :: t =>
      if ((e =? 101) || (e =? 69))%N then
        let '(sg, t') :=
          match t with
          | c :: t' => if ((c =? 43) || (c =? 45))%N then ([c], t') else ([], t)
          | [] => ([], t)
          end in
        let (es, r) := span is_digit t' in
        match es with
        | [] => ([], s)
        | _ :: _ => (e :: sg ++ es, r)
        end
      else ([], s)
  | [] => ([], s)
  end.

(** The three groups and the rest of the text. *)
Definition match_number (s : pystr) : option (pystr * pystr * pystr * pystr) :=
  match match_integer s with
  | None => None
  | Some (integer, s2) =>
      let (frac, s3) := match_frac s2 in
      let (exp, s4) := match_exp s3 in
      Some (integer, frac, exp, s4)
  end.

Definition digit_cons (c : N) (u : Decimal.uint) : Decimal.uint :=
  match (c - 48)%N with
  | 0 => Decimal.D0 u
  | 1 => Decimal.D1 u
  | 2 => Decimal.D2 u
  | 3 => Decimal.D3 u
  | 4 => Decimal.D4 u
  | 5 => Decimal.D5 u
  | 6 => Decimal.D6 u
  | 7 => Decimal.D7 u
  | 8 => Decimal.D8 u
  | _ => Decimal.D9 u
  end%N.

Definition uint_of_digits (ds : pystr) : Decimal.uint :=
  fold_right digit_cons Decimal.Nil ds.

(** [int(integer)] for the first group of a number. *)
Definition int_of_literal (integer : pystr) : Z :=
  match integer with
  | c :: ds =>
      if (c =? 45)%N then Z.of_int (Decimal.Neg (uint_of_digits ds))
      else Z.of_int (Decimal.Pos (uint_of_digits integer))
  | [] => 0%Z
  end.

(** The array after its opening bracket, the first value not yet read.
    [scan] reads one value. *)
Fixpoint JSONArray_loop (scan : pystr -> result (value * pystr)) (fuel : nat)
  (values : list value) (s : pystr) : result (value * pystr) :=
  match fuel with
  | O => Raise RecursionError
  | S fuel' =>
      '(v, s1) <- scan s ;;
      let values := values ++ [v] in
      match skip_ws s1 with
      | c :: s2 =>
          if (c =? 93)%N then Ok (VList values, s2)
          else if (c =? 44)%N then JSONArray_loop scan fuel' values (skip_ws s2)
          else Raise JSONDecodeError
      | [] => Raise JSONDecodeError
      end
  end.

Definition JSONArray (scan : pystr -> result (value * pystr)) (fuel : nat) (s : pystr)
  : result (value * pystr) :=
  match skip_ws s with
  | c :: s1 =>
      if (c =? 93)%N then Ok (VList [], s1)
      else JSONArray_loop scan fuel [] (c :: s1)
  | [] => Raise JSONDecodeError
  end.

(** The object after the opening quote of a key. *)
Fixpoint JSONObject_loop (scan : pystr -> result (value * pystr)) (fuel : nat)
  (pairs : pydict) (s : pystr) : result (value * pystr) :=
  match fuel with
  | O => Raise RecursionError
  | S fuel' =>
      '(key, s1) <- scanstring s ;;
      match skip_ws s1 with
      | c :: s2 =>
          if (c =? 58)%N then
            '(v, s3) <- scan (skip_ws s2) ;;
            let pairs := dict_set pairs key v in
            match skip_ws s3 with
            | c' :: s4 =>
                if (c' =? 125)%N then Ok (VDict pairs, s4)
                else if (c' =? 44)%N then
                  match skip_ws s4 with
                  | q :: s5 =>
                      if (q =? 34)%N then JSONObject_loop scan fuel' pairs s5
                      else Raise JSONDecodeError
                  | [] => Raise JSONDecodeError
                  end
                else Raise JSONDecodeError
            | [] => Raise JSONDecodeError
            end
          else Raise JSONDecodeError
      | [] => Raise JSONDecodeError
      end
  end.

Definition JSONObject (scan : pystr -> result (value * pystr)) (fuel : nat) (s : pystr)
  : result (value * pystr) :=
  match skip_ws s with
  | c :: s1 =>
      if (c =? 125)%N then Ok (VDict [], s1)
      else if (c =? 34)%N then JSONObject_loop scan fuel [] s1
      else Raise JSONDecodeError
  | [] => Raise JSONDecodeError
  end.

(** [scan_once]: the value at the start of [s].  [fuel] bounds the calls;
    [json_loads] gives enough of it ([json_loads_fuel]), so [RecursionError]
    stands for nothing the model leaves out but CPython's own limit on
    nesting, which is not modelled. *)
Fixpoint scan_once (fuel : nat) (s : pystr) : result (value * pystr) :=
  match fuel with
  | O => Raise RecursionError
  | S fuel' =>
      match s with
      | [] => Raise JSONDecodeError
      | c :: s' =>
          if (c =? 34)%N then '(chars, rest) <- scanstring s' ;; Ok (VStr chars, rest)
          else if (c =? 123)%N then JSONObject (scan_once fuel') fuel' s'
          else if (c =? 91)%N then JSONArray (scan_once fuel') fuel' s'
          else
            match strip_prefix (str "null") s with
            | Some rest => Ok (VNone, rest)
            | None =>
            match strip_prefix (str "true") s with
            | Some rest => Ok (VBool true, rest)
            | None =>
            match strip_prefix (str "false") s with
            | Some rest => Ok (VBool false, rest)
            | None =>
            match match_number s with
            | Some (integer, frac, exp, rest) =>
                match frac ++ exp with
                | [] => Ok (VInt (int_of_literal integer), rest)
                | _ :: _ => x <- float_of_str (integer ++ frac ++ exp) ;; Ok (VFloat x, rest)
                end
            | None =>
            match strip_prefix (str "NaN") s with
            | Some rest => Ok (VFloat float_nan, rest)
            | None =>
            match strip_prefix (str "Infinity") s with
            | Some rest => Ok (VFloat float_inf, rest)
            | None =>
            match strip_prefix (str "-Infinity") s with
            | Some rest => Ok (VFloat float_neg_inf, rest)
            | None => Raise JSONDecodeError
            end end end end end end end
      end
  end.

(** [json.loads(s)]: one value, with whitespace around it and nothing
    else. *)
Definition json_loads (s : pystr) : result value :=
  '(v, rest) <- scan_once (S (length s)) (skip_ws s) ;;
  match skip_ws rest with
  | [] => Ok v
  | _ :: _ => Raise JSONDecodeError
  end.

(** ** [extract_first_json] *)

Definition extract_first_json (raw : pystr) : result value :=
  match re_search json_object_re raw with
  | None => Raise (ValueError "No JSON object found in model response")
  | Some candidate =>
      match json_loads candidate with
      | Raise JSONDecodeError =>
          let cleaned := re_sub comma_brace_re (str "}") candidate in
          let cleaned := re_sub comma_bracket_re (str "]") cleaned in
          json_loads cleaned
      | r => r
      end
  end.

(** ** [json.dumps]

    The encoder of CPython's [json] with its defaults ([ensure_ascii],
    separators [", "] and [": "], [allow_nan]), on the values above. *)

Definition hex_digit (n : N) : N := (if n <? 10 then 48 + n else 87 + n)%N.

(** [\uXXXX], four lower-case hexadecimal digits. *)
Definition u_escape (n : N) : pystr :=
  [92; 117; hex_digit (n / 4096); hex_digit ((n / 256) mod 16);
   hex_digit ((n / 16) mod 16); hex_digit (n mod 16)]%N.

Definition escape_char (c : N) : pystr :=
  if (c =? 34)%N then [92; 34]%N
  else if (c =? 92)%N then [92; 92]%N
  else if (c =? 10)%N then [92; 110]%N
  else if (c =? 13)%N then [92; 114]%N
  else if (c =? 9)%N then [92; 116]%N
  else if (c =? 12)%N then [92; 102]%N
  else if (c =? 8)%N then [92; 98]%N
  else if ((32 <=? c) && (c <=? 126))%N then [c]
  else if (c <? 0x10000)%N then u_escape c
  else
    let n := (c - 0x10000)%N in
    u_escape (N.lor 0xD800 (N.land (N.shiftr n 10) 0x3FF))
    ++ u_escape (N.lor 0xDC00 (N.land n 0x3FF)).

Definition encode_basestring_ascii (s : pystr) : pystr :=
  [34%N] ++ flat_map escape_char s ++ [34%N].

Fixpoint digits_of_uint (u : Decimal.uint) : pystr :=
  match u with
  | Decimal.Nil => []
  | Decimal.D0 u' => 48%N :: digits_of_uint u'
  | Decimal.D1 u' => 49%N :: digits_of_uint u'
  | Decimal.D2 u' => 50%N :: digits_of_uint u'
  | Decimal.D3 u' => 51%N :: digits_of_uint u'
  | Decimal.D4 u' => 52%N :: digits_of_uint u'
  | Decimal.D5 u' => 53%N :: digits_of_uint u'
  | Decimal.D6 u' => 54%N :: digits_of_uint u'
  | Decimal.D7 u' => 55%N :: digits_of_uint u'
  | Decimal.D8 u' => 56%N :: digits_of_uint u'
  | Decimal.D9 u' => 57%N :: digits_of_uint u'
  end.

(** [int.__repr__] *)
Definition int_repr (n : Z) : pystr :=
  match Z.to_int n with
  | Decimal.Pos u => digits_of_uint u
  | Decimal.Neg u => 45%N :: digits_of_uint u
  end.

(** The encoder's [floatstr]. *)
Definition floatstr (x : pyfloat) : pystr :=
  match float_class_of x with
  | FNan => str "NaN"
  | FPosInf => str "Infinity"
  | FNegInf => str "-Infinity"
  | FFinite => float_repr x
  end.

(** [sep.join(xs)] *)
Fixpoint join (sep : pystr) (xs : list pystr) : pystr :=
  match xs with
  | [] => []
  | x :: xs' =>
      match xs' with
      | [] => x
      | _ :: _ => x ++ sep ++ join sep xs'
      end
  end.

Fixpoint json_dumps (v : value) : pystr :=
  match v with
  | VNone => str "null"
  | VBool true => str "true"
  | VBool false => str "false"
  | VInt n => int_repr n
  | VFloat x => floatstr x
  | VStr s => encode_basestring_ascii s
  | VList l => [91%N] ++ join (str ", ") (map json_dumps l) ++ [93%N]
  | VDict d =>
      [123%N]
      ++ join (str ", ")
           (map (fun kv => encode_basestring_ascii (fst kv) ++ str ": " ++ json_dumps (snd kv)) d)
      ++ [125%N]
  end.

(** ** Builtin conversions on a value *)

(** [int(v)] *)
Definition py_int (v : value) : result Z :=
  match v with
  | VBool b => Ok (if b then 1 else 0)%Z
  | VInt n => Ok n
  | VFloat x => int_of_float x
  | VStr s => int_of_str s
  | VNone | VList _ | VDict _ => Raise TypeError
  end.

(** [float(v)] *)
Definition py_float (v : value) : result pyfloat :=
  match v with
  | VBool b => float_of_int (if b then 1 else 0)%Z
  | VInt n => float_of_int n
  | VFloat x => Ok x
  | VStr s => float_of_str s
  | VNone | VList _ | VDict _ => Raise TypeError
  end.

(** [bool(v)] *)
Definition py_bool (v : value) : bool :=
  match v with
  | VNone => false
  | VBool b => b
  | VInt n => negb (Z.eqb n 0)
  | VFloat x => float_bool x
  | VStr s => match s with [] => false | _ :: _ => true end
  | VList l => match l with [] => false | _ :: _ => true end
  | VDict d => match d with [] => false | _ :: _ => true end
  end.

(** [s.lower()] *)
Definition str_lower (s : pystr) : pystr :=
  if forallb is_ascii s then map ascii_lower s else unicode_lower s.

(** [isinstance(v, dict)] *)
Definition is_dict (v : value) : bool :=
  match v with
  | VDict _ => true
  | _ => false
  end.

(** ** The result record and what the handler calls

    [CrowdResult] is a pydantic model.  The handler gives it values that
    already have the declared type for every field but [crowd_label] and
    [rationale], which it passes on as the model sent them; pydantic takes
    [None] and a [str] in these as they are, and what it does with any
    other value ([pydantic_str]: a coercion or a [ValidationError],
    depending on its version) is a member of [Services], with the SDK's
    [Part.from_bytes] and [client.models.generate_content] (the result of
    the latter is [response.text]). *)

Record CrowdResult : Type := {
  people_count : option Z;
  crowd_score : option Z;
  crowd_label : option pystr;
  confidence : option pyfloat;
  rationale : option pystr;
  screen_detected : option bool;
  departure_type : option pystr;
  departure_info : option (list pydict)
}.

Class Services : Type := {
  image_part : Type;
  Part_from_bytes : list Byte.byte -> pystr -> result image_part;
  generate_content : pystr -> pystr -> image_part -> result (option pystr);
  pydantic_str : value -> result pystr
}.

Context {sv : Services}.

(** A field declared [Optional[str]]. *)
Definition validate_str (v : value) : result (option pystr) :=
  match v with
  | VNone => Ok None
  | VStr s => Ok (Some s)
  | _ => s <- pydantic_str v ;; Ok (Some s)
  end.

(** A field declared [List[Dict[str, Any]]], given a list. *)
Fixpoint validate_dicts (l : list value) : result (list pydict) :=
  match l with
  | [] => Ok []
  | VDict d :: l' => ds <- validate_dicts l' ;; Ok (d :: ds)
  | _ :: _ => Raise ValidationError
  end.

(** [CrowdResult(people_count=..., ...)] *)
Definition CrowdResult_new (people_count crowd_score : option Z) (crowd_label : value)
  (confidence : option pyfloat) (rationale : value) (screen_detected : option bool)
  (departure_type : option pystr) (departure_info : list value) : result CrowdResult :=
  crowd_label <- validate_str crowd_label ;;
  rationale <- validate_str rationale ;;
  departure_info <- validate_dicts departure_info ;;
  Ok {| people_count := people_count;
        crowd_score := crowd_score;
        crowd_label := crowd_label;
        confidence := confidence;
        rationale := rationale;
        screen_detected := screen_detected;
        departure_type := departure_type;
        departure_info := Some departure_info |}.

(** ** The handler: step 5, normalization (lines 144-197) *)

Definition norm_people_count (parsed : pydict) : result (option Z) :=
  let people_count := py_get parsed (str "people_count") in
  match people_count with
  | VNone => Ok None
  | _ => n <- py_int people_count ;; Ok (Some n)
  end.

Definition norm_crowd_score (parsed : pydict) : result (option Z) :=
  let crowd_score := py_get parsed (str "crowd_score") in
  match crowd_score with
  | VNone => Ok None
  | _ => n <- py_int crowd_score ;; Ok (Some (Z.max 1 (Z.min 10 n)))
  end.

Definition norm_confidence (parsed : pydict) : result (option pyfloat) :=
  let confidence := py_get parsed (str "confidence") in
  match confidence with
  | VNone => Ok None
  | _ => x <- py_float confidence ;; Ok (Some x)
  end.

Definition norm_screen_detected (parsed : pydict) : option bool :=
  let screen_detected := py_get parsed (str "screen_detected") in
  match screen_detected with
  | VNone => None
  | _ => Some (py_bool screen_detected)
  end.

Definition valid_types : list pystr :=
  [str "flight"; str "train"; str "bus"; str "subway"; str "ferry"; str "none"].

(** [not screen_detected], for [None] or a [bool]. *)
Definition not_detected (screen_detected : option bool) : bool :=
  match screen_detected with
  | Some true => false
  | _ => true
  end.

(** Lines 167-174.  The first branch is taken by a value that is true and
    a [str]: a string that is not empty. *)
Definition norm_departure_type (parsed : pydict) (screen_detected : option bool)
  : option pystr :=
  let departure_type := py_get parsed (str "departure_type") in
  match departure_type with
  | VStr ((_ :: _) as s) =>
      let departure_type := str_lower s in
      if negb (str_in departure_type valid_types) then Some (str "none")
      else Some departure_type
  | _ => if not_detected screen_detected then Some (str "none") else None
  end.

(** Lines 176-183. *)
Definition norm_departure_info (parsed : pydict) : list value :=
  let departure_info := py_get parsed (str "departure_info") in
  match departure_info with
  | VList l => filter is_dict l
  | _ => []
  end.

(** The [try] block of step 5 on the parsed response; [.get] is a method
    of a [dict] only. *)
Definition normalize (parsed : value) : result CrowdResult :=
  match parsed with
  | VDict parsed =>
      people_count <- norm_people_count parsed ;;
      crowd_score <- norm_crowd_score parsed ;;
      let crowd_label := py_get parsed (str "crowd_label") in
      confidence <- norm_confidence parsed ;;
      let rationale := py_get_default parsed (str "rationale") (VStr []) in
      let screen_detected := norm_screen_detected parsed in
      let departure_type := norm_departure_type parsed screen_detected in
      let departure_info := norm_departure_info parsed in
      CrowdResult_new people_count crowd_score crowd_label confidence rationale
        screen_detected departure_type departure_info
  | _ => Raise AttributeError
  end.

(** ** The handler *)

Definition MAX_UPLOAD_BYTES : N := 5 * 1024 * 1024.

Definition MODEL_NAME : pystr := str "gemini-2.5-flash".

Definition SYSTEM_PROMPT : pystr := text "
You are a safety-first multimodal vision assistant. Analyze the provided image and return ONLY a JSON object (no surrounding explanation or markdown).

Required fields:
 - people_count: integer (estimated number of people visible in the image)
 - crowd_score: integer 1-10 (1 = empty, 10 = extremely crowded)
 - crowd_label: string ('Low', 'Medium', or 'High')
 - confidence: float 0-100 (how confident you are about the count & score)
 - rationale: short string (1-2 sentences) explaining how you derived the result

Additional fields for departure board detection:
 - screen_detected: boolean (true if any screen, monitor, display board, or information board is visible in the image)
 - departure_type: string (one of: 'flight', 'train', 'bus', 'subway', 'ferry', or 'none' if no departure board detected)
 - departure_info: array of objects (only if screen_detected is true). Each object should contain:
   * flight_number or train_number or route_number: string (the identifier)
   * destination: string (destination city/station name)
   * departure_time: string (scheduled departure time if visible)
   * status: string (e.g., 'On Time', 'Delayed', 'Boarding', 'Gate', 'Platform', etc.)
   * gate or platform: string (if visible on the board)
   
   If multiple departures are visible, include all of them in the array. If only partial information is visible, include what you can read.

If uncertain, set confidence lower and approximate the people_count as best as possible.
If no screen/board is detected, set screen_detected to false, departure_type to 'none', and departure_info to an empty array.

Return the JSON object and nothing else.
".

Inductive response : Type :=
| HTTPException (status_code : Z) (detail : string)
| JSONResponse (status_code : Z) (content : CrowdResult).

(** [x or default] for an optional [str]. *)
Definition str_or (x : option pystr) (default : pystr) : pystr :=
  match x with
  | Some ((_ :: _) as s) => s
  | _ => default
  end.

(** Steps 4 and 5 and the response, from the outcome of the model call
    ([response.text], or the exception of the call). *)
Definition respond (reply : result (option pystr)) : response :=
  match reply with
  | Raise _ => HTTPException 502 "Vision model request failed"
  | Ok response_text =>
      let raw_text := str_or response_text [] in
      match extract_first_json raw_text with
      | Raise _ => HTTPException 502 "Model returned unexpected output format"
      | Ok parsed =>
          match normalize parsed with
          | Raise _ => HTTPException 500 "Failed to normalize model response"
          | Ok result => JSONResponse 200 result
          end
      end
  end.

(** What the handler does once the upload has passed step 1: steps 2 and
    3, then [respond]. *)
Definition analyze_valid (contents : list Byte.byte) (content_type : option pystr)
  : response :=
  match Part_from_bytes contents (str_or content_type (str "image/jpeg")) with
  | Raise _ => HTTPException 500 "Failed to prepare image for analysis"
  | Ok image => respond (generate_content MODEL_NAME (py_strip SYSTEM_PROMPT) image)
  end.

(** [analyze_image(file, user_id)]: [contents] is what [file.read()]
    gives and [content_type] is [file.content_type]. *)
Definition analyze_image (contents : list Byte.byte) (content_type user_id : option pystr)
  : response :=
  match contents with
  | [] => HTTPException 400 "Empty file"
  | _ :: _ =>
      if (MAX_UPLOAD_BYTES <? N.of_nat (length contents))%N then
        HTTPException 413
          ("File too large. Max "
           ++ DecimalString.NilEmpty.string_of_uint (N.to_uint MAX_UPLOAD_BYTES)
           ++ " bytes allowed.")
      else analyze_valid contents content_type
  end.

End Program.

Arguments value {rt}.
Arguments pydict {rt}.
Arguments CrowdResult {rt}.
Arguments response {rt}.
Arguments Services {rt}.

(** * Properties *)

Section Normalization.

Context {rt : PyRuntime} {sv : Services}.

Lemma str_eqb_eq (a b : pystr) : str_eqb a b = true <-> a = b.
Proof.
  revert b; induction a as [|x a IH]; intros [|y b]; simpl; split;
    try discriminate; try reflexivity.
  - intros H. apply andb_true_iff in H as [Hx Ha].
    apply N.eqb_eq in Hx. apply IH in Ha. now subst.
  - intros [= -> ->]. rewrite N.eqb_refl. simpl. now apply IH.
Qed.

Lemma str_in_In (x : pystr) (xs : list pystr) : str_in x xs = true <-> In x xs.
Proof.
  unfold str_in. rewrite existsb_exists. split.
  - intros (y & Hy & E). apply str_eqb_eq in E. now subst.
  - intros H. exists x. split; [assumption | now apply str_eqb_eq].
Qed.

(** What a successful normalization says of each field. *)
Lemma normalize_fields (parsed : pydict) (r : CrowdResult) :
  normalize (VDict parsed) = Ok r ->
  norm_people_count parsed = Ok (people_count r)
  /\ norm_crowd_score parsed = Ok (crowd_score r)
  /\ norm_confidence parsed = Ok (confidence r)
  /\ validate_str (py_get parsed (str "crowd_label")) = Ok (crowd_label r)
  /\ validate_str (py_get_default parsed (str "rationale") (VStr [])) = Ok (rationale r)
  /\ screen_detected r = norm_screen_detected parsed
  /\ departure_type r = norm_departure_type parsed (norm_screen_detected parsed)
  /\ exists entries,
       validate_dicts (norm_departure_info parsed) = Ok entries
       /\ departure_info r = Some entries.
Proof.
  unfold normalize, CrowdResult_new.
  destruct (norm_people_count parsed) as [pc|]; simpl; [|discriminate].
  destruct (norm_crowd_score parsed) as [cs|]; simpl; [|discriminate].
  destruct (norm_confidence parsed) as [cf|]; simpl; [|discriminate].
  destruct (validate_str (py_get parsed (str "crowd_label"))) as [lb|]; simpl; [|discriminate].
  destruct (validate_str (py_get_default parsed (str "rationale") (VStr []))) as [ra|];
    simpl; [|discriminate].
  destruct (validate_dicts (norm_departure_info parsed)) as [ds|]; simpl; [|discriminate].
  intros [= <-]. simpl. repeat split; eauto.
Qed.

(** Only a dict is normalized. *)
Lemma normalize_dict (parsed : value) (r : CrowdResult) :
  normalize parsed = Ok r -> exists d, parsed = VDict d.
Proof.
  destruct parsed; simpl; try discriminate. intros _. eauto.
Qed.

(** The entries of a list that are dicts pass the validation of the
    field, in their order. *)
Lemma validate_dicts_filter (l : list value) :
  exists entries,
    validate_dicts (filter is_dict l) = Ok entries
    /\ map VDict entries = filter is_dict l.
Proof.
  induction l as [|v l (entries & Hv & Hm)]; simpl.
  - exists []. split; reflexivity.
  - destruct v; simpl; try (exists entries; split; assumption).
    rewrite Hv. simpl. exists (d :: entries). split; [reflexivity|].
    simpl. now rewrite Hm.
Qed.

(** C1. When [crowd_score] is present in the parsed response and [int]
    accepts it, giving [n], the normalized [crowd_score] is [n] clamped to
    the range from 1 to 10: it lies in the range, it is 10 when [n] is
    above 10, 1 when [n] is below 1, and [n] itself otherwise.  An [int]
    of the response is its own coercion. *)
Theorem crowd_score_clamped (parsed : pydict) (n : Z) (r : CrowdResult) :
  py_int (py_get parsed (str "crowd_score")) = Ok n ->
  normalize (VDict parsed) = Ok r ->
  (exists c, crowd_score r = Some c /\ (1 <= c <= 10)%Z)
  /\ ((10 < n)%Z -> crowd_score r = Some 10%Z)
  /\ ((n < 1)%Z -> crowd_score r = Some 1%Z)
  /\ ((1 <= n <= 10)%Z -> crowd_score r = Some n)
  /\ (forall m, py_get parsed (str "crowd_score") = VInt m -> m = n).
Proof.
  intros Hint Hnorm.
  destruct (normalize_fields _ _ Hnorm) as (_ & Hcs & _).
  assert (E : crowd_score r = Some (Z.max 1 (Z.min 10 n))).
  { unfold norm_crowd_score in Hcs.
    destruct (py_get parsed (str "crowd_score")); try discriminate Hint;
      rewrite Hint in Hcs; simpl in Hcs; now injection Hcs as <-. }
  rewrite E. repeat split.
  - exists (Z.max 1 (Z.min 10 n)). split; [reflexivity | lia].
  - intros. f_equal. lia.
  - intros. f_equal. lia.
  - intros. f_equal. lia.
  - intros m Hm. rewrite Hm in Hint. simpl in Hint. now injection Hint.
Qed.

(** C2. The normalized [departure_type] is unset or one of "flight",
    "train", "bus", "subway", "ferry", "none", whatever the model sent. *)
Theorem departure_type_closed (parsed : value) (r : CrowdResult) :
  normalize parsed = Ok r ->
  departure_type r = None
  \/ exists t, departure_type r = Some t /\ In t valid_types.
Proof.
  intros Hnorm. destruct (normalize_dict _ _ Hnorm) as (d & ->).
  destruct (normalize_fields _ _ Hnorm) as (_ & _ & _ & _ & _ & _ & Hdt & _).
  rewrite Hdt. unfold norm_departure_type.
  assert (Hnone : In (str "none") valid_types) by (simpl; tauto).
  destruct (py_get d (str "departure_type")) as [| | | |[|c s]| |];
    try (destruct (not_detected _); [right; eauto | left; reflexivity]).
  destruct (str_in (str_lower (c :: s)) valid_types) eqn:E; cbn [negb].
  - right. eexists. split; [reflexivity|]. now apply str_in_In.
  - right. eauto.
Qed.

(** C8. The [departure_info] of the result never fails to be built: the
    code's list passes the validation of the field; it is empty when the
    response has no [departure_info] or one that is not a list, and
    otherwise it is the entries of the list that are dicts, in their
    order, every other entry dropped. *)
Theorem departure_info_never_fails (parsed : pydict) :
  exists entries,
    validate_dicts (norm_departure_info parsed) = Ok entries
    /\ ((forall l, py_get parsed (str "departure_info") <> VList l) -> entries = [])
    /\ (forall l, py_get parsed (str "departure_info") = VList l ->
        map VDict entries = filter is_dict l)
    /\ (forall r, normalize (VDict parsed) = Ok r -> departure_info r = Some entries).
Proof.
  assert (H : exists entries,
    validate_dicts (norm_departure_info parsed) = Ok entries
    /\ map VDict entries = norm_departure_info parsed).
  { unfold norm_departure_info.
    destruct (py_get parsed (str "departure_info"));
      try (exists []; split; reflexivity).
    apply validate_dicts_filter. }
  destruct H as (entries & Hv & Hm). exists entries.
  split; [assumption|]. split; [|split].
  - intros Hl. unfold norm_departure_info in Hm.
    destruct (py_get parsed (str "departure_info"));
      try (now destruct entries).
    now destruct (Hl l).
  - intros l Hl. unfold norm_departure_info in Hm. now rewrite Hl in Hm.
  - intros r Hnorm.
    destruct (normalize_fields _ _ Hnorm) as (_ & _ & _ & _ & _ & _ & _ & ds & Hds & ->).
    rewrite Hv in Hds. now injection Hds as ->.
Qed.

(** C9 as the code has it.  The normalized [people_count] is unset when
    the response has no [people_count] (or [null]), and otherwise it is
    what [int] makes of the value: an integer, of either sign. *)
Theorem people_count_coerced (parsed : pydict) (r : CrowdResult) :
  normalize (VDict parsed) = Ok r ->
  (dict_lookup parsed (str "people_count") = None -> people_count r = None)
  /\ (py_get parsed (str "people_count") = VNone -> people_count r = None)
  /\ (py_get parsed (str "people_count") <> VNone ->
      exists n, people_count r = Some n
                /\ py_int (py_get parsed (str "people_count")) = Ok n)
  /\ (forall n, py_get parsed (str "people_count") = VInt n -> people_count r = Some n).
Proof.
  intros Hnorm. destruct (normalize_fields _ _ Hnorm) as (Hpc & _).
  unfold norm_people_count in Hpc.
  assert (Hnone : py_get parsed (str "people_count") = VNone -> people_count r = None).
  { intros E. rewrite E in Hpc. now injection Hpc. }
  split; [|split; [assumption|split]].
  - intros E. apply Hnone. unfold py_get, py_get_default. now rewrite E.
  - intros Hv.
    destruct (py_int (py_get parsed (str "people_count"))) as [m|e] eqn:Em;
      destruct (py_get parsed (str "people_count")); try (now destruct Hv);
      simpl in Hpc; try discriminate Hpc; injection Hpc as <-; eauto.
  - intros n E. rewrite E in Hpc. simpl in Hpc. now injection Hpc.
Qed.

(** [not screen_detected] after line 165 is [not] of what the response
    holds. *)
Lemma not_detected_py_bool (parsed : pydict) :
  not_detected (norm_screen_detected parsed)
  = negb (py_bool (py_get parsed (str "screen_detected"))).
Proof.
  unfold norm_screen_detected.
  destruct (py_get parsed (str "screen_detected")) as [|b|n|x|s|l|d]; simpl;
    try reflexivity.
  all: match goal with |- context [match ?b with _ => _ end] => now destruct b end.
Qed.

(** C4 as the code has it.  A [departure_type] that is a string and not
    empty is lower-cased first: the result is the lower-cased string when
    that is one of the six types, and "none" otherwise.  So a string of
    ASCII letters that differs from a type by letter case only gives that
    type, and one that is no type in any case gives "none". *)
Theorem departure_type_lowered (parsed : pydict) (r : CrowdResult) (s : pystr) :
  py_get parsed (str "departure_type") = VStr s -> s <> [] ->
  normalize (VDict parsed) = Ok r ->
  departure_type r
  = Some (if str_in (str_lower s) valid_types then str_lower s else str "none")
  /\ (forallb is_ascii s = true -> In (map ascii_lower s) valid_types ->
      departure_type r = Some (map ascii_lower s))
  /\ (forallb is_ascii s = true -> ~ In (map ascii_lower s) valid_types ->
      departure_type r = Some (str "none")).
Proof.
  intros Hs Hne Hnorm.
  destruct (normalize_fields _ _ Hnorm) as (_ & _ & _ & _ & _ & _ & Hdt & _).
  unfold norm_departure_type in Hdt. rewrite Hs in Hdt.
  destruct s as [|c s]; [now destruct Hne|].
  assert (E : departure_type r
    = Some (if str_in (str_lower (c :: s)) valid_types
            then str_lower (c :: s) else str "none")).
  { rewrite Hdt. now destruct (str_in _ _). }
  split; [assumption|]. clear Hdt.
  split; intros Hascii Hin; rewrite E;
    (assert (El : str_lower (c :: s) = map ascii_lower (c :: s))
      by (unfold str_lower; now rewrite Hascii)); rewrite El.
  - apply str_in_In in Hin. now rewrite Hin.
  - destruct (str_in (map ascii_lower (c :: s)) valid_types) eqn:Ein; [|reflexivity].
    apply str_in_In in Ein. now destruct Hin.
Qed.

(** The dict without the key [k]: what the response would be had the
    model left the field out. *)
Definition dict_del (d : pydict) (k : pystr) : pydict :=
  filter (fun kv => negb (str_eqb k (fst kv))) d.

Lemma dict_lookup_del (d : pydict) (k k' : pystr) :
  dict_lookup (dict_del d k) k' = if str_eqb k k' then None else dict_lookup d k'.
Proof.
  induction d as [|[k0 v0] d IH]; simpl.
  - now destruct (str_eqb k k').
  - destruct (str_eqb k k0) eqn:E0; simpl.
    + apply str_eqb_eq in E0. subst k0. rewrite IH.
      destruct (str_eqb k k') eqn:E1; [reflexivity|].
      destruct (str_eqb k' k) eqn:E2; [|reflexivity].
      apply str_eqb_eq in E2. subst k'.
      assert (str_eqb k k = true) by now apply str_eqb_eq. congruence.
    + rewrite IH. destruct (str_eqb k' k0) eqn:E1; [|reflexivity].
      apply str_eqb_eq in E1. subst k0. now rewrite E0.
Qed.

Lemma py_get_default_del (d : pydict) (k k' : pystr) (v : value) :
  str_eqb k k' = false ->
  py_get_default (dict_del d k) k' v = py_get_default d k' v.
Proof.
  intros E. unfold py_get_default. now rewrite dict_lookup_del, E.
Qed.

Lemma py_get_del_same (d : pydict) (k : pystr) : py_get (dict_del d k) k = VNone.
Proof.
  unfold py_get, py_get_default. rewrite dict_lookup_del.
  assert (E : str_eqb k k = true) by now apply str_eqb_eq.
  now rewrite E.
Qed.

(** C10. A [departure_type] that is the empty string, or no string at
    all, takes the branch of an absent field: the result is "none" when
    [screen_detected] is false, absent or [null], and unset when it is
    true; and the whole normalization is the one of the response without
    the field. *)
Theorem departure_type_not_a_string (parsed : pydict) (r : CrowdResult) :
  (py_get parsed (str "departure_type") = VStr []
   \/ forall s, py_get parsed (str "departure_type") <> VStr s) ->
  normalize (VDict parsed) = Ok r ->
  departure_type r
  = (if py_bool (py_get parsed (str "screen_detected")) then None else Some (str "none"))
  /\ normalize (VDict (dict_del parsed (str "departure_type"))) = Ok r.
Proof.
  intros Hv Hnorm.
  assert (Hbranch : forall sd,
    norm_departure_type parsed sd
    = if not_detected sd then Some (str "none") else None).
  { intros sd. unfold norm_departure_type.
    destruct Hv as [E|E].
    - now rewrite E.
    - destruct (py_get parsed (str "departure_type")) as [| | | |s| |];
        try reflexivity.
      now destruct (E s). }
  split.
  - destruct (normalize_fields _ _ Hnorm) as (_ & _ & _ & _ & _ & _ & Hdt & _).
    rewrite Hdt, Hbranch, not_detected_py_bool.
    now destruct (py_bool _).
  - rewrite <- Hnorm. unfold normalize.
    set (d' := dict_del parsed (str "departure_type")).
    assert (Hget : forall k v, str_eqb (str "departure_type") k = false ->
      py_get_default d' k v = py_get_default parsed k v).
    { intros k v E. now apply py_get_default_del. }
    assert (E1 : norm_people_count d' = norm_people_count parsed).
    { unfold norm_people_count, py_get. now rewrite Hget. }
    assert (E2 : norm_crowd_score d' = norm_crowd_score parsed).
    { unfold norm_crowd_score, py_get. now rewrite Hget. }
    assert (E3 : norm_confidence d' = norm_confidence parsed).
    { unfold norm_confidence, py_get. now rewrite Hget. }
    assert (E4 : norm_screen_detected d' = norm_screen_detected parsed).
    { unfold norm_screen_detected, py_get. now rewrite Hget. }
    assert (E5 : norm_departure_info d' = norm_departure_info parsed).
    { unfold norm_departure_info, py_get. now rewrite Hget. }
    assert (E6 : norm_departure_type d' (norm_screen_detected parsed)
                 = norm_departure_type parsed (norm_screen_detected parsed)).
    { rewrite Hbranch. unfold norm_departure_type, d'.
      now rewrite py_get_del_same. }
    rewrite E1, E2, E3, E4, E5, E6.
    unfold py_get. now rewrite !Hget.
Qed.

(** C3. Step 1 of the handler: an empty upload is answered 400 "Empty
    file" whatever its content type; an upload longer than 5 MiB is
    answered 413; any other upload passes, so that the image built from
    its bytes is what the model is called with, and the answer is then
    never 400 or 413. *)
Theorem upload_validation (contents : list Byte.byte) (content_type user_id : option pystr) :
  (contents = [] ->
   analyze_image contents content_type user_id = HTTPException 400 "Empty file")
  /\ ((5 * 1024 * 1024 < N.of_nat (length contents))%N ->
      analyze_image contents content_type user_id
      = HTTPException 413 "File too large. Max 5242880 bytes allowed.")
  /\ (contents <> [] -> (N.of_nat (length contents) <= 5 * 1024 * 1024)%N ->
      analyze_image contents content_type user_id = analyze_valid contents content_type
      /\ (forall image,
            Part_from_bytes contents (str_or content_type (str "image/jpeg")) = Ok image ->
            analyze_image contents content_type user_id
            = respond (generate_content MODEL_NAME (py_strip SYSTEM_PROMPT) image))
      /\ (forall detail,
            analyze_image contents content_type user_id <> HTTPException 400 detail
            /\ analyze_image contents content_type user_id <> HTTPException 413 detail)).
Proof.
  split; [|split].
  - now intros ->.
  - intros Hbig. unfold analyze_image.
    destruct contents as [|b contents]; [simpl in Hbig; lia|].
    change MAX_UPLOAD_BYTES with (5 * 1024 * 1024)%N.
    apply N.ltb_lt in Hbig. rewrite Hbig. reflexivity.
  - intros Hne Hsmall.
    assert (E : analyze_image contents content_type user_id
                = analyze_valid contents content_type).
    { unfold analyze_image. destruct contents as [|b contents]; [now destruct Hne|].
      change MAX_UPLOAD_BYTES with (5 * 1024 * 1024)%N.
      apply N.ltb_ge in Hsmall. now rewrite Hsmall. }
    split; [assumption|]. rewrite E. unfold analyze_valid. split.
    + intros image ->. reflexivity.
    + intros detail.
      destruct (Part_from_bytes _ _) as [image|]; [|split; discriminate].
      unfold respond.
      destruct (generate_content _ _ image) as [reply|]; [|split; discriminate].
      destruct (extract_first_json _) as [parsed|]; [|split; discriminate].
      destruct (normalize parsed); split; discriminate.
Qed.

End Normalization.

Section Extraction.

Context {rt : PyRuntime} {sv : Services}.

(** ** The pattern of [extract_first_json] *)

Lemma re_match_one (a : atom) (r : regex) (c : N) (s : pystr) :
  re_match (One a :: r) (c :: s)
  = if atom_ok a c then
      match re_match r s with
      | Some (m, rest) => Some (c :: m, rest)
      | None => None
      end
    else None.
Proof. reflexivity. Qed.

Lemma re_match_star (a : atom) (r : regex) (s : pystr) :
  re_match (Star a :: r) s = star_match a (re_match r) s.
Proof. reflexivity. Qed.

Lemma any_char_ok (c : N) : atom_ok any_char c = true.
Proof. apply orb_negb_r. Qed.

(** [[\s\S]*\}] on a text with no closing brace fails, however many
    characters the star gives back. *)
Lemma star_any_no_brace (s : pystr) :
  ~ In 125%N s -> star_match any_char (re_match [One (Chr 125)]) s = None.
Proof.
  induction s as [|c s IH]; intros Hin; [reflexivity|].
  cbn [star_match]. rewrite any_char_ok, IH by (intros H; apply Hin; now right).
  cbn. destruct (N.eqb_spec c 125) as [->|_]; [|reflexivity].
  destruct Hin. now left.
Qed.

(** On a text that ends with a closing brace it takes the whole text. *)
Lemma star_any_last_brace (body : pystr) :
  star_match any_char (re_match [One (Chr 125)]) (body ++ [125%N])
  = Some (body ++ [125%N], []).
Proof.
  induction body as [|c body IH]; [reflexivity|].
  cbn [app star_match]. now rewrite any_char_ok, IH.
Qed.

(** A text has no JSON object when no opening brace in it is followed,
    anywhere later, by a closing brace. *)
Definition no_json_object (raw : pystr) : Prop :=
  forall pre mid post, raw <> pre ++ 123%N :: mid ++ 125%N :: post.

Lemma no_json_object_tail (c : N) (raw : pystr) :
  no_json_object (c :: raw) -> no_json_object raw.
Proof.
  intros H pre mid post E. apply (H (c :: pre) mid post). now rewrite E.
Qed.

Lemma no_open_brace (raw : pystr) : ~ In 123%N raw -> no_json_object raw.
Proof.
  intros Hin pre mid post E. apply Hin. rewrite E.
  apply in_or_app. right. now left.
Qed.

Lemma search_no_json_object (raw : pystr) :
  no_json_object raw -> re_search json_object_re raw = None.
Proof.
  induction raw as [|c raw IH]; intros H; [reflexivity|].
  cbn [re_search].
  assert (E : re_match json_object_re (c :: raw) = None).
  { unfold json_object_re. rewrite re_match_one, re_match_star. cbn [atom_ok].
    destruct (N.eqb_spec c 123) as [->|_]; [|reflexivity].
    rewrite star_any_no_brace; [reflexivity|].
    intros Hin. apply in_split in Hin as (mid & post & ->).
    now apply (H [] mid post). }
  rewrite E. apply IH. now apply no_json_object_tail with c.
Qed.

(** A text that starts with an opening brace and ends with a closing one
    is its own candidate. *)
Lemma search_whole_object (body : pystr) :
  re_search json_object_re (123%N :: body ++ [125%N]) = Some (123%N :: body ++ [125%N]).
Proof.
  cbn [re_search]. unfold json_object_re. rewrite re_match_one, re_match_star.
  cbn [atom_ok]. now rewrite N.eqb_refl, star_any_last_brace.
Qed.

Lemma str_or_nil (raw : pystr) : str_or (Some raw) [] = raw.
Proof. now destruct raw. Qed.

(** An upload that is not empty and not too large goes on to step 2. *)
Lemma analyze_image_passes (contents : list Byte.byte) (content_type user_id : option pystr) :
  contents <> [] -> (N.of_nat (length contents) <= 5 * 1024 * 1024)%N ->
  analyze_image contents content_type user_id = analyze_valid contents content_type.
Proof.
  intros Hne Hsmall. unfold analyze_image.
  destruct contents as [|b contents]; [now destruct Hne|].
  change MAX_UPLOAD_BYTES with (5 * 1024 * 1024)%N.
  apply N.ltb_ge in Hsmall. now rewrite Hsmall.
Qed.

(** C6. On a text with no opening brace followed later by a closing brace
    (so on every text with no opening brace) [extract_first_json] raises
    the [ValueError] "No JSON object found in model response", and the
    handler, given this text by the model, answers 502. *)
Theorem no_json_object_502 (raw : pystr) :
  no_json_object raw ->
  extract_first_json raw = Raise (ValueError "No JSON object found in model response")
  /\ respond (Ok (Some raw)) = HTTPException 502 "Model returned unexpected output format"
  /\ (forall contents content_type user_id image,
        contents <> [] -> (N.of_nat (length contents) <= 5 * 1024 * 1024)%N ->
        Part_from_bytes contents (str_or content_type (str "image/jpeg")) = Ok image ->
        generate_content MODEL_NAME (py_strip SYSTEM_PROMPT) image = Ok (Some raw) ->
        analyze_image contents content_type user_id
        = HTTPException 502 "Model returned unexpected output format").
Proof.
  intros Hno.
  assert (E : extract_first_json raw
              = Raise (ValueError "No JSON object found in model response")).
  { unfold extract_first_json. now rewrite search_no_json_object. }
  assert (R : respond (Ok (Some raw))
              = HTTPException 502 "Model returned unexpected output format").
  { unfold respond. now rewrite str_or_nil, E. }
  split; [assumption|]. split; [assumption|].
  intros contents content_type user_id image Hne Hsmall Himage Hreply.
  rewrite (analyze_image_passes _ _ _ Hne Hsmall). unfold analyze_valid.
  now rewrite Himage, Hreply.
Qed.

(** ** The repair pass *)

(** A match of a comma, whitespace and a closing character that is not
    whitespace: the star keeps all the whitespace there is. *)
Lemma star_space_close (close : N) (ws rest : pystr) :
  is_space close = false -> forallb is_space ws = true ->
  star_match (Cls is_space) (re_match [One (Chr close)]) (ws ++ close :: rest)
  = Some (ws ++ [close], rest).
Proof.
  intros Hclose. induction ws as [|c ws IH]; intros Hws.
  - cbn. now rewrite Hclose, N.eqb_refl.
  - cbn in Hws. apply andb_true_iff in Hws as [Hc Hws].
    cbn [app star_match atom_ok]. now rewrite Hc, IH.
Qed.

Lemma comma_close_match (close : N) (ws rest : pystr) :
  is_space close = false -> forallb is_space ws = true ->
  re_match [One (Chr 44); Star (Cls is_space); One (Chr close)]
    (44%N :: ws ++ close :: rest)
  = Some (44%N :: ws ++ [close], rest).
Proof.
  intros Hclose Hws. rewrite re_match_one, re_match_star.
  cbn [atom_ok]. now rewrite N.eqb_refl, star_space_close.
Qed.

(** C5. When [json.loads] rejects the candidate, the result of
    [extract_first_json] is [json.loads] of the candidate after the two
    substitutions, which put a closing brace, then a closing bracket, in
    the place of a comma, whitespace and that character.  The text of the
    scenario is rejected as it stands and parses after the repair, to
    [people_count] 3 and [crowd_score] 2, which normalization keeps. *)
Theorem trailing_comma_repair :
  (forall raw candidate,
     re_search json_object_re raw = Some candidate ->
     json_loads candidate = Raise JSONDecodeError ->
     extract_first_json raw
     = json_loads (re_sub comma_bracket_re (str "]")
                     (re_sub comma_brace_re (str "}") candidate)))
  /\ (forall ws rest, forallb is_space ws = true ->
      re_match comma_brace_re (44%N :: ws ++ 125%N :: rest)
      = Some (44%N :: ws ++ [125%N], rest)
      /\ re_match comma_bracket_re (44%N :: ws ++ 93%N :: rest)
         = Some (44%N :: ws ++ [93%N], rest))
  /\ (let raw := text "{'people_count': 3, 'crowd_score': 2,}" in
      let parsed := VDict [(str "people_count", VInt 3); (str "crowd_score", VInt 2)] in
      re_search json_object_re raw = Some raw
      /\ json_loads raw = Raise JSONDecodeError
      /\ re_sub comma_bracket_re (str "]") (re_sub comma_brace_re (str "}") raw)
         = text "{'people_count': 3, 'crowd_score': 2}"
      /\ extract_first_json raw = Ok parsed
      /\ exists r, normalize parsed = Ok r
                   /\ people_count r = Some 3%Z /\ crowd_score r = Some 2%Z).
Proof.
  split; [|split].
  - intros raw candidate Hsearch Hloads. unfold extract_first_json.
    now rewrite Hsearch, Hloads.
  - intros ws rest Hws. split; now apply comma_close_match.
  - cbv zeta. repeat split; try reflexivity.
    eexists. split; [reflexivity|]. split; reflexivity.
Qed.

End Extraction.

(** * The encoder and the decoder *)

(** What [json.dumps] then [json.loads] needs of the floats: the three
    constants are what their names say and the infinities are the only
    floats of their class; [float] of a text matched as a number is not
    nan; [repr] of a finite float is matched as a number, whole, with a
    fraction or an exponent, and [float] brings the float back. *)
Class FloatLaws (rt : PyRuntime) : Prop := {
  nan_class : float_class_of float_nan = FNan;
  inf_class : float_class_of float_inf = FPosInf;
  neg_inf_class : float_class_of float_neg_inf = FNegInf;
  inf_unique : forall x, float_class_of x = FPosInf -> x = float_inf;
  neg_inf_unique : forall x, float_class_of x = FNegInf -> x = float_neg_inf;
  literal_not_nan : forall s i f e rest x,
    match_number s = Some (i, f, e, rest) ->
    float_of_str (i ++ f ++ e) = Ok x -> float_class_of x <> FNan;
  repr_is_literal : forall x,
    float_class_of x = FFinite ->
    exists i f e, match_number (float_repr x) = Some (i, f, e, []) /\ f ++ e <> [];
  repr_roundtrip : forall x,
    float_class_of x = FFinite -> float_of_str (float_repr x) = Ok x
}.

Section Roundtrip.

Context {rt : PyRuntime}.

(** ** Strings: [scanstring] after [encode_basestring_ascii] *)

Ltac euclid := zify; Z.to_euclidean_division_equations; lia.

Lemma hex_value_digit (d : N) : (d < 16)%N -> hex_value (hex_digit d) = Some d.
Proof.
  intros H. unfold hex_digit, hex_value, is_digit.
  destruct (N.ltb_spec d 10).
  - replace ((48 <=? 48 + d) && (48 + d <=? 57))%N with true.
    + f_equal. lia.
    + symmetry. apply andb_true_iff. split; apply N.leb_le; lia.
  - replace ((48 <=? 87 + d) && (87 + d <=? 57))%N with false.
    + replace ((97 <=? 87 + d) && (87 + d <=? 102))%N with true.
      * f_equal. lia.
      * symmetry. apply andb_true_iff. split; apply N.leb_le; lia.
    + symmetry. apply andb_false_iff. right. apply N.leb_gt. lia.
Qed.

(** The four digits of [u_escape] read back as the number. *)
Lemma hex4_u_escape (n : N) :
  (n < 0x10000)%N ->
  hex4 (hex_digit (n / 4096)) (hex_digit ((n / 256) mod 16))
       (hex_digit ((n / 16) mod 16)) (hex_digit (n mod 16)) = Some n.
Proof.
  intros H. unfold hex4.
  rewrite !hex_value_digit by euclid. f_equal. euclid.
Qed.

(** The surrogates the encoder writes for a character above the BMP. *)
Definition high_of (c : N) : N := N.lor 0xD800 (N.land (N.shiftr (c - 0x10000) 10) 0x3FF).
Definition low_of (c : N) : N := N.lor 0xDC00 (N.land (c - 0x10000) 0x3FF).

Lemma lor_low_bits (base x : N) :
  (base = 0xD800 \/ base = 0xDC00)%N -> (x < 1024)%N -> N.lor base x = (base + x)%N.
Proof.
  intros Hb Hx.
  assert (Hall : forallb (fun y => (N.lor 0xD800 y =? 0xD800 + y)
                                   && (N.lor 0xDC00 y =? 0xDC00 + y))%N
                         (map N.of_nat (seq 0 1024)) = true) by (vm_compute; reflexivity).
  rewrite forallb_forall in Hall.
  assert (Hin : In x (map N.of_nat (seq 0 1024))).
  { apply in_map_iff. exists (N.to_nat x). split; [lia|]. apply in_seq. lia. }
  apply Hall in Hin. apply andb_true_iff in Hin as [H1 H2].
  apply N.eqb_eq in H1, H2. now destruct Hb as [-> | ->].
Qed.

Lemma high_of_eq (c : N) :
  (0x10000 <= c < 0x110000)%N -> high_of c = (0xD800 + (c - 0x10000) / 1024)%N.
Proof.
  intros H. unfold high_of.
  change 0x3FF%N with (N.ones 10). rewrite N.land_ones, N.shiftr_div_pow2.
  change (2 ^ 10)%N with 1024%N.
  rewrite lor_low_bits; [|now left|euclid]. f_equal. euclid.
Qed.

Lemma low_of_eq (c : N) :
  (0x10000 <= c < 0x110000)%N -> low_of c = (0xDC00 + (c - 0x10000) mod 1024)%N.
Proof.
  intros H. unfold low_of.
  change 0x3FF%N with (N.ones 10). rewrite N.land_ones.
  change (2 ^ 10)%N with 1024%N.
  rewrite lor_low_bits; [reflexivity|now right|euclid].
Qed.

Lemma surrogates_of (c : N) :
  (0x10000 <= c < 0x110000)%N ->
  (high_of c < 0x10000)%N /\ (low_of c < 0x10000)%N
  /\ is_high_surrogate (high_of c) = true
  /\ is_low_surrogate (low_of c) = true
  /\ is_low_surrogate (high_of c) = false
  /\ join_surrogates (high_of c) (low_of c) = c.
Proof.
  intros H. rewrite high_of_eq, low_of_eq by assumption.
  unfold is_high_surrogate, is_low_surrogate, join_surrogates.
  repeat split.
  - euclid.
  - euclid.
  - apply andb_true_iff. split; apply N.leb_le; euclid.
  - apply andb_true_iff. split; apply N.leb_le; euclid.
  - apply andb_false_iff. left. apply N.leb_gt. euclid.
  - euclid.
Qed.

(** A [str]: every code point is below 0x110000. *)
Definition valid_char (c : N) : bool := (c <? 0x110000)%N.

(** No high surrogate is followed at once by a low surrogate. *)
Fixpoint no_split_pair (s : pystr) : bool :=
  match s with
  | [] => true
  | hi :: t =>
      match t with
      | lo :: _ => negb (is_high_surrogate hi && is_low_surrogate lo)
      | [] => true
      end && no_split_pair t
  end.

(** How the encoder writes one character. *)
Inductive escape_shape (c : N) : pystr -> Prop :=
| esc_short (x : N) :
    x <> 117%N -> unescape x = Some c -> escape_shape c [92%N; x]
| esc_plain :
    c <> 34%N -> c <> 92%N -> (32 <= c)%N -> escape_shape c [c]
| esc_u :
    (c < 0x10000)%N -> escape_shape c (u_escape c)
| esc_pair :
    (0x10000 <= c)%N -> escape_shape c (u_escape (high_of c) ++ u_escape (low_of c)).

Lemma escape_char_shape (c : N) : escape_shape c (escape_char c).
Proof.
  unfold escape_char.
  destruct (N.eqb_spec c 34) as [->|H34]; [now apply esc_short|].
  destruct (N.eqb_spec c 92) as [->|H92]; [now apply esc_short|].
  destruct (N.eqb_spec c 10) as [->|H10]; [now apply esc_short|].
  destruct (N.eqb_spec c 13) as [->|H13]; [now apply esc_short|].
  destruct (N.eqb_spec c 9) as [->|H9]; [now apply esc_short|].
  destruct (N.eqb_spec c 12) as [->|H12]; [now apply esc_short|].
  destruct (N.eqb_spec c 8) as [->|H8]; [now apply esc_short|].
  destruct ((32 <=? c) && (c <=? 126))%N eqn:Hp.
  - apply andb_true_iff in Hp as [Hlo _]. apply N.leb_le in Hlo. now apply esc_plain.
  - destruct (N.ltb_spec c 0x10000); [now apply esc_u|now apply esc_pair].
Qed.

(** The equations of [scanstring]. *)
Lemma scanstring_short (x ch : N) (s : pystr) :
  x <> 117%N -> unescape x = Some ch ->
  scanstring (92%N :: x :: s) = '(chars, rest) <- scanstring s ;; Ok (ch :: chars, rest).
Proof.
  intros Hx Hch. cbn [scanstring]. cbn [N.eqb Pos.eqb].
  destruct (N.eqb_spec x 117) as [E|_]; [now destruct Hx|]. now rewrite Hch.
Qed.

Lemma scanstring_plain (c : N) (s : pystr) :
  c <> 34%N -> c <> 92%N -> (32 <= c)%N ->
  scanstring (c :: s) = '(chars, rest) <- scanstring s ;; Ok (c :: chars, rest).
Proof.
  intros H34 H92 H32. cbn [scanstring].
  destruct (N.eqb_spec c 34) as [E|_]; [now destruct H34|].
  destruct (N.eqb_spec c 92) as [E|_]; [now destruct H92|].
  destruct (N.ltb_spec c 32) as [E|_]; [lia|reflexivity].
Qed.

(** What [scanstring] does after the four digits of an escape. *)
Definition pair_lookahead (scan : pystr -> result (pystr * pystr)) (uni : N) (s3 : pystr)
  : result (pystr * pystr) :=
  let single := '(chars, rest) <- scan s3 ;; Ok (uni :: chars, rest) in
  if is_high_surrogate uni then
    match s3 with
    | b :: u :: k1 :: k2 :: k3 :: k4 :: s4 =>
        if ((b =? 92) && (u =? 117))%N then
          match hex4 k1 k2 k3 k4 with
          | None => Raise JSONDecodeError
          | Some uni2 =>
              if is_low_surrogate uni2 then
                '(chars, rest) <- scan s4 ;;
                Ok (join_surrogates uni uni2 :: chars, rest)
              else single
          end
        else single
    | _ => single
    end
  else single.

Lemma scanstring_u_escape (n : N) (s3 : pystr) :
  (n < 0x10000)%N ->
  scanstring (u_escape n ++ s3) = pair_lookahead scanstring n s3.
Proof.
  intros Hn. unfold u_escape. cbn [app scanstring]. cbn [N.eqb Pos.eqb].
  now rewrite hex4_u_escape.
Qed.

(** The lookahead finds no pair in front of a closing quote or of a
    character that is not a low surrogate. *)
Lemma pair_lookahead_quote (scan : pystr -> result (pystr * pystr)) (uni : N) (rest : pystr) :
  pair_lookahead scan uni (34%N :: rest)
  = '(chars, rest') <- scan (34%N :: rest) ;; Ok (uni :: chars, rest').
Proof.
  unfold pair_lookahead. destruct (is_high_surrogate uni); [|reflexivity].
  destruct rest as [|? [|? [|? [|? [|? ?]]]]]; reflexivity.
Qed.

Lemma pair_lookahead_char (scan : pystr -> result (pystr * pystr)) (uni c : N) (s : pystr) :
  valid_char c = true -> is_low_surrogate c = false ->
  pair_lookahead scan uni (escape_char c ++ s)
  = '(chars, rest) <- scan (escape_char c ++ s) ;; Ok (uni :: chars, rest).
Proof.
  intros Hv Hlow. unfold pair_lookahead.
  destruct (is_high_surrogate uni); [|reflexivity].
  destruct (escape_char_shape c) as [x Hx _| H34 H92 _ | Hc | Hc].
  - cbn [app]. destruct s as [|? [|? [|? [|? ?]]]]; try reflexivity.
    destruct (N.eqb_spec x 117) as [E|_]; [now destruct Hx|]. reflexivity.
  - cbn [app]. destruct s as [|? [|? [|? [|? [|? ?]]]]]; try reflexivity.
    destruct (N.eqb_spec c 92) as [E|_]; [now destruct H92|]. reflexivity.
  - unfold u_escape. cbn [app]. cbn [N.eqb Pos.eqb andb].
    now rewrite hex4_u_escape, Hlow.
  - assert (Hr : (0x10000 <= c < 0x110000)%N).
    { split; [assumption|]. now apply N.ltb_lt. }
    destruct (surrogates_of c Hr) as (Hh & _ & _ & _ & Hnl & _).
    unfold u_escape at 1 3. cbn [app]. cbn [N.eqb Pos.eqb andb].
    now rewrite hex4_u_escape, Hnl.
Qed.

Lemma no_split_pair_cons (c : N) (s : pystr) :
  no_split_pair (c :: s) = true ->
  no_split_pair s = true
  /\ (is_high_surrogate c = true ->
      match s with
      | lo :: _ => is_low_surrogate lo = false
      | [] => True
      end).
Proof.
  cbn [no_split_pair]. intros H. apply andb_true_iff in H as [H1 H2].
  split; [assumption|]. intros Hh. destruct s as [|lo s]; [exact I|].
  rewrite Hh in H1. now destruct (is_low_surrogate lo).
Qed.

(** [scanstring] reads back what [encode_basestring_ascii] wrote. *)
Lemma scanstring_escaped (s rest : pystr) :
  forallb valid_char s = true -> no_split_pair s = true ->
  scanstring (flat_map escape_char s ++ 34%N :: rest) = Ok (s, rest).
Proof.
  induction s as [|c s IH]; intros Hv Hp; [reflexivity|].
  cbn [forallb] in Hv. apply andb_true_iff in Hv as [Hc Hv].
  apply no_split_pair_cons in Hp as [Hp Hnext].
  specialize (IH Hv Hp).
  cbn [flat_map]. rewrite <- app_assoc.
  set (T := flat_map escape_char s ++ 34%N :: rest) in *.
  assert (Hlook : forall uni, is_high_surrogate uni = false \/ uni = c ->
    pair_lookahead scanstring uni T = Ok (uni :: s, rest)).
  { intros uni Huni.
    assert (E : pair_lookahead scanstring uni T
                = '(chars, rest') <- scanstring T ;; Ok (uni :: chars, rest')).
    { destruct Huni as [Hnh| ->].
      - unfold pair_lookahead. now rewrite Hnh.
      - destruct (is_high_surrogate c) eqn:Hh.
        + subst T. destruct s as [|c2 s].
          * apply pair_lookahead_quote.
          * cbn [flat_map]. rewrite <- app_assoc. apply pair_lookahead_char.
            -- cbn [forallb] in Hv. now apply andb_true_iff in Hv as [? _].
            -- now apply Hnext.
        + unfold pair_lookahead. now rewrite Hh. }
    rewrite E, IH. reflexivity. }
  destruct (escape_char_shape c) as [x Hx Hu| H34 H92 H32 | Hlt | Hge].
  - cbn [app]. rewrite (scanstring_short _ _ _ Hx Hu), IH. reflexivity.
  - cbn [app]. rewrite (scanstring_plain _ _ H34 H92 H32), IH. reflexivity.
  - rewrite scanstring_u_escape by assumption. apply Hlook. now right.
  - assert (Hr : (0x10000 <= c < 0x110000)%N).
    { split; [assumption|]. now apply N.ltb_lt. }
    destruct (surrogates_of c Hr) as (Hh & Hl & Hhi & Hlo & _ & Hj).
    rewrite <- app_assoc, scanstring_u_escape by assumption.
    unfold pair_lookahead. rewrite Hhi.
    unfold u_escape. cbn [app]. cbn [N.eqb Pos.eqb andb].
    rewrite hex4_u_escape, Hlo, IH by assumption. cbn [bind]. now rewrite Hj.
Qed.

(** ** Numbers *)

(** What may follow a value in the encoder's output: nothing, a comma, a
    closing bracket or a closing brace. *)
Definition delimited (rest : pystr) : bool :=
  match rest with
  | [] => true
  | c :: _ => ((c =? 44) || (c =? 93) || (c =? 125))%N
  end.

Definition no_digit_ahead (rest : pystr) : Prop :=
  match rest with
  | [] => True
  | c :: _ => is_digit c = false
  end.

Lemma delimited_cases (rest : pystr) :
  delimited rest = true ->
  rest = [] \/ exists c t, rest = c :: t /\ (c = 44 \/ c = 93 \/ c = 125)%N.
Proof.
  destruct rest as [|c t]; [now left|]. cbn. intros H. right. exists c, t.
  split; [reflexivity|].
  apply orb_true_iff in H as [H|H]; [apply orb_true_iff in H as [H|H]|];
    apply N.eqb_eq in H; tauto.
Qed.

Lemma delimited_no_digit (rest : pystr) : delimited rest = true -> no_digit_ahead rest.
Proof.
  intros H. destruct (delimited_cases _ H) as [->|(c & t & -> & [->|[->| ->]])];
    now cbn.
Qed.

Lemma span_app (p : N -> bool) (s rest a b : pystr) :
  span p s = (a, b) ->
  (b = [] -> match rest with [] => True | c :: _ => p c = false end) ->
  span p (s ++ rest) = (a, b ++ rest).
Proof.
  revert a b. induction s as [|c s IH]; intros a b.
  - cbn. intros [= <- <-] H. specialize (H eq_refl).
    destruct rest as [|c t]; [reflexivity|]. cbn. now rewrite H.
  - cbn [span app]. destruct (p c) eqn:Hc.
    + destruct (span p s) as [a' b'] eqn:E. intros [= <- <-] H.
      now rewrite (IH _ _ eq_refl H).
    + now intros [= <- <-] _.
Qed.

Lemma span_all (p : N -> bool) (ds rest : pystr) :
  forallb p ds = true ->
  match rest with [] => True | c :: _ => p c = false end ->
  span p (ds ++ rest) = (ds, rest).
Proof.
  intros Hds Hrest. induction ds as [|d ds IH].
  - destruct rest as [|c t]; [reflexivity|]. cbn. now rewrite Hrest.
  - cbn in Hds. apply andb_true_iff in Hds as [Hd Hds].
    cbn [app span]. now rewrite Hd, (IH Hds).
Qed.

Lemma span_concat (p : N -> bool) (s a b : pystr) : span p s = (a, b) -> s = a ++ b.
Proof.
  revert a b. induction s as [|c s IH]; intros a b; cbn.
  - now intros [= <- <-].
  - destruct (p c); [|now intros [= <- <-]].
    destruct (span p s) as [a' b']. intros [= <- <-]. cbn. f_equal. now apply IH.
Qed.

(** Each step of [match_number] splits the text. *)
Lemma match_digits_concat (s ds r : pystr) : match_digits s = Some (ds, r) -> s = ds ++ r.
Proof.
  unfold match_digits. destruct s as [|c t]; [discriminate|].
  destruct ((49 <=? c) && (c <=? 57))%N.
  - destruct (span is_digit t) as [ds' r'] eqn:E. intros [= <- <-].
    apply span_concat in E. now subst.
  - destruct (c =? 48)%N; [|discriminate]. now intros [= <- <-].
Qed.

Lemma match_integer_concat (s i r : pystr) : match_integer s = Some (i, r) -> s = i ++ r.
Proof.
  unfold match_integer. destruct s as [|c t]; [discriminate|].
  destruct (c =? 45)%N; [|apply match_digits_concat].
  destruct (match_digits t) as [[ds r']|] eqn:E; [|discriminate].
  intros [= <- <-]. apply match_digits_concat in E. now subst.
Qed.

Lemma match_frac_concat (s f r : pystr) : match_frac s = (f, r) -> s = f ++ r.
Proof.
  unfold match_frac. destruct s as [|dot [|d t]]; try (now intros [= <- <-]).
  destruct ((dot =? 46)%N && is_digit d); [|now intros [= <- <-]].
  destruct (span is_digit t) as [fs r'] eqn:E. intros [= <- <-].
  apply span_concat in E. now subst.
Qed.

Lemma match_exp_concat (s e r : pystr) : match_exp s = (e, r) -> s = e ++ r.
Proof.
  unfold match_exp. destruct s as [|c t]; [now intros [= <- <-]|].
  destruct ((c =? 101) || (c =? 69))%N; [|now intros [= <- <-]].
  assert (H : forall sg t', t = sg ++ t' ->
    (let (es, r0) := span is_digit t' in
     match es with
     | [] => ([], c :: t)
     | _ :: _ => (c :: sg ++ es, r0)
     end) = (e, r) -> c :: t = e ++ r).
  { intros sg t' Ht. destruct (span is_digit t') as [es r0] eqn:E.
    apply span_concat in E. destruct es; intros [= <- <-]; [reflexivity|].
    subst. cbn. now rewrite <- !app_assoc. }
  destruct t as [|c2 t']; [apply (H [] []); reflexivity|].
  destruct ((c2 =? 43) || (c2 =? 45))%N;
    [apply (H [c2] t')|apply (H [] (c2 :: t'))]; reflexivity.
Qed.

Lemma match_number_concat (s i f e r : pystr) :
  match_number s = Some (i, f, e, r) -> s = i ++ f ++ e ++ r.
Proof.
  unfold match_number. destruct (match_integer s) as [[i' s2]|] eqn:Ei; [|discriminate].
  destruct (match_frac s2) as [f' s3] eqn:Ef. destruct (match_exp s3) as [e' s4] eqn:Ee.
  intros [= <- <- <- <-].
  apply match_integer_concat in Ei. apply match_frac_concat in Ef.
  apply match_exp_concat in Ee. now subst.
Qed.

(** A step that stopped inside the text is not changed by what is put
    after the text; one that read to the end is not changed either when
    what follows is a delimiter. *)
Lemma match_digits_app (s rest ds r : pystr) :
  match_digits s = Some (ds, r) -> (r = [] -> no_digit_ahead rest) ->
  match_digits (s ++ rest) = Some (ds, r ++ rest).
Proof.
  unfold match_digits. destruct s as [|c t]; [discriminate|]. cbn [app].
  destruct ((49 <=? c) && (c <=? 57))%N.
  - destruct (span is_digit t) as [ds' r'] eqn:E. intros [= <- <-] H.
    now rewrite (span_app _ _ rest _ _ E H).
  - destruct (c =? 48)%N; [|discriminate]. now intros [= <- <-].
Qed.

Lemma match_integer_app (s rest i r : pystr) :
  match_integer s = Some (i, r) -> (r = [] -> no_digit_ahead rest) ->
  match_integer (s ++ rest) = Some (i, r ++ rest).
Proof.
  unfold match_integer. destruct s as [|c t]; [discriminate|]. cbn [app].
  destruct (c =? 45)%N; [|apply match_digits_app].
  destruct (match_digits t) as [[ds r']|] eqn:E; [|discriminate].
  intros [= <- <-] H. now rewrite (match_digits_app _ _ _ _ E H).
Qed.

Lemma match_frac_app (s rest f r : pystr) :
  match_frac s = (f, r) -> s <> [46%N] -> (r = [] -> delimited rest = true) ->
  match_frac (s ++ rest) = (f, r ++ rest).
Proof.
  unfold match_frac. destruct s as [|dot [|d t]].
  - intros [= <- <-] _ H. specialize (H eq_refl).
    destruct (delimited_cases _ H) as [->|(c & t & -> & Hc)]; [reflexivity|].
    cbn [app]. destruct t as [|d t]; [reflexivity|].
    destruct (N.eqb_spec c 46) as [->|_]; [|reflexivity].
    now destruct Hc as [|[|]].
  - intros [= <- <-] Hdot _. cbn [app].
    destruct rest as [|d t]; [reflexivity|].
    destruct (N.eqb_spec dot 46) as [->|_]; [now destruct Hdot|reflexivity].
  - cbn [app]. destruct ((dot =? 46)%N && is_digit d); [|now intros [= <- <-]].
    destruct (span is_digit t) as [fs r'] eqn:E. intros [= <- <-] _ H.
    rewrite (span_app _ _ rest _ _ E); [reflexivity|].
    intros Hr. now apply delimited_no_digit, H.
Qed.

Lemma match_exp_app (s rest e : pystr) :
  match_exp s = (e, []) -> delimited rest = true ->
  match_exp (s ++ rest) = (e, rest).
Proof.
  unfold match_exp. intros Hs Hrest. destruct s as [|c t].
  - injection Hs as <-.
    destruct (delimited_cases _ Hrest) as [->|(c & t & -> & Hc)]; [reflexivity|].
    cbn [app].
    destruct (N.eqb_spec c 101) as [->|_]; [now destruct Hc as [|[|]]|].
    destruct (N.eqb_spec c 69) as [->|_]; [now destruct Hc as [|[|]]|].
    reflexivity.
  - cbn [app]. destruct ((c =? 101) || (c =? 69))%N; [|discriminate Hs].
    assert (H : forall sg t',
      (let (es, r0) := span is_digit t' in
       match es with
       | [] => ([], c :: t)
       | _ :: _ => (c :: sg ++ es, r0)
       end) = (e, []) ->
      (let (es, r0) := span is_digit (t' ++ rest) in
       match es with
       | [] => ([], c :: t ++ rest)
       | _ :: _ => (c :: sg ++ es, r0)
       end) = (e, rest)).
    { intros sg t'. destruct (span is_digit t') as [es r0] eqn:E.
      destruct es as [|d es]; [discriminate|]. intros [= <- ->].
      rewrite (span_app _ _ rest _ _ E); [reflexivity|].
      intros _. now apply delimited_no_digit. }
    destruct t as [|c2 t'].
    + exfalso. cbn in Hs. discriminate Hs.
    + cbn [app]. destruct ((c2 =? 43) || (c2 =? 45))%N.
      * now apply H.
      * now apply (H [] (c2 :: t')).
Qed.

Lemma match_number_app (s rest i f e : pystr) :
  match_number s = Some (i, f, e, []) -> delimited rest = true ->
  match_number (s ++ rest) = Some (i, f, e, rest).
Proof.
  unfold match_number. intros Hs Hrest.
  destruct (match_integer s) as [[i' s2]|] eqn:Ei; [|discriminate].
  destruct (match_frac s2) as [f' s3] eqn:Ef.
  destruct (match_exp s3) as [e' s4] eqn:Ee.
  injection Hs as -> -> -> ->.
  rewrite (match_integer_app _ rest _ _ Ei)
    by (intros _; now apply delimited_no_digit).
  rewrite (match_frac_app _ rest _ _ Ef).
  - now rewrite (match_exp_app _ _ _ Ee Hrest).
  - intros ->. cbn in Ef. injection Ef as <- <-. cbn in Ee. discriminate Ee.
  - now intros _.
Qed.

(** A number starts with a minus sign or a digit. *)
Lemma match_number_head (s : pystr) (m : pystr * pystr * pystr * pystr) :
  match_number s = Some m ->
  exists c t, s = c :: t /\ (c = 45%N \/ is_digit c = true).
Proof.
  unfold match_number, match_integer. destruct s as [|c t]; [discriminate|].
  intros H. exists c, t. split; [reflexivity|].
  destruct (N.eqb_spec c 45) as [->|_]; [now left|]. right.
  unfold match_digits, is_digit in *.
  destruct ((49 <=? c) && (c <=? 57))%N eqn:E.
  - apply andb_true_iff in E as [E1 E2]. apply N.leb_le in E1.
    apply andb_true_iff. split; [apply N.leb_le; lia|assumption].
  - destruct (N.eqb_spec c 48) as [->|_]; [reflexivity|discriminate].
Qed.

(** ** [int.__repr__] *)

Lemma digits_of_uint_digits (u : Decimal.uint) : forallb is_digit (digits_of_uint u) = true.
Proof. induction u; cbn; auto. Qed.

Lemma uint_of_digits_of_uint (u : Decimal.uint) : uint_of_digits (digits_of_uint u) = u.
Proof. induction u; cbn; [reflexivity|..]; unfold uint_of_digits in IHu; now rewrite IHu. Qed.

(** A numeral with no sign: 0, or digits that start with a digit from 1
    to 9. *)
Definition decimal (ds : pystr) : Prop :=
  forallb is_digit ds = true
  /\ (ds = [48%N] \/ exists c t, ds = c :: t /\ (49 <= c <= 57)%N).

Lemma nzhead_shape (u : Decimal.uint) :
  Decimal.nzhead u = Decimal.Nil
  \/ exists c t, digits_of_uint (Decimal.nzhead u) = c :: t /\ (49 <= c <= 57)%N.
Proof.
  induction u; cbn; auto; right; eexists; eexists; (split; [reflexivity|lia]).
Qed.

Lemma int_repr_shape (n : Z) :
  exists ds, decimal ds /\ (int_repr n = ds \/ int_repr n = 45%N :: ds).
Proof.
  unfold int_repr.
  assert (E : Z.to_int n = Decimal.norm (Z.to_int n)).
  { rewrite <- DecimalZ.to_of at 1. now rewrite DecimalZ.of_to. }
  destruct (Z.to_int n) as [u|u]; cbn in E.
  - exists (digits_of_uint u). split; [|now left].
    split; [apply digits_of_uint_digits|].
    injection E as E. unfold Decimal.unorm in E.
    destruct (nzhead_shape u) as [Hn|(c & t & Hc & Hr)].
    + rewrite Hn in E. rewrite E. now left.
    + right. exists c, t. split; [|assumption].
      destruct (Decimal.nzhead u); try (now rewrite E); discriminate Hc.
  - exists (digits_of_uint u). split; [|now right].
    split; [apply digits_of_uint_digits|].
    destruct (nzhead_shape u) as [Hn|(c & t & Hc & Hr)].
    + rewrite Hn in E. discriminate E.
    + right. exists c, t. split; [|assumption].
      destruct (Decimal.nzhead u); try discriminate Hc; now injection E as ->.
Qed.

Lemma match_digits_decimal (ds rest : pystr) :
  decimal ds -> no_digit_ahead rest -> match_digits (ds ++ rest) = Some (ds, rest).
Proof.
  intros [Hall [->|(c & t & -> & Hc)]] Hrest; [reflexivity|].
  cbn [app match_digits].
  replace ((49 <=? c) && (c <=? 57))%N with true
    by (symmetry; apply andb_true_iff; split; apply N.leb_le; lia).
  cbn in Hall. apply andb_true_iff in Hall as [_ Hall].
  now rewrite (span_all _ _ _ Hall Hrest).
Qed.

Lemma decimal_head (ds : pystr) :
  decimal ds -> exists c t, ds = c :: t /\ is_digit c = true.
Proof.
  intros [Hall [->|(c & t & -> & _)]]; eexists; eexists; (split; [reflexivity|]).
  - reflexivity.
  - cbn in Hall. now apply andb_true_iff in Hall as [? _].
Qed.

Lemma is_digit_not_minus (c : N) : is_digit c = true -> (c =? 45)%N = false.
Proof.
  unfold is_digit. intros H. apply andb_true_iff in H as [H _].
  apply N.leb_le in H. apply N.eqb_neq. lia.
Qed.

Lemma match_integer_int_repr (n : Z) (rest : pystr) :
  no_digit_ahead rest -> match_integer (int_repr n ++ rest) = Some (int_repr n, rest).
Proof.
  intros Hrest. destruct (int_repr_shape n) as (ds & Hds & [-> | ->]).
  - destruct (decimal_head _ Hds) as (c & t & -> & Hc).
    unfold match_integer. cbn [app]. rewrite (is_digit_not_minus _ Hc).
    exact (match_digits_decimal (c :: t) rest Hds Hrest).
  - cbn [app match_integer]. cbn [N.eqb Pos.eqb].
    now rewrite (match_digits_decimal _ _ Hds Hrest).
Qed.

Lemma int_of_literal_repr (n : Z) : int_of_literal (int_repr n) = n.
Proof.
  rewrite <- (DecimalZ.of_to n) at 2. unfold int_repr.
  destruct (Z.to_int n) as [u|u] eqn:E.
  - unfold int_of_literal.
    destruct (digits_of_uint u) as [|c t] eqn:Eu.
    + destruct u; try discriminate Eu. reflexivity.
    + assert (Hc : is_digit c = true).
      { pose proof (digits_of_uint_digits u) as H. rewrite Eu in H. cbn in H.
        now apply andb_true_iff in H as [? _]. }
      rewrite (is_digit_not_minus _ Hc), <- Eu. now rewrite uint_of_digits_of_uint.
  - cbn [int_of_literal]. cbn [N.eqb Pos.eqb]. now rewrite uint_of_digits_of_uint.
Qed.

(** ** Values *)

Lemma value_nested_ind (P : value -> Prop) :
  P VNone -> (forall b, P (VBool b)) -> (forall n, P (VInt n)) ->
  (forall x, P (VFloat x)) -> (forall s, P (VStr s)) ->
  (forall l, Forall P l -> P (VList l)) ->
  (forall d, Forall (fun kv => P (snd kv)) d -> P (VDict d)) ->
  forall v, P v.
Proof.
  intros HN HB HI HF HS HL HD.
  fix IH 1. intros [| b | n | x | s | l | d].
  - exact HN.
  - apply HB.
  - apply HI.
  - apply HF.
  - apply HS.
  - apply HL. induction l as [|v l IHl]; constructor; [apply IH | exact IHl].
  - apply HD. induction d as [|[k v] d IHd]; constructor; [apply IH | exact IHd].
Qed.

(** Every string of a value, keys included, satisfies [p]. *)
Fixpoint all_strings (p : pystr -> bool) (v : value) : bool :=
  match v with
  | VStr s => p s
  | VList l => forallb (all_strings p) l
  | VDict d => forallb (fun kv => p (fst kv) && all_strings p (snd kv)) d
  | _ => true
  end.

(** A nan of the value is [float('nan')]. *)
Fixpoint floats_plain (v : value) : Prop :=
  match v with
  | VFloat x => float_class_of x = FNan -> x = float_nan
  | VList l => (fix all (l : list value) : Prop :=
                  match l with
                  | [] => True
                  | v :: l' => floats_plain v /\ all l'
                  end) l
  | VDict d => (fix all (d : list (pystr * value)) : Prop :=
                  match d with
                  | [] => True
                  | kv :: d' => floats_plain (snd kv) /\ all d'
                  end) d
  | _ => True
  end.

(** The keys of every dict of the value are distinct. *)
Fixpoint keys_distinct (v : value) : Prop :=
  match v with
  | VList l => (fix all (l : list value) : Prop :=
                  match l with
                  | [] => True
                  | v :: l' => keys_distinct v /\ all l'
                  end) l
  | VDict d => NoDup (map fst d)
               /\ (fix all (d : list (pystr * value)) : Prop :=
                     match d with
                     | [] => True
                     | kv :: d' => keys_distinct (snd kv) /\ all d'
                     end) d
  | _ => True
  end.

(** What every value built by the decoder from a [str] satisfies. *)
Definition decoded (v : value) : Prop :=
  all_strings (forallb valid_char) v = true /\ floats_plain v /\ keys_distinct v.

Lemma floats_plain_list (l : list value) :
  floats_plain (VList l) <-> Forall floats_plain l.
Proof.
  induction l as [|v l IH].
  - split; [constructor | intros _; exact I].
  - change (floats_plain (VList (v :: l)))
      with (floats_plain v /\ floats_plain (VList l)).
    rewrite IH. split; [intros [? ?]; now constructor|].
    intros H. inversion H; auto.
Qed.

Lemma floats_plain_dict (d : pydict) :
  floats_plain (VDict d) <-> Forall (fun kv => floats_plain (snd kv)) d.
Proof.
  induction d as [|kv d IH].
  - split; [constructor | intros _; exact I].
  - change (floats_plain (VDict (kv :: d)))
      with (floats_plain (snd kv) /\ floats_plain (VDict d)).
    rewrite IH. split; [intros [? ?]; now constructor|].
    intros H. inversion H; auto.
Qed.

Lemma keys_distinct_list (l : list value) :
  keys_distinct (VList l) <-> Forall keys_distinct l.
Proof.
  induction l as [|v l IH].
  - split; [constructor | intros _; exact I].
  - change (keys_distinct (VList (v :: l)))
      with (keys_distinct v /\ keys_distinct (VList l)).
    rewrite IH. split; [intros [? ?]; now constructor|].
    intros H. inversion H; auto.
Qed.

Lemma keys_distinct_dict (d : pydict) :
  keys_distinct (VDict d)
  <-> NoDup (map fst d) /\ Forall (fun kv => keys_distinct (snd kv)) d.
Proof.
  assert (H : (fix all (d : list (pystr * value)) : Prop :=
                 match d with
                 | [] => True
                 | kv :: d' => keys_distinct (snd kv) /\ all d'
                 end) d
              <-> Forall (fun kv => keys_distinct (snd kv)) d).
  { induction d as [|kv d IH].
    - split; [constructor | intros _; exact I].
    - rewrite Forall_cons_iff, <- IH. reflexivity. }
  cbn [keys_distinct]. now rewrite H.
Qed.

Lemma decoded_list (l : list value) : decoded (VList l) <-> Forall decoded l.
Proof.
  unfold decoded. rewrite floats_plain_list, keys_distinct_list. cbn [all_strings].
  rewrite forallb_forall, !Forall_forall. split.
  - intros (H1 & H2 & H3) v Hv. auto.
  - intros H. repeat split; intros v Hv; now apply H.
Qed.

Lemma decoded_dict (d : pydict) :
  decoded (VDict d)
  <-> NoDup (map fst d)
      /\ Forall (fun kv => forallb valid_char (fst kv) = true /\ decoded (snd kv)) d.
Proof.
  unfold decoded. rewrite floats_plain_dict, keys_distinct_dict. cbn [all_strings].
  rewrite forallb_forall, !Forall_forall. split.
  - intros (H1 & H2 & H3 & H4). split; [assumption|]. intros kv Hkv.
    specialize (H1 kv Hkv). apply andb_true_iff in H1 as [? ?]. auto.
  - intros [Hn H]. repeat split; try assumption; intros kv Hkv;
      destruct (H kv Hkv) as (? & ? & ? & ?); auto.
    now apply andb_true_iff.
Qed.

(** ** What the decoder builds *)

Definition valid (s : pystr) : Prop := forallb valid_char s = true.

(** [rest] is what is left of [s] after reading some of it, or none: it
    is no longer, and what holds of every character of [s] holds of every
    character of [rest]. *)
Definition within (s rest : pystr) : Prop :=
  (length rest <= length s)%nat
  /\ (forall p, forallb p s = true -> forallb p rest = true).

(** The same, after reading at least one character. *)
Definition inside (s rest : pystr) : Prop :=
  (length rest < length s)%nat
  /\ (forall p, forallb p s = true -> forallb p rest = true).

Lemma within_refl (s : pystr) : within s s.
Proof. split; auto. Qed.

Lemma inside_within (s rest : pystr) : inside s rest -> within s rest.
Proof. intros [H1 H2]. split; [lia|assumption]. Qed.

Lemma inside_cons (c : N) (s rest : pystr) : within s rest -> inside (c :: s) rest.
Proof.
  intros [H1 H2]. split; [cbn; lia|]. intros p H. apply H2.
  cbn in H. now apply andb_true_iff in H as [_ ?].
Qed.

Lemma inside_valid (s rest : pystr) : inside s rest -> valid s -> valid rest.
Proof. intros [_ H]. apply H. Qed.

Lemma within_valid (s rest : pystr) : within s rest -> valid s -> valid rest.
Proof. intros [_ H]. apply H. Qed.

Lemma inside_length (s rest : pystr) : inside s rest -> (length rest < length s)%nat.
Proof. now intros [H _]. Qed.

Lemma inside_drop (pre s rest : pystr) : inside s rest -> inside (pre ++ s) rest.
Proof.
  intros [H1 H2]. split; [rewrite length_app; lia|].
  intros p H. apply H2. rewrite forallb_app in H.
  now apply andb_true_iff in H as [_ ?].
Qed.

Lemma valid_drop (pre s : pystr) : valid (pre ++ s) -> valid s.
Proof.
  unfold valid. rewrite forallb_app. intros H. now apply andb_true_iff in H as [_ ?].
Qed.

Lemma inside_trans (s a b : pystr) : inside s a -> within a b -> inside s b.
Proof. intros [H1 H2] [H3 H4]. split; [lia|auto]. Qed.

Lemma within_inside (s a b : pystr) : within s a -> inside a b -> inside s b.
Proof. intros [H1 H2] [H3 H4]. split; [lia|auto]. Qed.

Lemma within_trans (s a b : pystr) : within s a -> within a b -> within s b.
Proof. intros [H1 H2] [H3 H4]. split; [lia|auto]. Qed.

Lemma within_skip_ws (s : pystr) : within s (skip_ws s).
Proof.
  induction s as [|c s IH]; [apply within_refl|]. cbn [skip_ws].
  destruct (json_ws c); [|apply within_refl].
  apply inside_within, inside_cons, IH.
Qed.

Lemma valid_cons (c : N) (s : pystr) : valid (c :: s) <-> valid_char c = true /\ valid s.
Proof. unfold valid. cbn. apply andb_true_iff. Qed.

Lemma valid_app (a b : pystr) : valid (a ++ b) <-> valid a /\ valid b.
Proof. unfold valid. rewrite forallb_app. apply andb_true_iff. Qed.

Lemma hex_value_bound (c x : N) : hex_value c = Some x -> (x < 16)%N.
Proof.
  unfold hex_value, is_digit.
  destruct ((48 <=? c) && (c <=? 57))%N eqn:E1.
  { apply andb_true_iff in E1 as [H1 H2]. apply N.leb_le in H1, H2.
    intros [= <-]. lia. }
  destruct ((97 <=? c) && (c <=? 102))%N eqn:E2.
  { apply andb_true_iff in E2 as [H1 H2]. apply N.leb_le in H1, H2.
    intros [= <-]. lia. }
  destruct ((65 <=? c) && (c <=? 70))%N eqn:E3; [|discriminate].
  apply andb_true_iff in E3 as [H1 H2]. apply N.leb_le in H1, H2.
  intros [= <-]. lia.
Qed.

Lemma hex4_bound (a b c d n : N) : hex4 a b c d = Some n -> (n < 0x10000)%N.
Proof.
  unfold hex4.
  destruct (hex_value a) as [x|] eqn:Ea; [|discriminate].
  destruct (hex_value b) as [y|] eqn:Eb; [|discriminate].
  destruct (hex_value c) as [z|] eqn:Ec; [|discriminate].
  destruct (hex_value d) as [w|] eqn:Ed; [|discriminate].
  apply hex_value_bound in Ea, Eb, Ec, Ed. intros [= <-]. lia.
Qed.

Lemma unescape_bound (c ch : N) : unescape c = Some ch -> valid_char ch = true.
Proof.
  unfold unescape.
  repeat match goal with
         | |- context [if ?b then _ else _] => destruct b; [now intros [= <-]|]
         end.
  discriminate.
Qed.

Lemma join_surrogates_valid (hi lo : N) :
  is_high_surrogate hi = true -> is_low_surrogate lo = true ->
  valid_char (join_surrogates hi lo) = true.
Proof.
  unfold is_high_surrogate, is_low_surrogate, join_surrogates, valid_char.
  intros [H1 H2]%andb_true_iff [H3 H4]%andb_true_iff.
  apply N.leb_le in H1, H2, H3, H4. apply N.ltb_lt. lia.
Qed.

Lemma scanstring_eq (s : pystr) :
  scanstring s
  = match s with
    | [] => Raise JSONDecodeError
    | c :: s1 =>
        if (c =? 34)%N then Ok ([], s1)
        else if (c =? 92)%N then
          match s1 with
          | [] => Raise JSONDecodeError
          | esc :: s2 =>
              if (esc =? 117)%N then
                match s2 with
                | h1 :: h2 :: h3 :: h4 :: s3 =>
                    match hex4 h1 h2 h3 h4 with
                    | None => Raise JSONDecodeError
                    | Some uni => pair_lookahead scanstring uni s3
                    end
                | _ => Raise JSONDecodeError
                end
              else
                match unescape esc with
                | None => Raise JSONDecodeError
                | Some ch => '(chars, rest) <- scanstring s2 ;; Ok (ch :: chars, rest)
                end
          end
        else if (c <? 32)%N then Raise JSONDecodeError
        else '(chars, rest) <- scanstring s1 ;; Ok (c :: chars, rest)
    end.
Proof. destruct s as [|c [|esc [|h1 [|h2 [|h3 [|h4 s3]]]]]]; reflexivity. Qed.

(** A reader of strings that consumes what it reads and builds valid
    strings from valid text, on texts of length at most [n]. *)
Definition reads_strings (scan : pystr -> result (pystr * pystr)) (n : nat) : Prop :=
  forall s chars rest, (length s <= n)%nat -> scan s = Ok (chars, rest) ->
    inside s rest /\ (valid s -> valid chars).

Lemma bind_cons_inv (scan : pystr -> result (pystr * pystr)) (n : nat) (c : N)
  (s chars rest : pystr) :
  reads_strings scan n -> (length s <= n)%nat ->
  ('(chars', rest') <- scan s ;; Ok (c :: chars', rest')) = Ok (chars, rest) ->
  inside s rest /\ (valid s -> valid_char c = true -> valid chars).
Proof.
  intros Hscan Hlen. destruct (scan s) as [[chars' rest']|] eqn:E; [|discriminate].
  cbn. intros [= <- <-]. destruct (Hscan _ _ _ Hlen E) as [Hin Hv].
  split; [assumption|]. intros Hs Hc. apply valid_cons. auto.
Qed.

Lemma pair_lookahead_inv (scan : pystr -> result (pystr * pystr)) (uni : N)
  (s3 chars rest : pystr) :
  reads_strings scan (length s3) -> (uni < 0x10000)%N ->
  pair_lookahead scan uni s3 = Ok (chars, rest) ->
  inside s3 rest /\ (valid s3 -> valid chars).
Proof.
  intros Hscan Huni. unfold pair_lookahead.
  assert (Hv : valid_char uni = true) by (apply N.ltb_lt; lia).
  assert (Hsingle : ('(chars', rest') <- scan s3 ;; Ok (uni :: chars', rest'))
                    = Ok (chars, rest) ->
                    inside s3 rest /\ (valid s3 -> valid chars)).
  { intros H. destruct (bind_cons_inv _ _ _ _ _ _ Hscan (Nat.le_refl _) H) as [H1 H2].
    auto. }
  destruct (is_high_surrogate uni) eqn:Hh; [|exact Hsingle].
  destruct s3 as [|b [|u [|k1 [|k2 [|k3 [|k4 s4]]]]]]; try exact Hsingle.
  destruct ((b =? 92) && (u =? 117))%N; [|exact Hsingle].
  destruct (hex4 k1 k2 k3 k4) as [uni2|]; [|discriminate].
  destruct (is_low_surrogate uni2) eqn:Hl; [|exact Hsingle].
  intros H.
  assert (Hscan' : reads_strings scan (length s4)).
  { intros s c r Hlen. apply Hscan. cbn. lia. }
  destruct (bind_cons_inv _ _ _ _ _ _ Hscan' (Nat.le_refl _) H) as [Hin H3].
  split.
  - exact (inside_drop [b; u; k1; k2; k3; k4] _ _ Hin).
  - intros Hs. apply H3; [|now apply join_surrogates_valid].
    exact (valid_drop [b; u; k1; k2; k3; k4] _ Hs).
Qed.

Lemma scanstring_reads (n : nat) : reads_strings scanstring n.
Proof.
  induction n as [n IH] using lt_wf_ind. intros s chars rest Hlen.
  rewrite scanstring_eq. destruct s as [|c s1]; [discriminate|].
  destruct (c =? 34)%N.
  { intros [= <- <-]. split; [apply inside_cons, within_refl|reflexivity]. }
  assert (Hsmaller : forall k, (k < length (c :: s1))%nat -> reads_strings scanstring k).
  { intros k Hk. apply IH. lia. }
  destruct (c =? 92)%N.
  - destruct s1 as [|esc s2]; [discriminate|].
    destruct (esc =? 117)%N.
    + destruct s2 as [|h1 [|h2 [|h3 [|h4 s3]]]]; try discriminate.
      destruct (hex4 h1 h2 h3 h4) as [uni|] eqn:Eh; [|discriminate].
      intros H. apply pair_lookahead_inv in H.
      * destruct H as [Hin H3]. split.
        -- exact (inside_drop [c; esc; h1; h2; h3; h4] _ _ Hin).
        -- intros Hs. apply H3.
           exact (valid_drop [c; esc; h1; h2; h3; h4] _ Hs).
      * apply Hsmaller. cbn. lia.
      * now apply hex4_bound in Eh.
    + destruct (unescape esc) as [ch|] eqn:Eu; [|discriminate].
      intros H.
      assert (Hr : reads_strings scanstring (length s2)) by (apply Hsmaller; cbn; lia).
      destruct (bind_cons_inv _ _ _ _ _ _ Hr (Nat.le_refl _) H) as [Hin H3].
      split.
      * exact (inside_drop [c; esc] _ _ Hin).
      * intros Hs. apply H3; [|now apply unescape_bound in Eu].
        exact (valid_drop [c; esc] _ Hs).
  - destruct (c <? 32)%N; [discriminate|]. intros H.
    assert (Hr : reads_strings scanstring (length s1)) by (apply Hsmaller; cbn; lia).
    destruct (bind_cons_inv _ _ _ _ _ _ Hr (Nat.le_refl _) H) as [Hin H3].
    split.
    + exact (inside_drop [c] _ _ Hin).
    + intros Hs. apply valid_cons in Hs as [Hc Hs]. auto.
Qed.

Lemma scanstring_inv (s chars rest : pystr) :
  scanstring s = Ok (chars, rest) -> inside s rest /\ (valid s -> valid chars).
Proof. intros H. exact (scanstring_reads (length s) s chars rest (Nat.le_refl _) H). Qed.

(** [scanstring] fails with a [JSONDecodeError] only. *)
Lemma scanstring_error (s : pystr) (e : exn) :
  scanstring s = Raise e -> e = JSONDecodeError.
Proof.
  remember (length s) as n eqn:Hn. revert s Hn.
  induction n as [n IH] using lt_wf_ind. intros s ->.
  assert (Hbind : forall (c : N) (s' : pystr),
    (length s' < length s)%nat ->
    ('(chars, rest) <- scanstring s' ;; Ok (c :: chars, rest)) = Raise e ->
    e = JSONDecodeError).
  { intros c s' Hlen. destruct (scanstring s') as [[? ?]|e'] eqn:E; [discriminate|].
    cbn. intros [= <-]. now apply (IH (length s') Hlen s'). }
  rewrite scanstring_eq. destruct s as [|c s1]; [now intros [= <-]|].
  destruct (c =? 34)%N; [discriminate|].
  destruct (c =? 92)%N.
  - destruct s1 as [|esc s2]; [now intros [= <-]|].
    destruct (esc =? 117)%N.
    + destruct s2 as [|h1 [|h2 [|h3 [|h4 s3]]]]; try (now intros [= <-]).
      destruct (hex4 h1 h2 h3 h4) as [uni|]; [|now intros [= <-]].
      unfold pair_lookahead.
      assert (Hsingle : ('(chars, rest) <- scanstring s3 ;; Ok (uni :: chars, rest))
                        = Raise e -> e = JSONDecodeError)
        by (apply Hbind; cbn; lia).
      destruct (is_high_surrogate uni); [|exact Hsingle].
      destruct s3 as [|b [|u [|k1 [|k2 [|k3 [|k4 s4]]]]]]; try exact Hsingle.
      destruct ((b =? 92) && (u =? 117))%N; [|exact Hsingle].
      destruct (hex4 k1 k2 k3 k4) as [uni2|]; [|now intros [= <-]].
      destruct (is_low_surrogate uni2); [|exact Hsingle].
      apply Hbind. cbn. lia.
    + destruct (unescape esc); [|now intros [= <-]]. apply Hbind. cbn. lia.
  - destruct (c <? 32)%N; [now intros [= <-]|]. apply Hbind. cbn. lia.
Qed.

(** A reader of values that consumes what it reads and builds decoded
    values from valid text. *)
Definition reads_values (scan : pystr -> result (value * pystr)) : Prop :=
  forall s v rest, scan s = Ok (v, rest) ->
    inside s rest /\ (FloatLaws rt -> valid s -> decoded v).

Lemma decoded_atom (v : value) :
  match v with
  | VNone | VBool _ | VInt _ => True
  | _ => False
  end -> decoded v.
Proof. destruct v; intros []; repeat split. Qed.

Lemma dict_set_keys (d : pydict) (k k' : pystr) (v : value) :
  In k' (map fst (dict_set d k v)) -> In k' (map fst d) \/ k' = k.
Proof.
  induction d as [|[k0 v0] d IH]; cbn [dict_set].
  - cbn. intros [<-|[]]. now right.
  - destruct (str_eqb k k0); cbn; [tauto|].
    intros [<-|H]; [tauto|]. destruct (IH H); tauto.
Qed.

Lemma dict_set_nodup (d : pydict) (k : pystr) (v : value) :
  NoDup (map fst d) -> NoDup (map fst (dict_set d k v)).
Proof.
  induction d as [|[k0 v0] d IH]; cbn [dict_set]; intros Hnd.
  - cbn. constructor; [intros []|constructor].
  - destruct (str_eqb k k0) eqn:E; [exact Hnd|].
    cbn in *. inversion Hnd as [|? ? Hnot Hnd']; subst. constructor; [|now apply IH].
    intros H. apply dict_set_keys in H as [H| ->]; [now apply Hnot|].
    assert (str_eqb k k = true) by now apply str_eqb_eq. congruence.
Qed.

Lemma dict_set_forall (P : pystr * value -> Prop) (d : pydict) (k : pystr) (v : value) :
  Forall P d -> P (k, v) -> Forall P (dict_set d k v).
Proof.
  intros Hd Hv. induction d as [|[k0 v0] d IH]; cbn [dict_set].
  - constructor; [apply Hv|constructor].
  - inversion Hd; subst. destruct (str_eqb k k0) eqn:E.
    + constructor; [|assumption].
      apply str_eqb_eq in E. subst. apply Hv.
    + constructor; [assumption|now apply IH].
Qed.

Lemma decoded_dict_set (d : pydict) (k : pystr) (v : value) :
  decoded (VDict d) -> valid k -> decoded v -> decoded (VDict (dict_set d k v)).
Proof.
  rewrite !decoded_dict. intros [Hnd Hall] Hk Hv. split.
  - now apply dict_set_nodup.
  - induction d as [|[k0 v0] d IH]; cbn [dict_set].
    + constructor; [now split|constructor].
    + inversion Hall as [|? ? [Hk0 Hv0] Hall']; subst.
      inversion Hnd; subst.
      destruct (str_eqb k k0) eqn:E.
      * constructor; [now split|assumption].
      * constructor; [now split|now apply IH].
Qed.

Lemma decoded_snoc (acc : list value) (v : value) :
  Forall decoded acc -> decoded v -> decoded (VList (acc ++ [v])).
Proof.
  intros Hacc Hv. apply decoded_list. apply Forall_app. split; [assumption|].
  now constructor.
Qed.

Lemma inside_skip_ws_cons (s s1 s2 : pystr) (c : N) :
  inside s s1 -> skip_ws s1 = c :: s2 -> inside s (c :: s2) /\ inside s s2.
Proof.
  intros H E.
  assert (H1 : inside s (c :: s2)).
  { apply inside_trans with s1; [assumption|]. rewrite <- E. apply within_skip_ws. }
  split; [assumption|].
  apply inside_trans with (c :: s2); [assumption|].
  apply inside_within, inside_cons, within_refl.
Qed.

Lemma JSONArray_loop_inv (scan : pystr -> result (value * pystr)) :
  reads_values scan ->
  forall fuel acc s v rest,
    JSONArray_loop scan fuel acc s = Ok (v, rest) ->
    inside s rest /\ (FloatLaws rt -> valid s -> Forall decoded acc -> decoded v).
Proof.
  intros Hscan. induction fuel as [|fuel IH]; intros acc s v rest; [discriminate|].
  cbn [JSONArray_loop]. destruct (scan s) as [[v1 s1]|] eqn:E; [|discriminate].
  cbn [bind]. destruct (Hscan _ _ _ E) as [Hin Hdec].
  destruct (skip_ws s1) as [|c s2] eqn:Ews; [discriminate|].
  destruct (inside_skip_ws_cons _ _ _ _ Hin Ews) as [_ Hin2].
  destruct (c =? 93)%N.
  - intros [= <- <-]. split; [assumption|]. intros L Hs Hacc.
    apply decoded_snoc; auto.
  - destruct (c =? 44)%N; [|discriminate]. intros H.
    apply IH in H as [Hin3 Hdec3].
    assert (Hin4 : inside s (skip_ws s2)).
    { apply inside_trans with s2; [assumption|apply within_skip_ws]. }
    split.
    + apply inside_trans with (skip_ws s2); [assumption|now apply inside_within].
    + intros L Hs Hacc. apply Hdec3; [assumption| |].
      * now apply Hin4.
      * apply Forall_app. split; [assumption|]. constructor; [auto|constructor].
Qed.

Lemma JSONObject_loop_inv (scan : pystr -> result (value * pystr)) :
  reads_values scan ->
  forall fuel pairs s v rest,
    JSONObject_loop scan fuel pairs s = Ok (v, rest) ->
    inside s rest /\ (FloatLaws rt -> valid s -> decoded (VDict pairs) -> decoded v).
Proof.
  intros Hscan. induction fuel as [|fuel IH]; intros pairs s v rest; [discriminate|].
  cbn [JSONObject_loop].
  destruct (scanstring s) as [[key s1]|] eqn:Ekey; [|discriminate].
  cbn [bind]. destruct (scanstring_inv _ _ _ Ekey) as [Hin1 Hkey].
  destruct (skip_ws s1) as [|c s2] eqn:Ews1; [discriminate|].
  destruct (inside_skip_ws_cons _ _ _ _ Hin1 Ews1) as [_ Hin2].
  destruct (c =? 58)%N; [|discriminate].
  destruct (scan (skip_ws s2)) as [[v1 s3]|] eqn:Eval; [|discriminate].
  cbn [bind]. destruct (Hscan _ _ _ Eval) as [Hin3 Hdec].
  assert (Hin3' : inside s s3).
  { apply inside_trans with s2; [assumption|].
    apply within_trans with (skip_ws s2); [apply within_skip_ws|].
    now apply inside_within. }
  assert (Hv1 : FloatLaws rt -> valid s -> decoded v1).
  { intros L Hs. apply Hdec; [assumption|].
    assert (Hw : within s (skip_ws s2)).
    { apply within_trans with s2; [now apply inside_within|apply within_skip_ws]. }
    now apply Hw. }
  destruct (skip_ws s3) as [|c' s4] eqn:Ews3; [discriminate|].
  destruct (inside_skip_ws_cons _ _ _ _ Hin3' Ews3) as [_ Hin4].
  destruct (c' =? 125)%N.
  - intros [= <- <-]. split; [assumption|]. intros L Hs Hpairs.
    apply decoded_dict_set; auto.
  - destruct (c' =? 44)%N; [|discriminate].
    destruct (skip_ws s4) as [|q s5] eqn:Ews4; [discriminate|].
    destruct (inside_skip_ws_cons _ _ _ _ Hin4 Ews4) as [_ Hin5].
    destruct (q =? 34)%N; [|discriminate]. intros H.
    apply IH in H as [Hin6 Hdec6]. split.
    + apply inside_trans with s5; [assumption|now apply inside_within].
    + intros L Hs Hpairs. apply Hdec6; [assumption| |].
      * now apply Hin5.
      * apply decoded_dict_set; auto.
Qed.

Lemma strip_prefix_inv (p s rest : pystr) : strip_prefix p s = Some rest -> s = p ++ rest.
Proof.
  revert s. induction p as [|x p IH]; intros s; cbn [strip_prefix].
  - now intros [= ->].
  - destruct s as [|y s]; [discriminate|].
    destruct (N.eqb_spec x y) as [->|_]; [|discriminate].
    intros H. cbn. f_equal. now apply IH.
Qed.

Lemma inside_app (p rest : pystr) : p <> [] -> inside (p ++ rest) rest.
Proof.
  intros Hp. split.
  - rewrite length_app. destruct p; [now destruct Hp|cbn; lia].
  - intros q H. rewrite forallb_app in H. now apply andb_true_iff in H as [_ ?].
Qed.

Lemma strip_prefix_inside (p s rest : pystr) :
  p <> [] -> strip_prefix p s = Some rest -> inside s rest.
Proof. intros Hp H. apply strip_prefix_inv in H. subst. now apply inside_app. Qed.

Lemma match_integer_nonempty (s i r : pystr) : match_integer s = Some (i, r) -> i <> [].
Proof.
  unfold match_integer. destruct s as [|c t]; [discriminate|].
  destruct (c =? 45)%N.
  - destruct (match_digits t) as [[ds r']|]; [|discriminate]. now intros [= <- <-].
  - unfold match_digits. destruct ((49 <=? c) && (c <=? 57))%N.
    + destruct (span is_digit t). now intros [= <- <-].
    + destruct (c =? 48)%N; [|discriminate]. now intros [= <- <-].
Qed.

Lemma match_number_inside (s i f e rest : pystr) :
  match_number s = Some (i, f, e, rest) -> inside s rest.
Proof.
  intros H. pose proof (match_number_concat _ _ _ _ _ H) as E.
  assert (Hi : i <> []).
  { unfold match_number in H.
    destruct (match_integer s) as [[i' s2]|] eqn:Ei; [|discriminate].
    destruct (match_frac s2) as [f' s3]. destruct (match_exp s3) as [e' s4].
    injection H as <- _ _ _. now apply match_integer_nonempty in Ei. }
  rewrite E, !app_assoc. apply inside_app.
  intros Hnil. apply app_eq_nil in Hnil as [Hnil _].
  apply app_eq_nil in Hnil as [Hnil _]. now destruct Hi.
Qed.

Lemma decoded_float_const (x : pyfloat) :
  FloatLaws rt ->
  x = float_nan \/ x = float_inf \/ x = float_neg_inf -> decoded (VFloat x).
Proof.
  intros L H. repeat split. cbn. intros Hc.
  destruct H as [->|[->| ->]]; [reflexivity| |].
  - rewrite inf_class in Hc. discriminate.
  - rewrite neg_inf_class in Hc. discriminate.
Qed.

Lemma scan_once_inv (fuel : nat) : reads_values (scan_once fuel).
Proof.
  induction fuel as [|fuel IH]; intros s v rest; [discriminate|].
  cbn [scan_once]. destruct s as [|c s']; [discriminate|].
  destruct (c =? 34)%N.
  { destruct (scanstring s') as [[chars r]|] eqn:E; [|discriminate].
    cbn [bind]. intros [= <- <-]. destruct (scanstring_inv _ _ _ E) as [Hin Hv].
    split; [now apply inside_cons, inside_within|].
    intros _ Hs. apply valid_cons in Hs as [_ Hs]. repeat split. now apply Hv. }
  destruct (c =? 123)%N.
  { unfold JSONObject. destruct (skip_ws s') as [|c1 s1] eqn:Ews; [discriminate|].
    assert (Hw : within s' (c1 :: s1)) by (rewrite <- Ews; apply within_skip_ws).
    assert (Hin1 : inside (c :: s') s1).
    { apply inside_cons. apply within_trans with (c1 :: s1); [assumption|].
      apply inside_within, inside_cons, within_refl. }
    destruct (c1 =? 125)%N.
    - intros [= <- <-]. split; [assumption|]. intros _ _. repeat split. constructor.
    - destruct (c1 =? 34)%N; [|discriminate]. intros H.
      apply (JSONObject_loop_inv _ IH) in H as [Hin Hdec]. split.
      + apply inside_trans with s1; [assumption|now apply inside_within].
      + intros L Hs. apply Hdec; [assumption|now apply Hin1|].
        repeat split. constructor. }
  destruct (c =? 91)%N.
  { unfold JSONArray. destruct (skip_ws s') as [|c1 s1] eqn:Ews; [discriminate|].
    assert (Hw : within s' (c1 :: s1)) by (rewrite <- Ews; apply within_skip_ws).
    destruct (c1 =? 93)%N.
    - intros [= <- <-]. split.
      + apply inside_cons. apply within_trans with (c1 :: s1); [assumption|].
        apply inside_within, inside_cons, within_refl.
      + intros _ _. repeat split.
    - intros H. apply (JSONArray_loop_inv _ IH) in H as [Hin Hdec]. split.
      + apply inside_cons. apply within_trans with (c1 :: s1); [assumption|].
        now apply inside_within.
      + intros L Hs. apply Hdec; [assumption| |constructor].
        apply Hw. now apply valid_cons in Hs as [_ Hs]. }
  destruct (strip_prefix (str "null") (c :: s')) as [r|] eqn:E1.
  { intros [= <- <-]. split; [|intros _ _; now apply decoded_atom].
    now apply (strip_prefix_inside (str "null")). }
  destruct (strip_prefix (str "true") (c :: s')) as [r|] eqn:E2.
  { intros [= <- <-]. split; [|intros _ _; now apply decoded_atom].
    now apply (strip_prefix_inside (str "true")). }
  destruct (strip_prefix (str "false") (c :: s')) as [r|] eqn:E3.
  { intros [= <- <-]. split; [|intros _ _; now apply decoded_atom].
    now apply (strip_prefix_inside (str "false")). }
  destruct (match_number (c :: s')) as [[[[i f] e] r]|] eqn:Em.
  { pose proof (match_number_inside _ _ _ _ _ Em) as Hin.
    destruct (float_of_str (i ++ f ++ e)) as [x|] eqn:Ex;
      (destruct (f ++ e) eqn:Efe; [|try discriminate]);
      try (intros [= <- <-]; split; [assumption|]; intros _ _; now apply decoded_atom).
    - cbn [bind]. intros [= <- <-]. split; [assumption|]. intros L _.
      repeat split. cbn. intros Hc.
      rewrite <- Efe in Ex.
      now destruct (literal_not_nan _ _ _ _ _ _ Em Ex). }
  destruct (strip_prefix (str "NaN") (c :: s')) as [r|] eqn:E4.
  { intros [= <- <-]. split; [|intros L _; apply decoded_float_const; auto].
    now apply (strip_prefix_inside (str "NaN")). }
  destruct (strip_prefix (str "Infinity") (c :: s')) as [r|] eqn:E5.
  { intros [= <- <-]. split; [|intros L _; apply decoded_float_const; auto].
    now apply (strip_prefix_inside (str "Infinity")). }
  destruct (strip_prefix (str "-Infinity") (c :: s')) as [r|] eqn:E6; [|discriminate].
  intros [= <- <-]. split; [|intros L _; apply decoded_float_const; auto].
  now apply (strip_prefix_inside (str "-Infinity")).
Qed.

(** ** Text with no surrogate

    From a text that holds no surrogate code point the decoder builds no
    string in which a high surrogate is followed at once by a low one: a
    surrogate of a string then comes from an escape, and a high surrogate
    escape followed by a low surrogate escape is read as one character. *)

Definition not_surrogate (c : N) : bool := negb ((0xD800 <=? c) && (c <=? 0xDFFF))%N.

Definition plain (s : pystr) : Prop := forallb not_surrogate s = true.

(** The text starts with the escape of a low surrogate. *)
Definition low_escape (s : pystr) : Prop :=
  exists k1 k2 k3 k4 s' u,
    s = 92%N :: 117%N :: k1 :: k2 :: k3 :: k4 :: s'
    /\ hex4 k1 k2 k3 k4 = Some u /\ is_low_surrogate u = true.

Definition starts_low (chars : pystr) : Prop :=
  match chars with
  | c :: _ => is_low_surrogate c = true
  | [] => False
  end.

Lemma plain_cons (c : N) (s : pystr) : plain (c :: s) <-> not_surrogate c = true /\ plain s.
Proof. unfold plain. cbn. apply andb_true_iff. Qed.

Lemma plain_drop (pre s : pystr) : plain (pre ++ s) -> plain s.
Proof.
  unfold plain. rewrite forallb_app. intros H. now apply andb_true_iff in H as [_ ?].
Qed.

Lemma inside_plain (s rest : pystr) : inside s rest -> plain s -> plain rest.
Proof. intros [_ H]. apply H. Qed.

Lemma within_plain (s rest : pystr) : within s rest -> plain s -> plain rest.
Proof. intros [_ H]. apply H. Qed.

Lemma no_split_pair_intro (c : N) (chars : pystr) :
  (is_high_surrogate c = true -> ~ starts_low chars) ->
  no_split_pair chars = true -> no_split_pair (c :: chars) = true.
Proof.
  intros Hc Hchars. cbn [no_split_pair]. rewrite Hchars, andb_true_r.
  destruct chars as [|lo t]; [reflexivity|].
  destruct (is_high_surrogate c); [|reflexivity].
  cbn in Hc. destruct (is_low_surrogate lo); [now destruct Hc|reflexivity].
Qed.

(** A character that is no surrogate is neither high nor low. *)
Lemma not_surrogate_high_low (c : N) :
  not_surrogate c = true -> is_high_surrogate c = false /\ is_low_surrogate c = false.
Proof.
  unfold not_surrogate, is_high_surrogate, is_low_surrogate. intros H.
  apply negb_true_iff, andb_false_iff in H.
  split; apply andb_false_iff;
    destruct H as [H|H]; apply N.leb_gt in H;
    try (left; apply N.leb_gt; lia); try (right; apply N.leb_gt; lia).
Qed.

Lemma unescape_not_surrogate (c ch : N) : unescape c = Some ch -> not_surrogate ch = true.
Proof.
  unfold unescape.
  repeat match goal with
         | |- context [if ?b then _ else _] => destruct b; [now intros [= <-]|]
         end.
  discriminate.
Qed.

Lemma join_surrogates_not_surrogate (hi lo : N) :
  not_surrogate (join_surrogates hi lo) = true.
Proof.
  unfold not_surrogate, join_surrogates. apply negb_true_iff, andb_false_iff.
  right. apply N.leb_gt. lia.
Qed.

(** What [scanstring] builds from a text with no surrogate, on texts of
    length at most [n]. *)
Definition reads_plain (n : nat) : Prop :=
  forall s chars rest, (length s <= n)%nat -> scanstring s = Ok (chars, rest) ->
    plain s -> no_split_pair chars = true /\ (starts_low chars -> low_escape s).

Lemma bind_cons_plain (n : nat) (c : N) (s chars rest : pystr) :
  reads_plain n -> (length s <= n)%nat -> plain s ->
  ('(chars', rest') <- scanstring s ;; Ok (c :: chars', rest')) = Ok (chars, rest) ->
  (is_high_surrogate c = true -> ~ low_escape s) ->
  no_split_pair chars = true /\ (starts_low chars -> is_low_surrogate c = true).
Proof.
  intros Hread Hlen Hs H Hc.
  destruct (scanstring s) as [[chars' rest']|] eqn:E; [|discriminate].
  cbn in H. injection H as <- <-.
  destruct (Hread _ _ _ Hlen E Hs) as [Hns Hlow]. split; [|now cbn].
  apply no_split_pair_intro; [|assumption].
  intros Hh Hst. now apply (Hc Hh), Hlow.
Qed.

Lemma scanstring_reads_plain (n : nat) : reads_plain n.
Proof.
  induction n as [n IH] using lt_wf_ind. intros s chars rest Hlen.
  rewrite scanstring_eq. destruct s as [|c s1]; [discriminate|].
  destruct (c =? 34)%N.
  { intros [= <- <-] _. split; [reflexivity|intros []]. }
  assert (Hsmaller : forall k, (k < length (c :: s1))%nat -> reads_plain k).
  { intros k Hk. apply IH. lia. }
  assert (Hnot : forall x s0, not_surrogate x = true ->
            (starts_low (x :: s0) -> low_escape (c :: s1))).
  { intros x s0 Hx Hst. cbn in Hst.
    destruct (not_surrogate_high_low _ Hx) as [_ Hl]. congruence. }
  destruct (c =? 92)%N eqn:Ec.
  - destruct s1 as [|esc s2]; [discriminate|].
    destruct (esc =? 117)%N eqn:Eesc.
    + destruct s2 as [|h1 [|h2 [|h3 [|h4 s3]]]]; try discriminate.
      destruct (hex4 h1 h2 h3 h4) as [uni|] eqn:Eh; [|discriminate].
      intros H Hs.
      assert (Hs3 : plain s3) by exact (plain_drop [c; esc; h1; h2; h3; h4] _ Hs).
      assert (Hr3 : reads_plain (length s3)) by (apply Hsmaller; cbn; lia).
      assert (Hesc : is_low_surrogate uni = true -> low_escape (c :: esc :: h1 :: h2 :: h3 :: h4 :: s3)).
      { intros Hl. apply N.eqb_eq in Ec, Eesc. subst c esc.
        exists h1, h2, h3, h4, s3, uni. auto. }
      assert (Hsingle : (is_high_surrogate uni = true -> ~ low_escape s3) ->
        ('(chars', rest') <- scanstring s3 ;; Ok (uni :: chars', rest')) = Ok (chars, rest) ->
        no_split_pair chars = true
        /\ (starts_low chars -> low_escape (c :: esc :: h1 :: h2 :: h3 :: h4 :: s3))).
      { intros Hc Hb.
        destruct (bind_cons_plain _ _ _ _ _ Hr3 (Nat.le_refl _) Hs3 Hb Hc) as [H1 H2].
        split; [assumption|]. intros Hst. apply Hesc, H2, Hst. }
      unfold pair_lookahead in H.
      destruct (is_high_surrogate uni) eqn:Hh; [|apply Hsingle; [discriminate|exact H]].
      destruct s3 as [|b [|u [|k1 [|k2 [|k3 [|k4 s4]]]]]];
        try (apply Hsingle; [|exact H];
             intros _ (? & ? & ? & ? & ? & ? & E & _); discriminate E).
      destruct ((b =? 92) && (u =? 117))%N eqn:Ebu.
      * destruct (hex4 k1 k2 k3 k4) as [uni2|] eqn:Eh2; [|discriminate].
        destruct (is_low_surrogate uni2) eqn:Hl2.
        -- assert (Hs4 : plain s4) by exact (plain_drop [b; u; k1; k2; k3; k4] _ Hs3).
           assert (Hr4 : reads_plain (length s4)) by (apply Hsmaller; cbn; lia).
           assert (Hj : not_surrogate (join_surrogates uni uni2) = true)
             by apply join_surrogates_not_surrogate.
           destruct (not_surrogate_high_low _ Hj) as [Hjh Hjl].
           destruct (bind_cons_plain _ _ _ _ _ Hr4 (Nat.le_refl _) Hs4 H) as [H1 H2];
             [congruence|].
           split; [assumption|]. intros Hst. apply H2 in Hst. congruence.
        -- apply Hsingle; [|exact H].
           intros _ (? & ? & ? & ? & ? & u' & E & Eu' & Hl').
           injection E as ? ? ? ? ? ? ?. subst. congruence.
      * apply Hsingle; [|exact H].
        intros _ (? & ? & ? & ? & ? & u' & E & _).
        injection E as ? ? ? ? ? ? ?. subst. discriminate Ebu.
    + destruct (unescape esc) as [ch|] eqn:Eu; [|discriminate]. intros H Hs.
      assert (Hs2 : plain s2) by exact (plain_drop [c; esc] _ Hs).
      assert (Hr2 : reads_plain (length s2)) by (apply Hsmaller; cbn; lia).
      pose proof (unescape_not_surrogate _ _ Eu) as Hch.
      destruct (not_surrogate_high_low _ Hch) as [Hh Hl].
      destruct (bind_cons_plain _ _ _ _ _ Hr2 (Nat.le_refl _) Hs2 H) as [H1 H2];
        [congruence|].
      split; [assumption|]. intros Hst. apply H2 in Hst. congruence.
  - destruct (c <? 32)%N; [discriminate|]. intros H Hs.
    apply plain_cons in Hs as [Hc Hs1].
    assert (Hr1 : reads_plain (length s1)) by (apply Hsmaller; cbn; lia).
    destruct (not_surrogate_high_low _ Hc) as [Hh Hl].
    destruct (bind_cons_plain _ _ _ _ _ Hr1 (Nat.le_refl _) Hs1 H) as [H1 H2];
      [congruence|].
    split; [assumption|]. intros Hst. apply H2 in Hst. congruence.
Qed.

Lemma scanstring_no_split (s chars rest : pystr) :
  scanstring s = Ok (chars, rest) -> plain s -> no_split_pair chars = true.
Proof.
  intros H Hs. exact (proj1 (scanstring_reads_plain (length s) s chars rest (Nat.le_refl _) H Hs)).
Qed.

(** A reader of values that builds, from a text with no surrogate, values
    with no split pair. *)
Definition reads_whole (scan : pystr -> result (value * pystr)) : Prop :=
  forall s v rest, scan s = Ok (v, rest) -> plain s ->
    all_strings no_split_pair v = true.

Lemma JSONArray_loop_whole (scan : pystr -> result (value * pystr)) :
  reads_values scan -> reads_whole scan ->
  forall fuel acc s v rest,
    JSONArray_loop scan fuel acc s = Ok (v, rest) -> plain s ->
    forallb (all_strings no_split_pair) acc = true ->
    all_strings no_split_pair v = true.
Proof.
  intros Hscan Hwhole. induction fuel as [|fuel IH]; intros acc s v rest; [discriminate|].
  cbn [JSONArray_loop]. destruct (scan s) as [[v1 s1]|] eqn:E; [|discriminate].
  cbn [bind]. destruct (Hscan _ _ _ E) as [Hin _].
  destruct (skip_ws s1) as [|c s2] eqn:Ews; [discriminate|].
  destruct (inside_skip_ws_cons _ _ _ _ Hin Ews) as [_ Hin2].
  assert (Hacc : plain s -> forallb (all_strings no_split_pair) acc = true ->
                 forallb (all_strings no_split_pair) (acc ++ [v1]) = true).
  { intros Hs Hacc. rewrite forallb_app, Hacc. cbn.
    now rewrite (Hwhole _ _ _ E Hs). }
  destruct (c =? 93)%N.
  - intros [= <- <-] Hs Ha. cbn [all_strings]. auto.
  - destruct (c =? 44)%N; [|discriminate]. intros H Hs Ha.
    apply (IH _ _ _ _ H); [|auto].
    apply (within_plain s2); [apply within_skip_ws|].
    now apply (inside_plain s).
Qed.

Lemma JSONObject_loop_whole (scan : pystr -> result (value * pystr)) :
  reads_values scan -> reads_whole scan ->
  forall fuel pairs s v rest,
    JSONObject_loop scan fuel pairs s = Ok (v, rest) -> plain s ->
    all_strings no_split_pair (VDict pairs) = true ->
    all_strings no_split_pair v = true.
Proof.
  intros Hscan Hwhole. induction fuel as [|fuel IH]; intros pairs s v rest; [discriminate|].
  cbn [JSONObject_loop].
  destruct (scanstring s) as [[key s1]|] eqn:Ekey; [|discriminate].
  cbn [bind]. destruct (scanstring_inv _ _ _ Ekey) as [Hin1 _].
  destruct (skip_ws s1) as [|c s2] eqn:Ews1; [discriminate|].
  destruct (inside_skip_ws_cons _ _ _ _ Hin1 Ews1) as [_ Hin2].
  destruct (c =? 58)%N; [|discriminate].
  destruct (scan (skip_ws s2)) as [[v1 s3]|] eqn:Eval; [|discriminate].
  cbn [bind]. destruct (Hscan _ _ _ Eval) as [Hin3 _].
  assert (Hin3' : inside s s3).
  { apply inside_trans with s2; [assumption|].
    apply within_trans with (skip_ws s2); [apply within_skip_ws|].
    now apply inside_within. }
  assert (Hpairs : plain s -> all_strings no_split_pair (VDict pairs) = true ->
                   all_strings no_split_pair (VDict (dict_set pairs key v1)) = true).
  { intros Hs Hp. cbn [all_strings] in *.
    apply forallb_forall. apply Forall_forall. apply dict_set_forall.
    - apply Forall_forall. now apply forallb_forall.
    - cbn [fst snd]. apply andb_true_iff. split.
      + exact (scanstring_no_split _ _ _ Ekey Hs).
      + apply (Hwhole _ _ _ Eval).
        apply (within_plain s2); [apply within_skip_ws|].
        now apply (inside_plain s). }
  destruct (skip_ws s3) as [|c' s4] eqn:Ews3; [discriminate|].
  destruct (inside_skip_ws_cons _ _ _ _ Hin3' Ews3) as [_ Hin4].
  destruct (c' =? 125)%N.
  - intros [= <- <-]. exact Hpairs.
  - destruct (c' =? 44)%N; [|discriminate].
    destruct (skip_ws s4) as [|q s5] eqn:Ews4; [discriminate|].
    destruct (inside_skip_ws_cons _ _ _ _ Hin4 Ews4) as [_ Hin5].
    destruct (q =? 34)%N; [|discriminate]. intros H Hs Hp.
    apply (IH _ _ _ _ H); [now apply (inside_plain s)|auto].
Qed.

Lemma scan_once_whole (fuel : nat) : reads_whole (scan_once fuel).
Proof.
  induction fuel as [|fuel IH]; intros s v rest; [discriminate|].
  cbn [scan_once]. destruct s as [|c s']; [discriminate|].
  destruct (c =? 34)%N.
  { destruct (scanstring s') as [[chars r]|] eqn:E; [|discriminate].
    cbn [bind]. intros [= <- <-] Hs. apply plain_cons in Hs as [_ Hs].
    cbn [all_strings]. exact (scanstring_no_split _ _ _ E Hs). }
  destruct (c =? 123)%N.
  { unfold JSONObject. destruct (skip_ws s') as [|c1 s1] eqn:Ews; [discriminate|].
    assert (Hw : within s' (c1 :: s1)) by (rewrite <- Ews; apply within_skip_ws).
    destruct (c1 =? 125)%N; [now intros [= <- <-]|].
    destruct (c1 =? 34)%N; [|discriminate]. intros H Hs.
    apply (JSONObject_loop_whole _ (scan_once_inv fuel) IH _ _ _ _ _ H); [|reflexivity].
    apply plain_cons in Hs as [_ Hs]. apply (within_plain _ _ Hw) in Hs.
    now apply plain_cons in Hs as [_ ?]. }
  destruct (c =? 91)%N.
  { unfold JSONArray. destruct (skip_ws s') as [|c1 s1] eqn:Ews; [discriminate|].
    assert (Hw : within s' (c1 :: s1)) by (rewrite <- Ews; apply within_skip_ws).
    destruct (c1 =? 93)%N; [now intros [= <- <-]|]. intros H Hs.
    apply (JSONArray_loop_whole _ (scan_once_inv fuel) IH _ _ _ _ _ H); [|reflexivity].
    apply plain_cons in Hs as [_ Hs]. now apply (within_plain _ _ Hw). }
  destruct (strip_prefix (str "null") (c :: s')); [now intros [= <- <-]|].
  destruct (strip_prefix (str "true") (c :: s')); [now intros [= <- <-]|].
  destruct (strip_prefix (str "false") (c :: s')); [now intros [= <- <-]|].
  destruct (match_number (c :: s')) as [[[[i f] e] r]|].
  { destruct (float_of_str (i ++ f ++ e)); destruct (f ++ e);
      try discriminate; cbn [bind]; now intros [= <- <-]. }
  destruct (strip_prefix (str "NaN") (c :: s')); [now intros [= <- <-]|].
  destruct (strip_prefix (str "Infinity") (c :: s')); [now intros [= <- <-]|].
  destruct (strip_prefix (str "-Infinity") (c :: s')); [now intros [= <- <-]|].
  discriminate.
Qed.

Lemma json_loads_whole (s : pystr) (v : value) :
  json_loads s = Ok v -> plain s -> all_strings no_split_pair v = true.
Proof.
  unfold json_loads.
  destruct (scan_once _ (skip_ws s)) as [[v' rest]|] eqn:E; [|discriminate].
  cbn [bind]. destruct (skip_ws rest); [|discriminate]. intros [= <-] Hs.
  apply (scan_once_whole _ _ _ _ E). apply (within_plain s); [apply within_skip_ws|assumption].
Qed.

(** ** Fuel

    Beyond the length of the text, the fuel given to [scan_once] changes
    nothing: [json_loads] gives enough. *)

Lemma skip_ws_length (s : pystr) : (length (skip_ws s) <= length s)%nat.
Proof. apply within_skip_ws. Qed.

Lemma skip_ws_cons_length (s s' : pystr) (c : N) :
  skip_ws s = c :: s' -> (length s' < length s)%nat.
Proof. intros E. pose proof (skip_ws_length s) as H. rewrite E in H. cbn in H. lia. Qed.

Lemma JSONArray_loop_stable (scan scan' : pystr -> result (value * pystr)) (L : nat) :
  reads_values scan ->
  (forall s, (length s <= L)%nat -> scan s = scan' s) ->
  forall fuel fuel' acc s,
    (length s <= L)%nat -> (length s < fuel)%nat -> (length s < fuel')%nat ->
    JSONArray_loop scan fuel acc s = JSONArray_loop scan' fuel' acc s.
Proof.
  intros Hscan Hagree. induction fuel as [|fuel IH]; intros fuel' acc s HL Hf Hf'; [lia|].
  destruct fuel' as [|fuel']; [lia|]. cbn [JSONArray_loop].
  rewrite <- (Hagree s HL). destruct (scan s) as [[v1 s1]|] eqn:E; [|reflexivity].
  cbn [bind]. destruct (Hscan _ _ _ E) as [[Hlen _] _].
  destruct (skip_ws s1) as [|c s2] eqn:Ews; [reflexivity|].
  apply skip_ws_cons_length in Ews. pose proof (skip_ws_length s2).
  destruct (c =? 93)%N; [reflexivity|]. destruct (c =? 44)%N; [|reflexivity].
  apply IH; lia.
Qed.

Lemma JSONObject_loop_stable (scan scan' : pystr -> result (value * pystr)) (L : nat) :
  reads_values scan ->
  (forall s, (length s <= L)%nat -> scan s = scan' s) ->
  forall fuel fuel' pairs s,
    (length s <= L)%nat -> (length s < fuel)%nat -> (length s < fuel')%nat ->
    JSONObject_loop scan fuel pairs s = JSONObject_loop scan' fuel' pairs s.
Proof.
  intros Hscan Hagree. induction fuel as [|fuel IH]; intros fuel' pairs s HL Hf Hf'; [lia|].
  destruct fuel' as [|fuel']; [lia|]. cbn [JSONObject_loop].
  destruct (scanstring s) as [[key s1]|] eqn:Ekey; [|reflexivity].
  cbn [bind]. destruct (scanstring_inv _ _ _ Ekey) as [[Hlen1 _] _].
  destruct (skip_ws s1) as [|c s2] eqn:Ews1; [reflexivity|].
  apply skip_ws_cons_length in Ews1. pose proof (skip_ws_length s2).
  destruct (c =? 58)%N; [|reflexivity].
  rewrite <- (Hagree (skip_ws s2)) by lia.
  destruct (scan (skip_ws s2)) as [[v1 s3]|] eqn:Eval; [|reflexivity].
  cbn [bind]. destruct (Hscan _ _ _ Eval) as [[Hlen3 _] _].
  destruct (skip_ws s3) as [|c' s4] eqn:Ews3; [reflexivity|].
  apply skip_ws_cons_length in Ews3.
  destruct (c' =? 125)%N; [reflexivity|]. destruct (c' =? 44)%N; [|reflexivity].
  destruct (skip_ws s4) as [|q s5] eqn:Ews4; [reflexivity|].
  apply skip_ws_cons_length in Ews4.
  destruct (q =? 34)%N; [|reflexivity]. apply IH; lia.
Qed.

Lemma scan_once_stable (fuel fuel' : nat) (s : pystr) :
  (length s < fuel)%nat -> (length s < fuel')%nat ->
  scan_once fuel s = scan_once fuel' s.
Proof.
  revert fuel' s. induction fuel as [|fuel IH]; intros fuel' s Hf Hf'; [lia|].
  destruct fuel' as [|fuel']; [lia|]. cbn [scan_once].
  destruct s as [|c s']; [reflexivity|]. cbn [length] in Hf, Hf'.
  destruct (c =? 34)%N; [reflexivity|].
  assert (Hagree : forall s, (length s <= length s')%nat ->
                             scan_once fuel s = scan_once fuel' s).
  { intros s Hs. apply IH; lia. }
  destruct (c =? 123)%N.
  { unfold JSONObject. destruct (skip_ws s') as [|c1 s1] eqn:Ews; [reflexivity|].
    apply skip_ws_cons_length in Ews.
    destruct (c1 =? 125)%N; [reflexivity|]. destruct (c1 =? 34)%N; [|reflexivity].
    apply (JSONObject_loop_stable _ _ (length s')); try lia; try assumption.
    apply scan_once_inv. }
  destruct (c =? 91)%N; [|reflexivity].
  unfold JSONArray. destruct (skip_ws s') as [|c1 s1] eqn:Ews; [reflexivity|].
  pose proof (skip_ws_length s') as Hlen. rewrite Ews in Hlen.
  destruct (c1 =? 93)%N; [reflexivity|].
  apply (JSONArray_loop_stable _ _ (length s')); try lia; try assumption.
  apply scan_once_inv.
Qed.

(** [json_loads] with any fuel above the length of the text. *)
Lemma json_loads_fuel (s : pystr) (fuel : nat) :
  (length s < fuel)%nat ->
  json_loads s
  = '(v, rest) <- scan_once fuel (skip_ws s) ;;
    match skip_ws rest with
    | [] => Ok v
    | _ :: _ => Raise JSONDecodeError
    end.
Proof.
  intros H. unfold json_loads.
  rewrite (scan_once_stable (S (length s)) fuel); [reflexivity| |];
    pose proof (skip_ws_length s); lia.
Qed.

(** ** [scan_once] after [json_dumps] *)

Context {laws : FloatLaws rt}.

(** The text starts a value: with a character that is neither whitespace
    nor a closing bracket. *)
Definition starts_value (s : pystr) : bool :=
  match s with
  | c :: _ => negb (json_ws c) && negb (c =? 93)%N
  | [] => false
  end.

Lemma skip_ws_value (s : pystr) : starts_value s = true -> skip_ws s = s.
Proof.
  destruct s as [|c t]; [discriminate|]. cbn. intros H.
  apply andb_true_iff in H as [H _]. now destruct (json_ws c).
Qed.

Lemma starts_value_digit (c : N) (t : pystr) :
  c = 45%N \/ is_digit c = true -> starts_value (c :: t) = true.
Proof.
  intros [->|H]; [reflexivity|]. unfold is_digit in H.
  apply andb_true_iff in H as [H1 H2]. apply N.leb_le in H1, H2.
  cbn. unfold json_ws.
  destruct (N.eqb_spec c 32); [lia|]. destruct (N.eqb_spec c 9); [lia|].
  destruct (N.eqb_spec c 10); [lia|]. destruct (N.eqb_spec c 13); [lia|].
  destruct (N.eqb_spec c 93); [lia|]. reflexivity.
Qed.

Lemma int_repr_head (n : Z) :
  exists c t, int_repr n = c :: t /\ (c = 45%N \/ is_digit c = true).
Proof.
  destruct (int_repr_shape n) as (ds & Hds & [-> | ->]).
  - destruct (decimal_head _ Hds) as (c & t & -> & Hc). eauto.
  - eauto.
Qed.

Lemma floatstr_head (x : pyfloat) (rest : pystr) :
  starts_value (floatstr x ++ rest) = true.
Proof.
  unfold floatstr. destruct (float_class_of x) eqn:E; try reflexivity.
  destruct (repr_is_literal x E) as (i & f & e & Hm & _).
  destruct (match_number_head _ _ Hm) as (c & t & -> & Hc).
  now apply starts_value_digit.
Qed.

Lemma json_dumps_starts (v : value) (rest : pystr) :
  starts_value (json_dumps v ++ rest) = true.
Proof.
  destruct v as [| [|] | n | x | s | l | d]; try reflexivity.
  - cbn [json_dumps]. destruct (int_repr_head n) as (c & t & -> & Hc).
    now apply starts_value_digit.
  - apply floatstr_head.
Qed.

Lemma strip_prefix_head (x : N) (p : pystr) (c : N) (t : pystr) :
  c <> x -> strip_prefix (x :: p) (c :: t) = None.
Proof.
  intros H. cbn [strip_prefix]. destruct (N.eqb_spec x c) as [E|_]; [|reflexivity].
  now destruct H.
Qed.

(** The decoder on a text that starts a number. *)
Lemma scan_once_number (fuel : nat) (s i f e rest : pystr) :
  match_number s = Some (i, f, e, rest) ->
  scan_once (S fuel) s
  = match f ++ e with
    | [] => Ok (VInt (int_of_literal i), rest)
    | _ :: _ => x <- float_of_str (i ++ f ++ e) ;; Ok (VFloat x, rest)
    end.
Proof.
  intros Hm. destruct (match_number_head _ _ Hm) as (c & t & -> & Hc).
  assert (Hne : forall k, (k = 34 \/ k = 123 \/ k = 91 \/ k = 110 \/ k = 116 \/ k = 102)%N ->
                          c <> k).
  { intros k Hk ->. destruct Hc as [Hc|Hc];
      destruct Hk as [->|[->|[->|[->|[->| ->]]]]]; discriminate Hc. }
  cbn [scan_once].
  destruct (N.eqb_spec c 34) as [E|_]; [now destruct (Hne 34%N); auto|].
  destruct (N.eqb_spec c 123) as [E|_]; [now destruct (Hne 123%N); auto|].
  destruct (N.eqb_spec c 91) as [E|_]; [now destruct (Hne 91%N); auto|].
  assert (Hnull : strip_prefix (str "null") (c :: t) = None).
  { apply (strip_prefix_head 110%N (str "ull")). apply Hne. auto 10. }
  assert (Htrue : strip_prefix (str "true") (c :: t) = None).
  { apply (strip_prefix_head 116%N (str "rue")). apply Hne. auto 10. }
  assert (Hfalse : strip_prefix (str "false") (c :: t) = None).
  { apply (strip_prefix_head 102%N (str "alse")). apply Hne. auto 10. }
  now rewrite Hnull, Htrue, Hfalse, Hm.
Qed.

(** What the encoder writes for a list after the opening bracket, and for
    a dict after the opening quote of its first key. *)
Fixpoint items_text (l : list value) (rest : pystr) : pystr :=
  match l with
  | [] => []
  | v :: l' =>
      json_dumps v
      ++ match l' with
         | [] => 93%N :: rest
         | _ :: _ => 44%N :: 32%N :: items_text l' rest
         end
  end.

Fixpoint entries_text (d : pydict) (rest : pystr) : pystr :=
  match d with
  | [] => []
  | kv :: d' =>
      flat_map escape_char (fst kv) ++ 34%N :: 58%N :: 32%N :: json_dumps (snd kv)
      ++ match d' with
         | [] => 125%N :: rest
         | _ :: _ => 44%N :: 32%N :: 34%N :: entries_text d' rest
         end
  end.

Lemma join_items_text (v : value) (l : list value) (rest : pystr) :
  join (str ", ") (map json_dumps (v :: l)) ++ 93%N :: rest = items_text (v :: l) rest.
Proof.
  revert v. induction l as [|v' l IH]; intros v.
  - reflexivity.
  - change (join (str ", ") (map json_dumps (v :: v' :: l)))
      with (json_dumps v ++ str ", " ++ join (str ", ") (map json_dumps (v' :: l))).
    rewrite <- !app_assoc, IH. reflexivity.
Qed.

Definition entry_text (kv : pystr * value) : pystr :=
  encode_basestring_ascii (fst kv) ++ str ": " ++ json_dumps (snd kv).

Lemma join_entries_text (kv : pystr * value) (d : pydict) (rest : pystr) :
  join (str ", ") (map entry_text (kv :: d)) ++ 125%N :: rest
  = 34%N :: entries_text (kv :: d) rest.
Proof.
  revert kv. induction d as [|kv' d IH]; intros kv.
  - cbn [map join entries_text]. unfold entry_text, encode_basestring_ascii.
    cbn [app]. rewrite <- !app_assoc. reflexivity.
  - change (join (str ", ") (map entry_text (kv :: kv' :: d)))
      with (entry_text kv ++ str ", " ++ join (str ", ") (map entry_text (kv' :: d))).
    rewrite <- !app_assoc, IH. unfold entry_text, encode_basestring_ascii.
    cbn [app entries_text]. rewrite <- !app_assoc. reflexivity.
Qed.

Lemma dict_set_fresh (acc : pydict) (k : pystr) (v : value) :
  ~ In k (map fst acc) -> dict_set acc k v = acc ++ [(k, v)].
Proof.
  induction acc as [|[k' v'] acc IH]; intros Hin; [reflexivity|].
  cbn [dict_set]. destruct (str_eqb k k') eqn:E.
  - apply str_eqb_eq in E. subst. destruct Hin. now left.
  - rewrite IH; [reflexivity|]. intros H. apply Hin. now right.
Qed.

Lemma JSONArray_loop_items (scan : pystr -> result (value * pystr)) (l : list value) :
  l <> [] ->
  Forall (fun v => forall rest, delimited rest = true ->
                   scan (json_dumps v ++ rest) = Ok (v, rest)) l ->
  forall fuel acc rest, (length l <= fuel)%nat ->
  JSONArray_loop scan fuel acc (items_text l rest) = Ok (VList (acc ++ l), rest).
Proof.
  induction l as [|v l IH]; intros Hne Hall fuel acc rest Hfuel; [now destruct Hne|].
  inversion Hall as [|? ? Hv Hl]; subst.
  destruct fuel as [|fuel]; [cbn in Hfuel; lia|].
  cbn [JSONArray_loop items_text]. destruct l as [|v' l].
  - rewrite Hv by reflexivity. reflexivity.
  - rewrite Hv by reflexivity. cbn [bind skip_ws json_ws N.eqb Pos.eqb orb].
    rewrite skip_ws_value.
    + rewrite IH; [|discriminate|assumption|cbn in *; lia].
      now rewrite <- app_assoc.
    + cbn [items_text]. apply json_dumps_starts.
Qed.

Lemma JSONObject_loop_entries (scan : pystr -> result (value * pystr)) (d : pydict) :
  d <> [] ->
  Forall (fun kv => forallb valid_char (fst kv) = true
                    /\ no_split_pair (fst kv) = true
                    /\ forall rest, delimited rest = true ->
                                     scan (json_dumps (snd kv) ++ rest) = Ok (snd kv, rest)) d ->
  forall fuel acc rest, (length d <= fuel)%nat ->
  NoDup (map fst (acc ++ d)) ->
  JSONObject_loop scan fuel acc (entries_text d rest) = Ok (VDict (acc ++ d), rest).
Proof.
  induction d as [|[k v] d IH]; intros Hne Hall fuel acc rest Hfuel Hnd;
    [now destruct Hne|].
  inversion Hall as [|? ? (Hk1 & Hk2 & Hv) Hd]; subst. cbn [fst snd] in *.
  destruct fuel as [|fuel]; [cbn in Hfuel; lia|].
  assert (Hfresh : ~ In k (map fst acc)).
  { rewrite map_app in Hnd. cbn in Hnd. apply NoDup_remove_2 in Hnd.
    intros H. apply Hnd. apply in_or_app. now left. }
  cbn [JSONObject_loop entries_text fst snd].
  rewrite scanstring_escaped by assumption.
  cbn [bind skip_ws json_ws N.eqb Pos.eqb orb].
  rewrite skip_ws_value by apply json_dumps_starts.
  destruct d as [|kv' d].
  - rewrite Hv by reflexivity. cbn [bind skip_ws json_ws N.eqb Pos.eqb orb].
    now rewrite dict_set_fresh.
  - rewrite Hv by reflexivity. cbn [bind skip_ws json_ws N.eqb Pos.eqb orb].
    rewrite dict_set_fresh by assumption.
    rewrite IH; [|discriminate|assumption|cbn in *; lia|now rewrite <- app_assoc].
    now rewrite <- app_assoc.
Qed.

(** The fuel a value needs. *)
Fixpoint size (v : value) : nat :=
  match v with
  | VList l => S (list_sum (map (fun v => S (size v)) l))
  | VDict d => S (list_sum (map (fun kv => S (size (snd kv))) d))
  | _ => 1
  end.

Lemma list_sum_bound (A : Type) (f : A -> nat) (l : list A) (x : A) :
  In x l -> (f x <= list_sum (map f l))%nat.
Proof.
  induction l as [|y l IH]; [intros []|].
  cbn [map]. change (list_sum (f y :: map f l)) with (f y + list_sum (map f l))%nat.
  intros [->|H]; [lia|]. specialize (IH H). lia.
Qed.

Lemma list_sum_length (A : Type) (f : A -> nat) (l : list A) :
  (length l <= list_sum (map (fun x => S (f x)) l))%nat.
Proof.
  induction l as [|y l IH]; [cbn; lia|].
  cbn [map length].
  change (list_sum (S (f y) :: map (fun x => S (f x)) l))
    with (S (f y) + list_sum (map (fun x => S (f x)) l))%nat.
  lia.
Qed.

(** The decoder reads back what the encoder wrote. *)
Lemma scan_once_dumps (v : value) :
  decoded v -> all_strings no_split_pair v = true ->
  forall fuel rest, (size v < fuel)%nat -> delimited rest = true ->
  scan_once fuel (json_dumps v ++ rest) = Ok (v, rest).
Proof.
  induction v using value_nested_ind;
    try rename H into IH;
    intros Hdec Hsplit fuel rest Hfuel Hrest;
    (destruct fuel as [|fuel]; [cbn in Hfuel; lia|]).
  - reflexivity.
  - destruct b; reflexivity.
  - cbn [json_dumps].
    assert (Hm : match_number (int_repr n ++ rest) = Some (int_repr n, [], [], rest)).
    { unfold match_number.
      rewrite match_integer_int_repr by now apply delimited_no_digit.
      change rest with ([] ++ rest) at 1.
      rewrite (match_frac_app [] rest [] [] eq_refl) by (discriminate || auto).
      change ([] ++ rest) with rest.
      change rest with ([] ++ rest) at 1.
      now rewrite (match_exp_app [] rest [] eq_refl Hrest). }
    rewrite (scan_once_number _ _ _ _ _ _ Hm). cbn [app].
    now rewrite int_of_literal_repr.
  - cbn [json_dumps]. unfold floatstr.
    destruct Hdec as (_ & Hnan & _). cbn in Hnan.
    destruct (float_class_of x) eqn:E.
    + rewrite (Hnan eq_refl). reflexivity.
    + rewrite (inf_unique x E). reflexivity.
    + rewrite (neg_inf_unique x E). reflexivity.
    + destruct (repr_is_literal x E) as (i & f & e & Hm & Hfe).
      pose proof (match_number_concat _ _ _ _ _ Hm) as Hcat.
      rewrite app_nil_r in Hcat.
      rewrite (scan_once_number _ _ _ _ _ _ (match_number_app _ _ _ _ _ Hm Hrest)).
      rewrite <- Hcat, (repr_roundtrip x E).
      destruct (f ++ e); [now destruct Hfe|reflexivity].
  - destruct Hdec as (Hvalid & _). cbn in Hvalid, Hsplit.
    cbn [json_dumps scan_once]. unfold encode_basestring_ascii.
    cbn [app N.eqb Pos.eqb]. rewrite <- app_assoc. cbn [app].
    now rewrite scanstring_escaped.
  - apply decoded_list in Hdec. cbn [all_strings] in Hsplit.
    rewrite forallb_forall in Hsplit. rewrite Forall_forall in Hdec, IH.
    cbn [json_dumps scan_once]. cbn [app N.eqb Pos.eqb]. unfold JSONArray.
    destruct l as [|v l]; [reflexivity|].
    rewrite <- app_assoc. cbn [app]. rewrite join_items_text.
    assert (Hstart : starts_value (items_text (v :: l) rest) = true)
      by apply json_dumps_starts.
    rewrite (skip_ws_value _ Hstart).
    destruct (items_text (v :: l) rest) as [|c t] eqn:Et; [discriminate Hstart|].
    cbn in Hstart. apply andb_true_iff in Hstart as [_ Hc].
    destruct (c =? 93)%N; [discriminate Hc|]. rewrite <- Et.
    change (size (VList (v :: l)))
      with (S (list_sum (map (fun v => S (size v)) (v :: l)))) in Hfuel.
    apply (JSONArray_loop_items (scan_once fuel) (v :: l)); [discriminate| |].
    + apply Forall_forall. intros w Hw rest' Hrest'.
      apply IH; auto.
      pose proof (list_sum_bound _ (fun v => S (size v)) _ _ Hw) as Hb.
      cbv beta in Hb. lia.
    + pose proof (list_sum_length _ size (v :: l)). lia.
  - apply decoded_dict in Hdec as [Hnd Hdec]. cbn [all_strings] in Hsplit.
    rewrite forallb_forall in Hsplit. rewrite Forall_forall in Hdec, IH.
    cbn [json_dumps scan_once]. cbn [app N.eqb Pos.eqb]. unfold JSONObject.
    destruct d as [|kv d]; [reflexivity|].
    rewrite <- app_assoc. cbn [app].
    change (map (fun kv0 => encode_basestring_ascii (fst kv0) ++ str ": "
                            ++ json_dumps (snd kv0)) (kv :: d))
      with (map entry_text (kv :: d)).
    rewrite join_entries_text. cbn [skip_ws json_ws N.eqb Pos.eqb orb].
    change (size (VDict (kv :: d)))
      with (S (list_sum (map (fun kv => S (size (snd kv))) (kv :: d)))) in Hfuel.
    apply (JSONObject_loop_entries (scan_once fuel) (kv :: d)); [discriminate| | |].
    + apply Forall_forall. intros w Hw.
      specialize (Hsplit w Hw). apply andb_true_iff in Hsplit as [Hs1 Hs2].
      destruct (Hdec w Hw) as [Hw1 Hw2].
      repeat split; try assumption. intros rest' Hrest'.
      apply IH; auto.
      pose proof (list_sum_bound _ (fun kv => S (size (snd kv))) _ _ Hw) as Hb.
      cbv beta in Hb. apply Nat.le_trans with (1 := Hb).
      apply Nat.lt_le_incl, Nat.succ_lt_mono, Hfuel.
    + pose proof (list_sum_length _ (fun kv => size (snd kv)) (kv :: d)) as Hb.
      apply Nat.le_trans with (1 := Hb).
      apply Nat.lt_le_incl, Nat.succ_lt_mono, Hfuel.
    + exact Hnd.
Qed.

(** [json.loads] after [json.dumps]. *)
Lemma json_loads_dumps (v : value) :
  decoded v -> all_strings no_split_pair v = true -> json_loads (json_dumps v) = Ok v.
Proof.
  intros Hdec Hsplit.
  rewrite (json_loads_fuel _ (S (Nat.max (length (json_dumps v)) (size v)))) by lia.
  pose proof (json_dumps_starts v []) as Hstart. rewrite app_nil_r in Hstart.
  rewrite (skip_ws_value _ Hstart).
  pose proof (scan_once_dumps v Hdec Hsplit
                (S (Nat.max (length (json_dumps v)) (size v))) []) as H.
  rewrite app_nil_r in H. rewrite H; [reflexivity|lia|reflexivity].
Qed.

(** ** What [extract_first_json] returns *)

Lemma star_match_split (a : atom) (k : pystr -> option (pystr * pystr)) :
  (forall s m rest, k s = Some (m, rest) -> s = m ++ rest) ->
  forall s m rest, star_match a k s = Some (m, rest) -> s = m ++ rest.
Proof.
  intros Hk. induction s as [|c s IH]; intros m rest; cbn [star_match]; [apply Hk|].
  destruct (atom_ok a c); [|apply Hk].
  destruct (star_match a k s) as [[m' rest']|] eqn:E; [|apply Hk].
  intros [= <- <-]. cbn. f_equal. now apply IH.
Qed.

Lemma re_match_split (r : regex) (s m rest : pystr) :
  re_match r s = Some (m, rest) -> s = m ++ rest.
Proof.
  revert s m rest. induction r as [|[a|a] r IH]; intros s m rest.
  - cbn. now intros [= <- <-].
  - destruct s as [|c s]; [discriminate|]. rewrite re_match_one.
    destruct (atom_ok a c); [|discriminate].
    destruct (re_match r s) as [[m' rest']|] eqn:E; [|discriminate].
    intros [= <- <-]. cbn. f_equal. now apply IH.
  - rewrite re_match_star. apply star_match_split. apply IH.
Qed.

(** What holds of every character of the text holds of every character
    of the match. *)
Lemma re_search_forallb (p : N -> bool) (r : regex) (s m : pystr) :
  re_search r s = Some m -> forallb p s = true -> forallb p m = true.
Proof.
  induction s as [|c s IH]; cbn [re_search].
  - destruct (re_match r []) as [[m' rest]|] eqn:E; [|discriminate].
    intros [= <-] _. apply re_match_split in E.
    symmetry in E. apply app_eq_nil in E as [-> _]. reflexivity.
  - destruct (re_match r (c :: s)) as [[m' rest]|] eqn:E.
    + intros [= <-] Hs. apply re_match_split in E. rewrite E, forallb_app in Hs.
      now apply andb_true_iff in Hs as [? _].
    + intros H Hs. apply IH; [assumption|].
      cbn [forallb] in Hs. now apply andb_true_iff in Hs as [_ ?].
Qed.

Lemma re_search_valid (r : regex) (s m : pystr) :
  re_search r s = Some m -> valid s -> valid m.
Proof. apply re_search_forallb. Qed.

Lemma re_search_object (s m : pystr) :
  re_search json_object_re s = Some m -> exists body, m = 123%N :: body.
Proof.
  assert (H : forall s m rest, re_match json_object_re s = Some (m, rest) ->
                               exists body, m = 123%N :: body).
  { clear. intros s m rest. unfold json_object_re.
    destruct s as [|c s]; [discriminate|]. rewrite re_match_one. cbn [atom_ok].
    destruct (N.eqb_spec c 123) as [->|_]; [|discriminate].
    destruct (re_match _ s) as [[m' rest']|]; [|discriminate].
    intros [= <- <-]. eauto. }
  induction s as [|c s IH]; cbn [re_search].
  - destruct (re_match json_object_re []) as [[m' rest]|] eqn:E; [|discriminate].
    intros [= <-]. eapply H, E.
  - destruct (re_match json_object_re (c :: s)) as [[m' rest]|] eqn:E; [|exact IH].
    intros [= <-]. eapply H, E.
Qed.

(** And of every character of the text [re.sub] returns, when it holds of
    the replacement. *)
Lemma re_sub_from_forallb (p : N -> bool) (r : regex) (repl : pystr) :
  forallb p repl = true ->
  forall s skip, forallb p s = true -> forallb p (re_sub_from r repl skip s) = true.
Proof.
  intros Hrepl. induction s as [|c s IH]; intros skip Hs; [reflexivity|].
  cbn [forallb] in Hs. apply andb_true_iff in Hs as [Hc Hs]. cbn [re_sub_from].
  destruct skip as [|n]; [|now apply IH].
  destruct (re_match r (c :: s)) as [[m rest]|].
  - rewrite forallb_app, Hrepl. now apply IH.
  - cbn [forallb]. rewrite Hc. now apply IH.
Qed.

Lemma re_sub_from_valid (r : regex) (repl : pystr) :
  valid repl -> forall s skip, valid s -> valid (re_sub_from r repl skip s).
Proof. apply re_sub_from_forallb. Qed.

(** The repair leaves the opening brace in front. *)
Lemma re_sub_object (close : N) (repl body : pystr) :
  re_sub [One (Chr 44); Star (Cls is_space); One (Chr close)] repl (123%N :: body)
  = 123%N :: re_sub_from [One (Chr 44); Star (Cls is_space); One (Chr close)] repl 0 body.
Proof. reflexivity. Qed.

Lemma JSONObject_loop_dict (scan : pystr -> result (value * pystr)) :
  forall fuel pairs s v rest,
    JSONObject_loop scan fuel pairs s = Ok (v, rest) -> exists d, v = VDict d.
Proof.
  induction fuel as [|fuel IH]; intros pairs s v rest; [discriminate|].
  cbn [JSONObject_loop].
  destruct (scanstring s) as [[key s1]|]; [|discriminate]. cbn [bind].
  destruct (skip_ws s1) as [|c s2]; [discriminate|].
  destruct (c =? 58)%N; [|discriminate].
  destruct (scan (skip_ws s2)) as [[v1 s3]|]; [|discriminate]. cbn [bind].
  destruct (skip_ws s3) as [|c' s4]; [discriminate|].
  destruct (c' =? 125)%N; [intros [= <- <-]; eauto|].
  destruct (c' =? 44)%N; [|discriminate].
  destruct (skip_ws s4) as [|q s5]; [discriminate|].
  destruct (q =? 34)%N; [|discriminate]. apply IH.
Qed.

(** A text that starts with an opening brace decodes to a dict. *)
Lemma json_loads_object (body : pystr) (v : value) :
  json_loads (123%N :: body) = Ok v -> exists d, v = VDict d.
Proof.
  unfold json_loads. cbn [skip_ws json_ws N.eqb Pos.eqb orb].
  cbn [scan_once N.eqb Pos.eqb].
  destruct (JSONObject _ _ body) as [[v' rest]|] eqn:E; [|discriminate].
  cbn [bind]. destruct (skip_ws rest); [|discriminate]. intros [= <-].
  unfold JSONObject in E. destruct (skip_ws body) as [|c s1]; [discriminate|].
  destruct (c =? 125)%N; [injection E as <- _; eauto|].
  destruct (c =? 34)%N; [|discriminate]. eapply JSONObject_loop_dict, E.
Qed.

Lemma json_loads_decoded (s : pystr) (v : value) :
  json_loads s = Ok v -> valid s -> decoded v.
Proof.
  unfold json_loads.
  destruct (scan_once _ (skip_ws s)) as [[v' rest]|] eqn:E; [|discriminate].
  cbn [bind]. destruct (skip_ws rest); [|discriminate]. intros [= <-] Hs.
  destruct (scan_once_inv _ _ _ _ E) as [_ Hdec]. apply Hdec; [exact laws|].
  now apply (within_skip_ws s).
Qed.

(** What [extract_first_json] returns from a [str] is a dict, decoded. *)
Lemma extract_first_json_decoded (raw : pystr) (obj : value) :
  valid raw -> extract_first_json raw = Ok obj ->
  decoded obj /\ exists d, obj = VDict d.
Proof.
  intros Hraw. unfold extract_first_json.
  destruct (re_search json_object_re raw) as [candidate|] eqn:Es; [|discriminate].
  pose proof (re_search_valid _ _ _ Es Hraw) as Hc.
  destruct (re_search_object _ _ Es) as (body & ->).
  destruct (json_loads (123%N :: body)) as [v|e] eqn:El.
  - intros [= <-]. split; [now apply (json_loads_decoded _ _ El)|].
    now apply (json_loads_object _ _ El).
  - assert (H : json_loads (re_sub comma_bracket_re (str "]")
                              (re_sub comma_brace_re (str "}") (123%N :: body)))
                = Ok obj -> decoded obj /\ exists d, obj = VDict d).
    { unfold comma_brace_re, comma_bracket_re. rewrite re_sub_object.
      rewrite re_sub_object. intros H. split.
      - apply (json_loads_decoded _ _ H). apply valid_cons. split; [reflexivity|].
        apply re_sub_from_valid; [reflexivity|].
        apply re_sub_from_valid; [reflexivity|].
        now apply valid_cons in Hc as [_ ?].
      - now apply (json_loads_object _ _ H). }
    destruct e; try discriminate. exact H.
Qed.

(** From a text with no surrogate [extract_first_json] returns an object
    with no split pair. *)
Lemma extract_first_json_whole (raw : pystr) (obj : value) :
  plain raw -> extract_first_json raw = Ok obj ->
  all_strings no_split_pair obj = true.
Proof.
  intros Hraw. unfold extract_first_json.
  destruct (re_search json_object_re raw) as [candidate|] eqn:Es; [|discriminate].
  pose proof (re_search_forallb _ _ _ _ Es Hraw) as Hc. fold (plain candidate) in Hc.
  destruct (json_loads candidate) as [v|e] eqn:El.
  - intros [= <-]. exact (json_loads_whole _ _ El Hc).
  - assert (H : json_loads (re_sub comma_bracket_re (str "]")
                              (re_sub comma_brace_re (str "}") candidate))
                = Ok obj -> all_strings no_split_pair obj = true).
    { intros H. apply (json_loads_whole _ _ H). unfold re_sub.
      apply re_sub_from_forallb; [reflexivity|].
      apply re_sub_from_forallb; [reflexivity|]. exact Hc. }
    destruct e; try discriminate. exact H.
Qed.

(** Extraction on the encoder's text of a dict. *)
Lemma extract_first_json_dumps (d : pydict) :
  decoded (VDict d) -> all_strings no_split_pair (VDict d) = true ->
  extract_first_json (json_dumps (VDict d)) = Ok (VDict d).
Proof.
  intros Hdec Hsplit. unfold extract_first_json.
  pose proof (json_loads_dumps _ Hdec Hsplit) as Hloads.
  assert (E : exists body, json_dumps (VDict d) = 123%N :: body ++ [125%N])
    by (eexists; reflexivity).
  destruct E as (body & E). rewrite E in *.
  now rewrite search_whole_object, Hloads.
Qed.

(** C7 as the code has it.  Let the raw text be a [str] (code points
    below 0x110000) on which extraction succeeds, and let the text hold no
    surrogate code point or, more generally, let no string of the object
    it yields hold a high surrogate followed at once by a low surrogate.
    Then the object is a dict, and extraction on its [json.dumps] text
    succeeds and yields the same object.  The floats are those of any
    runtime that keeps [FloatLaws]. *)
Theorem extraction_idempotent (raw : pystr) (obj : value) :
  valid raw ->
  extract_first_json raw = Ok obj ->
  plain raw \/ all_strings no_split_pair obj = true ->
  (exists d, obj = VDict d)
  /\ extract_first_json (json_dumps obj) = Ok obj.
Proof.
  intros Hraw Hextract Hsplit.
  assert (Hwhole : all_strings no_split_pair obj = true).
  { destruct Hsplit as [Hplain|H]; [|exact H].
    exact (extract_first_json_whole _ _ Hplain Hextract). }
  destruct (extract_first_json_decoded _ _ Hraw Hextract) as (Hdec & d & ->).
  split; [eauto|]. now apply extract_first_json_dumps.
Qed.

End Roundtrip.

(** * A runtime to run the model on

    The theorems above hold for every runtime and all services.  To
    evaluate the definitions on an input, and to show that what a theorem
    assumes can be met, here is one of each.  The floats of
    [whole_runtime] are nan, the two infinities and the whole numbers;
    [float] keeps the integer part of a literal and [repr] writes it with
    the fraction [.0].  [canned] answers every call of the model with the
    same reply, and its pydantic refuses what is not a [str] in a [str]
    field. *)

Inductive whole_float : Type :=
| WNan
| WInf
| WNegInf
| WInt (z : Z).

Definition whole_of_str (s : pystr) : result whole_float :=
  match match_number s with
  | Some (integer, _, _, []) => Ok (WInt (int_of_literal integer))
  | _ => Raise (ValueError "could not convert string to float")
  end.

Definition int_of_whole (x : whole_float) : result Z :=
  match x with
  | WInt z => Ok z
  | WNan => Raise (ValueError "cannot convert float NaN to integer")
  | WInf | WNegInf => Raise OverflowError
  end.

Definition whole_class (x : whole_float) : float_class :=
  match x with
  | WNan => FNan
  | WInf => FPosInf
  | WNegInf => FNegInf
  | WInt _ => FFinite
  end.

Definition whole_repr (x : whole_float) : pystr :=
  match x with
  | WNan => str "nan"
  | WInf => str "inf"
  | WNegInf => str "-inf"
  | WInt z => int_repr z ++ str ".0"
  end.

Definition whole_int_of_str (s : pystr) : result Z :=
  match match_number s with
  | Some (integer, [], [], []) => Ok (int_of_literal integer)
  | _ => Raise (ValueError "invalid literal for int() with base 10")
  end.

Definition whole_runtime : PyRuntime := {|
  pyfloat := whole_float;
  float_of_str := whole_of_str;
  float_of_int := fun n => Ok (WInt n);
  int_of_float := int_of_whole;
  float_bool := fun x => match x with WInt 0 => false | _ => true end;
  float_class_of := whole_class;
  float_repr := whole_repr;
  float_nan := WNan;
  float_inf := WInf;
  float_neg_inf := WNegInf;
  int_of_str := whole_int_of_str;
  unicode_lower := fun s => s
|}.

Definition canned (reply : result (option pystr)) : @Services whole_runtime := {|
  image_part := list Byte.byte * pystr;
  Part_from_bytes := fun contents mime_type => Ok (contents, mime_type);
  generate_content := fun _ _ _ => reply;
  pydantic_str := fun _ => Raise ValidationError
|}.

(** Normalization on [whole_runtime], whatever the model replies. *)
Definition normalize_whole : @value whole_runtime -> result (@CrowdResult whole_runtime) :=
  @normalize whole_runtime (canned (Ok None)).

(** ** The theorems at an input *)

Lemma crowd_score_clamped_witness :
  (exists r, normalize_whole (VDict [(str "crowd_score", VInt 25)]) = Ok r
             /\ crowd_score r = Some 10%Z)
  /\ (exists r, normalize_whole (VDict [(str "crowd_score", VInt (-3))]) = Ok r
                /\ crowd_score r = Some 1%Z)
  /\ (exists r, normalize_whole (VDict [(str "crowd_score", VInt 7)]) = Ok r
                /\ crowd_score r = Some 7%Z).
Proof.
  split; [|split]; eexists; (split; [reflexivity|]).
  - apply (@crowd_score_clamped whole_runtime (canned (Ok None))
             [(str "crowd_score", VInt 25)] 25%Z _ eq_refl eq_refl). lia.
  - apply (@crowd_score_clamped whole_runtime (canned (Ok None))
             [(str "crowd_score", VInt (-3))] (-3)%Z _ eq_refl eq_refl). lia.
  - apply (@crowd_score_clamped whole_runtime (canned (Ok None))
             [(str "crowd_score", VInt 7)] 7%Z _ eq_refl eq_refl). lia.
Defined.

Lemma departure_type_closed_witness :
  exists r,
    normalize_whole (VDict [(str "departure_type", VStr (str "airplane"))]) = Ok r
    /\ (departure_type r = None
        \/ exists t, departure_type r = Some t /\ In t valid_types).
Proof.
  eexists. split; [reflexivity|].
  apply (@departure_type_closed whole_runtime (canned (Ok None))
           (VDict [(str "departure_type", VStr (str "airplane"))])).
  reflexivity.
Defined.

(** C9 as the spec has it fails: a negative [people_count] passes. *)
Lemma negative_people_count_passes (rt : PyRuntime) (sv : Services) :
  normalize (VDict [(str "people_count", VInt (-5))])
  = Ok {| people_count := Some (-5)%Z; crowd_score := None; crowd_label := None;
          confidence := None; rationale := Some []; screen_detected := None;
          departure_type := Some (str "none"); departure_info := Some [] |}.
Proof. reflexivity. Qed.

Lemma people_count_can_be_negative :
  ~ (forall (rt : PyRuntime) (sv : Services) (parsed : pydict) (r : CrowdResult) (n : Z),
        normalize (VDict parsed) = Ok r -> people_count r = Some n -> (0 <= n)%Z).
Proof.
  intros H.
  specialize (H whole_runtime (canned (Ok None)) _ _ (-5)%Z
                (negative_people_count_passes _ _) eq_refl).
  lia.
Qed.

Lemma people_count_coerced_witness :
  exists r,
    normalize_whole (VDict [(str "people_count", VInt (-5))]) = Ok r
    /\ people_count r = Some (-5)%Z.
Proof.
  eexists. split; [reflexivity|].
  now apply (@people_count_coerced whole_runtime (canned (Ok None))
               [(str "people_count", VInt (-5))] _ eq_refl).
Defined.

(** C4 as the spec has it fails: "Train" gives "train". *)
Lemma departure_type_Train (rt : PyRuntime) (sv : Services) :
  normalize (VDict [(str "departure_type", VStr (str "Train"))])
  = Ok {| people_count := None; crowd_score := None; crowd_label := None;
          confidence := None; rationale := Some []; screen_detected := None;
          departure_type := Some (str "train"); departure_info := Some [] |}.
Proof. reflexivity. Qed.

Lemma case_variant_is_not_none :
  ~ (forall (rt : PyRuntime) (sv : Services) (parsed : pydict) (r : CrowdResult),
        py_get parsed (str "departure_type") = VStr (str "Train") ->
        normalize (VDict parsed) = Ok r ->
        departure_type r = Some (str "none")).
Proof.
  intros H.
  specialize (H whole_runtime (canned (Ok None))
                [(str "departure_type", VStr (str "Train"))] _ eq_refl
                (departure_type_Train _ _)).
  discriminate H.
Qed.

Lemma departure_type_lowered_witness :
  (exists r,
     normalize_whole (VDict [(str "departure_type", VStr (str "Train"))]) = Ok r
     /\ departure_type r = Some (str "train"))
  /\ (exists r,
        normalize_whole (VDict [(str "departure_type", VStr (str "airplane"))]) = Ok r
        /\ departure_type r = Some (str "none")).
Proof.
  split; eexists; (split; [reflexivity|]).
  - apply (@departure_type_lowered whole_runtime (canned (Ok None))
             [(str "departure_type", VStr (str "Train"))] _ (str "Train") eq_refl);
      [discriminate | reflexivity | reflexivity | simpl; tauto].
  - apply (@departure_type_lowered whole_runtime (canned (Ok None))
             [(str "departure_type", VStr (str "airplane"))] _ (str "airplane") eq_refl);
      [discriminate | reflexivity | reflexivity |].
    simpl. intros [H|[H|[H|[H|[H|[H|[]]]]]]]; discriminate H.
Defined.

Lemma departure_type_not_a_string_witness :
  (exists r,
     normalize_whole (VDict [(str "departure_type", VInt 7);
                             (str "screen_detected", VBool true)]) = Ok r
     /\ departure_type r = None)
  /\ (exists r,
        normalize_whole (VDict [(str "departure_type", VStr [])]) = Ok r
        /\ departure_type r = Some (str "none")
        /\ normalize_whole (VDict []) = Ok r).
Proof.
  split; eexists; (split; [reflexivity|]).
  - apply (@departure_type_not_a_string whole_runtime (canned (Ok None))
             [(str "departure_type", VInt 7); (str "screen_detected", VBool true)] _);
      [right; discriminate | reflexivity].
  - apply (@departure_type_not_a_string whole_runtime (canned (Ok None))
             [(str "departure_type", VStr [])] _);
      [left; reflexivity | reflexivity].
Defined.

Lemma upload_validation_witness :
  analyze_image (sv := canned (Ok None)) [] (Some (str "image/png")) None
  = HTTPException 400 "Empty file"
  /\ analyze_image (sv := canned (Ok None))
       (repeat Byte.x00 (N.to_nat (5 * 1024 * 1024 + 1))) None None
     = HTTPException 413 "File too large. Max 5242880 bytes allowed."
  /\ analyze_image (sv := canned (Ok None))
       (repeat Byte.x00 (N.to_nat (5 * 1024 * 1024))) None None
     = respond (sv := canned (Ok None)) (Ok None).
Proof.
  split; [|split].
  - now apply (@upload_validation whole_runtime (canned (Ok None)) []).
  - apply (@upload_validation whole_runtime (canned (Ok None))).
    rewrite repeat_length, N2Nat.id. reflexivity.
  - destruct (@upload_validation whole_runtime (canned (Ok None))
                (repeat Byte.x00 (N.to_nat (5 * 1024 * 1024))) None None)
      as (_ & _ & H).
    destruct H as (_ & H & _).
    + intros E. apply (f_equal (@length _)) in E.
      rewrite repeat_length in E. cbn [length] in E. lia.
    + rewrite repeat_length, N2Nat.id. discriminate.
    + now apply (H (repeat Byte.x00 (N.to_nat (5 * 1024 * 1024)), str "image/jpeg")).
Defined.

Lemma trailing_comma_repair_witness :
  let raw := text "{'people_count': 3, 'crowd_score': 2,}" in
  extract_first_json (rt := whole_runtime) raw
  = json_loads (re_sub comma_bracket_re (str "]") (re_sub comma_brace_re (str "}") raw)).
Proof.
  cbv zeta.
  apply (proj1 (@trailing_comma_repair whole_runtime (canned (Ok None))));
    reflexivity.
Defined.

Lemma no_json_object_502_witness :
  let raw := str "Sorry, I cannot analyze this image." in
  extract_first_json (rt := whole_runtime) raw
  = Raise (ValueError "No JSON object found in model response")
  /\ analyze_image (sv := canned (Ok (Some raw))) [Byte.x00] (Some (str "image/png")) None
     = HTTPException 502 "Model returned unexpected output format".
Proof.
  cbv zeta.
  assert (Hno : no_json_object (str "Sorry, I cannot analyze this image.")).
  { apply no_open_brace. cbv. intuition discriminate. }
  destruct (@no_json_object_502 whole_runtime
              (canned (Ok (Some (str "Sorry, I cannot analyze this image."))))
              _ Hno) as (E & _ & H).
  split; [exact E|].
  apply (H [Byte.x00] (Some (str "image/png")) None
           ([Byte.x00], str "image/png"));
    [discriminate | discriminate | reflexivity | reflexivity].
Defined.

(** [whole_runtime] keeps the laws of floats. *)
Lemma whole_laws : FloatLaws whole_runtime.
Proof.
  split.
  - reflexivity.
  - reflexivity.
  - reflexivity.
  - intros [| | |z]; try discriminate. reflexivity.
  - intros [| | |z]; try discriminate. reflexivity.
  - intros s i f e rest x _. cbn. unfold whole_of_str.
    destruct (match_number (i ++ f ++ e)) as [[[[i' f'] e'] [|c r]]|];
      try discriminate.
    intros [= <-]. discriminate.
  - intros [| | |z]; try discriminate. intros _.
    exists (int_repr z), (str ".0"), []. split; [|discriminate].
    cbn [float_repr whole_runtime whole_repr]. unfold match_number.
    rewrite match_integer_int_repr by reflexivity. reflexivity.
  - intros [| | |z]; try discriminate. intros _.
    cbn [float_repr float_of_str whole_runtime whole_repr]. unfold whole_of_str, match_number.
    rewrite match_integer_int_repr by reflexivity. cbn.
    now rewrite int_of_literal_repr.
Qed.

(** C7 as the spec has it fails.  In the text below the string of "a"
    is a high surrogate, as a character of the text, followed by the
    escape of a low surrogate: the decoder keeps the two apart, the
    encoder writes two escapes, and the decoder reads these as one
    character. *)
Definition split_pair_text : pystr :=
  text "{'a': '" ++ [0xD83D%N] ++ str "\ude00" ++ text "'}".

Lemma split_pair_is_joined (rt : PyRuntime) :
  extract_first_json split_pair_text = Ok (VDict [(str "a", VStr [0xD83D; 0xDE00]%N)])
  /\ json_dumps (VDict [(str "a", VStr [0xD83D; 0xDE00]%N)])
     = text "{'a': '\ud83d\ude00'}"
  /\ extract_first_json (text "{'a': '\ud83d\ude00'}")
     = Ok (VDict [(str "a", VStr [0x1F600%N])]).
Proof. split; [|split]; reflexivity. Qed.

Lemma extraction_not_idempotent :
  ~ (forall (rt : PyRuntime), FloatLaws rt ->
     forall (raw : pystr) (obj : value),
       valid raw -> extract_first_json raw = Ok obj ->
       extract_first_json (json_dumps obj) = Ok obj).
Proof.
  intros H.
  destruct (split_pair_is_joined whole_runtime) as (E1 & E2 & E3).
  specialize (H whole_runtime whole_laws split_pair_text _ eq_refl E1).
  rewrite E2, E3 in H. discriminate H.
Qed.

Definition sample_reply : pystr :=
  text "Here you go: {'people_count': 12, 'confidence': 88.0, 'rationale': 'caf\u00e9 \ud83d\ude00', 'departure_info': [{'gate': '12'}, null, -3],} Bye.".

Lemma extraction_idempotent_witness :
  exists obj,
    extract_first_json (rt := whole_runtime) sample_reply = Ok obj
    /\ obj = VDict [(str "people_count", VInt 12);
                    (str "confidence", VFloat (WInt 88 : @pyfloat whole_runtime));
                    (str "rationale", VStr [99; 97; 102; 0xE9; 32; 0x1F600]%N);
                    (str "departure_info",
                     VList [VDict [(str "gate", VStr (str "12"))]; VNone; VInt (-3)])]
    /\ extract_first_json (json_dumps obj) = Ok obj.
Proof.
  eexists. split; [reflexivity|]. split; [reflexivity|].
  refine (proj2 (@extraction_idempotent whole_runtime whole_laws sample_reply _ _ _ _));
    [reflexivity|reflexivity|left; reflexivity].
Defined.

(** * More of the handler

    The theorems above settle single fields and single steps.  What
    follows is about the handler as a whole: which responses it can give and when,
    what normalization reads of the parsed response, and what
    [extract_first_json] takes of the text around the object. *)

Section Handler.

Context {rt : PyRuntime} {sv : Services}.

(** An upload that passes step 1 (lines 107-112). *)
Definition accepted (contents : list Byte.byte) : Prop :=
  contents <> [] /\ (N.of_nat (length contents) <= MAX_UPLOAD_BYTES)%N.

Lemma analyze_accepted (contents : list Byte.byte) (content_type user_id : option pystr) :
  accepted contents ->
  analyze_image contents content_type user_id = analyze_valid contents content_type.
Proof.
  intros [Hne Hsmall]. unfold analyze_image.
  destruct contents as [|b contents]; [now destruct Hne|].
  apply N.ltb_ge in Hsmall. now rewrite Hsmall.
Qed.



(** X2.  The handler comes to its return statement (line 199), with
    status 200, exactly when every step succeeds: the upload is accepted,
    the image part is built, the model answers, an object is extracted
    from its text (the empty text when it has none) and the object is
    normalized; the content of the response is then the normalized
    result. *)
Theorem success_iff_every_step (contents : list Byte.byte)
  (content_type user_id : option pystr) (code : Z) (r : CrowdResult) :
  analyze_image contents content_type user_id = JSONResponse code r
  <-> code = 200%Z
      /\ accepted contents
      /\ exists image reply parsed,
           Part_from_bytes contents (str_or content_type (str "image/jpeg")) = Ok image
           /\ generate_content MODEL_NAME (py_strip SYSTEM_PROMPT) image = Ok reply
           /\ extract_first_json (str_or reply []) = Ok parsed
           /\ normalize parsed = Ok r.
Proof.
  split.
  - intros H.
    assert (Hacc : accepted contents).
    { destruct contents as [|b contents]; [discriminate H|].
      split; [discriminate|]. unfold analyze_image in H.
      destruct (MAX_UPLOAD_BYTES <? _)%N eqn:E; [discriminate H|].
      now apply N.ltb_ge. }
    rewrite (analyze_accepted _ _ _ Hacc) in H. unfold analyze_valid in H.
    destruct (Part_from_bytes _ _) as [image|] eqn:E1; [|discriminate H].
    unfold respond in H.
    destruct (generate_content _ _ image) as [reply|] eqn:E2; [|discriminate H].
    destruct (extract_first_json _) as [parsed|] eqn:E3; [|discriminate H].
    destruct (normalize parsed) as [r'|] eqn:E4; [|discriminate H].
    injection H as <- <-. split; [reflexivity|]. split; [assumption|].
    exists image, reply, parsed. auto.
  - intros (-> & Hacc & image & reply & parsed & E1 & E2 & E3 & E4).
    rewrite (analyze_accepted _ _ _ Hacc). unfold analyze_valid. rewrite E1.
    unfold respond. now rewrite E2, E3, E4.
Qed.

(** X3.  Step 2 (lines 114-119): when [Part.from_bytes] raises on an
    accepted upload, whatever it raises, the answer is 500 "Failed to
    prepare image for analysis"; the content type it is given is the one of
    the upload, or "image/jpeg" when the upload has none or an empty one. *)
Theorem image_part_failure_500 (contents : list Byte.byte)
  (content_type user_id : option pystr) (e : exn) :
  accepted contents ->
  Part_from_bytes contents
    (match content_type with
     | None | Some [] => str "image/jpeg"
     | Some mime_type => mime_type
     end) = Raise e ->
  analyze_image contents content_type user_id
  = HTTPException 500 "Failed to prepare image for analysis".
Proof.
  intros Hacc He. rewrite (analyze_accepted _ _ _ Hacc). unfold analyze_valid.
  assert (E : str_or content_type (str "image/jpeg")
              = match content_type with
                | None | Some [] => str "image/jpeg"
                | Some mime_type => mime_type
                end) by now destruct content_type as [[|c s]|].
  now rewrite E, He.
Qed.

(** X4.  Step 3 (lines 121-133): when the call of the model raises, whatever
    it raises, the answer is 502 "Vision model request failed". *)
Theorem model_failure_502 (contents : list Byte.byte)
  (content_type user_id : option pystr) (image : image_part) (e : exn) :
  accepted contents ->
  Part_from_bytes contents (str_or content_type (str "image/jpeg")) = Ok image ->
  generate_content MODEL_NAME (py_strip SYSTEM_PROMPT) image = Raise e ->
  analyze_image contents content_type user_id
  = HTTPException 502 "Vision model request failed".
Proof.
  intros Hacc E1 E2. rewrite (analyze_accepted _ _ _ Hacc). unfold analyze_valid.
  rewrite E1. unfold respond. now rewrite E2.
Qed.

Lemma extract_nil :
  extract_first_json [] = Raise (ValueError "No JSON object found in model response").
Proof. reflexivity. Qed.

(** X5.  Step 4 (lines 130-141): when [extract_first_json] raises on the
    text of the model, whatever it raises (no object found, or a text still
    rejected after the repair), the answer is 502 "Model returned unexpected
    output format"; so it is when the model gives no text or an empty one,
    for line 130 makes both the empty text. *)
Theorem extraction_failure_502 (contents : list Byte.byte)
  (content_type user_id : option pystr) (image : image_part) (reply : option pystr) :
  accepted contents ->
  Part_from_bytes contents (str_or content_type (str "image/jpeg")) = Ok image ->
  generate_content MODEL_NAME (py_strip SYSTEM_PROMPT) image = Ok reply ->
  (reply = None \/ reply = Some []
   \/ exists raw e, reply = Some raw /\ extract_first_json raw = Raise e) ->
  analyze_image contents content_type user_id
  = HTTPException 502 "Model returned unexpected output format".
Proof.
  intros Hacc E1 E2 Hreply. rewrite (analyze_accepted _ _ _ Hacc). unfold analyze_valid.
  rewrite E1. unfold respond. rewrite E2.
  assert (E : exists e, extract_first_json (str_or reply []) = Raise e).
  { destruct Hreply as [->|[->|(raw & e & -> & He)]].
    - eexists. apply extract_nil.
    - eexists. apply extract_nil.
    - exists e. now rewrite str_or_nil. }
  destruct E as (e & ->). reflexivity.
Qed.

(** X6.  Step 5 (lines 143-197): when normalization of the extracted object
    raises, whatever it raises, the answer is 500 "Failed to normalize model
    response". *)
Theorem normalization_failure_500 (contents : list Byte.byte)
  (content_type user_id : option pystr) (image : image_part) (reply : option pystr)
  (parsed : value) (e : exn) :
  accepted contents ->
  Part_from_bytes contents (str_or content_type (str "image/jpeg")) = Ok image ->
  generate_content MODEL_NAME (py_strip SYSTEM_PROMPT) image = Ok reply ->
  extract_first_json (str_or reply []) = Ok parsed ->
  normalize parsed = Raise e ->
  analyze_image contents content_type user_id
  = HTTPException 500 "Failed to normalize model response".
Proof.
  intros Hacc E1 E2 E3 E4. rewrite (analyze_accepted _ _ _ Hacc). unfold analyze_valid.
  rewrite E1. unfold respond. now rewrite E2, E3, E4.
Qed.

End Handler.

Section Fields.

Context {rt : PyRuntime} {sv : Services}.

(** ** What normalization reads *)

(** The keys that step 5 reads. *)
Definition field_names : list pystr :=
  [str "people_count"; str "crowd_score"; str "crowd_label"; str "confidence";
   str "rationale"; str "screen_detected"; str "departure_type"; str "departure_info"].

(** Normalization is a function of what the dict holds at these keys. *)
Lemma normalize_ext (d d' : pydict) :
  (forall k, In k field_names -> dict_lookup d k = dict_lookup d' k) ->
  normalize (VDict d) = normalize (VDict d').
Proof.
  intros H.
  assert (Hget : forall k v, In k field_names -> py_get_default d k v = py_get_default d' k v).
  { intros k v Hk. unfold py_get_default. now rewrite (H k Hk). }
  unfold normalize, norm_people_count, norm_crowd_score, norm_confidence,
    norm_screen_detected, norm_departure_type, norm_departure_info, py_get.
  rewrite !Hget by (cbn; tauto). reflexivity.
Qed.

Lemma str_eqb_refl (k : pystr) : str_eqb k k = true.
Proof. now apply str_eqb_eq. Qed.

Lemma str_eqb_neq (k k' : pystr) : k <> k' -> str_eqb k k' = false.
Proof.
  intros H. destruct (str_eqb k k') eqn:E; [|reflexivity].
  apply str_eqb_eq in E. now destruct H.
Qed.

Lemma dict_lookup_set (d : pydict) (k k' : pystr) (v : value) :
  dict_lookup (dict_set d k v) k' = if str_eqb k' k then Some v else dict_lookup d k'.
Proof.
  induction d as [|[k0 v0] d IH]; cbn [dict_set dict_lookup].
  - reflexivity.
  - destruct (str_eqb k k0) eqn:E; cbn [dict_lookup].
    + apply str_eqb_eq in E. subst k0. now destruct (str_eqb k' k).
    + rewrite IH. destruct (str_eqb k' k0) eqn:E0; [|reflexivity].
      apply str_eqb_eq in E0. subst k0.
      destruct (str_eqb k' k) eqn:E1; [|reflexivity].
      apply str_eqb_eq in E1. subst k'. now rewrite str_eqb_refl in E.
Qed.

(** X7.  A key that step 5 does not read changes nothing: the response
    normalizes in the same way (to the same result or the same exception)
    with the key set to any value, and with the key taken out. *)
Theorem unknown_keys_ignored (parsed : pydict) (k : pystr) (v : value) :
  ~ In k field_names ->
  normalize (VDict (dict_set parsed k v)) = normalize (VDict parsed)
  /\ normalize (VDict (dict_del parsed k)) = normalize (VDict parsed).
Proof.
  intros Hk. split; apply normalize_ext; intros k' Hk'.
  - rewrite dict_lookup_set, str_eqb_neq; [reflexivity|]. now intros ->.
  - rewrite dict_lookup_del, str_eqb_neq; [reflexivity|]. now intros ->.
Qed.

Lemma dict_lookup_In (d : pydict) (k : pystr) (v : value) :
  NoDup (map fst d) -> In (k, v) d -> dict_lookup d k = Some v.
Proof.
  induction d as [|[k0 v0] d IH]; intros Hnd Hin; [now destruct Hin|].
  cbn [map fst] in Hnd. inversion Hnd as [|? ? Hfresh Hnd']; subst.
  cbn [dict_lookup]. destruct Hin as [[= -> ->]|Hin].
  - now rewrite str_eqb_refl.
  - rewrite str_eqb_neq; [now apply IH|].
    intros ->. apply Hfresh. now apply (in_map fst) in Hin.
Qed.

Lemma dict_lookup_None (d : pydict) (k : pystr) :
  ~ In k (map fst d) -> dict_lookup d k = None.
Proof.
  induction d as [|[k0 v0] d IH]; intros Hin; [reflexivity|].
  cbn [dict_lookup]. rewrite str_eqb_neq.
  - apply IH. intros H. apply Hin. now right.
  - intros ->. apply Hin. now left.
Qed.

Lemma dict_lookup_Some_In (d : pydict) (k : pystr) (v : value) :
  dict_lookup d k = Some v -> In (k, v) d.
Proof.
  induction d as [|[k0 v0] d IH]; [discriminate|]. cbn [dict_lookup].
  destruct (str_eqb k k0) eqn:E.
  - apply str_eqb_eq in E. subst. intros [= ->]. now left.
  - intros H. right. now apply IH.
Qed.

Lemma dict_lookup_perm (d d' : pydict) (k : pystr) :
  NoDup (map fst d) -> Permutation d d' -> dict_lookup d k = dict_lookup d' k.
Proof.
  intros Hnd Hperm.
  assert (Hnd' : NoDup (map fst d')).
  { apply (Permutation_NoDup (l := map fst d)); [now apply Permutation_map|assumption]. }
  destruct (dict_lookup d k) as [v|] eqn:E.
  - symmetry. apply dict_lookup_In; [assumption|].
    apply (Permutation_in _ Hperm). now apply dict_lookup_Some_In.
  - destruct (dict_lookup d' k) as [v'|] eqn:E'; [|reflexivity].
    apply dict_lookup_Some_In in E'.
    apply (Permutation_in _ (Permutation_sym Hperm)) in E'.
    rewrite (dict_lookup_In _ _ _ Hnd E') in E. discriminate E.
Qed.

(** X8.  The order in which the response lists its keys changes nothing: two
    dicts with the same items (a dict has no key twice) normalize in the
    same way. *)
Theorem key_order_irrelevant (parsed parsed' : pydict) :
  NoDup (map fst parsed) -> Permutation parsed parsed' ->
  normalize (VDict parsed) = normalize (VDict parsed').
Proof.
  intros Hnd Hperm. apply normalize_ext. intros k _. now apply dict_lookup_perm.
Qed.

(** X9.  A response with none of the eight keys, the empty object among
    them, is normalized without failure: every field is unset but
    [rationale], which is the empty string, [departure_type], which is
    "none", and [departure_info], which is the empty list. *)
Theorem no_field_defaults (parsed : pydict) :
  (forall k, In k field_names -> dict_lookup parsed k = None) ->
  normalize (VDict parsed)
  = Ok {| people_count := None; crowd_score := None; crowd_label := None;
          confidence := None; rationale := Some []; screen_detected := None;
          departure_type := Some (str "none"); departure_info := Some [] |}.
Proof.
  intros H. rewrite (normalize_ext parsed []); [reflexivity|].
  intros k Hk. now rewrite H.
Qed.

(** ** When normalization fails *)

(** A value that a conversion accepts, or [None], which is not
    converted. *)
Definition coercible {A : Type} (f : value -> result A) (v : value) : Prop :=
  v = VNone \/ exists a, f v = Ok a.

(** A value that a field declared [Optional[str]] accepts. *)
Definition accepted_str (v : value) : Prop :=
  match v with
  | VNone | VStr _ => True
  | _ => exists s, pydantic_str v = Ok s
  end.

Lemma validate_str_accepted (v : value) :
  (exists s, validate_str v = Ok s) <-> accepted_str v.
Proof.
  destruct v; cbn [validate_str accepted_str];
    try (split; [trivial|intros _; eexists; reflexivity]).
  all: destruct (pydantic_str _) as [s|e]; cbn [bind]; split; intros (y & H);
    try discriminate H; eexists; reflexivity.
Qed.

Lemma norm_coercible {A : Type} (f : value -> result A) (g : A -> A) (v : value) :
  (exists r, match v with
             | VNone => Ok None
             | _ => n <- f v ;; Ok (Some (g n))
             end = Ok r)
  <-> coercible f v.
Proof.
  unfold coercible. split.
  - intros (r & H). destruct (f v) as [a|e] eqn:E; [right; eauto|].
    destruct v; cbn in H; try discriminate H. now left.
  - intros [->|(a & E)]; [eauto|]. rewrite E. destruct v; cbn; eauto.
Qed.

(** X10.  Normalization succeeds exactly when [int] accepts [people_count]
    and [crowd_score], [float] accepts [confidence] (each of them when it is
    there and not [null]) and pydantic accepts [crowd_label] and
    [rationale] as strings.  So [screen_detected], [departure_type] and
    [departure_info] never make it fail, whatever they hold. *)
Theorem normalize_succeeds_iff (parsed : pydict) :
  (exists r, normalize (VDict parsed) = Ok r)
  <-> coercible py_int (py_get parsed (str "people_count"))
      /\ coercible py_int (py_get parsed (str "crowd_score"))
      /\ coercible py_float (py_get parsed (str "confidence"))
      /\ accepted_str (py_get parsed (str "crowd_label"))
      /\ accepted_str (py_get_default parsed (str "rationale") (VStr [])).
Proof.
  rewrite <- (norm_coercible py_int (fun n => n)).
  rewrite <- (norm_coercible py_int (fun n => Z.max 1 (Z.min 10 n))).
  rewrite <- (norm_coercible py_float (fun x => x)).
  rewrite <- !validate_str_accepted.
  fold (norm_people_count parsed) (norm_crowd_score parsed) (norm_confidence parsed).
  split.
  - intros (r & H). destruct (normalize_fields _ _ H) as (H1 & H2 & H3 & H4 & H5 & _).
    eauto 10.
  - intros ((pc & H1) & (cs & H2) & (cf & H3) & (lb & H4) & (ra & H5)).
    destruct (validate_dicts_filter
                (match py_get parsed (str "departure_info") with
                 | VList l => l
                 | _ => []
                 end)) as (entries & He & _).
    assert (He' : validate_dicts (norm_departure_info parsed) = Ok entries).
    { unfold norm_departure_info. destruct (py_get parsed (str "departure_info")); exact He. }
    unfold normalize, CrowdResult_new. rewrite H1, H2, H3. cbn [bind].
    rewrite H4, H5, He'. cbn [bind]. eauto.
Qed.

(** ** The fields no claim is about *)

(** X11.  [crowd_label] and [rationale] (lines 155 and 160) are passed on as
    the model sent them: a string is kept as it is, whatever it says, and
    [null] stays unset.  A response without the key has [crowd_label] unset
    and the empty string for [rationale]. *)
Theorem string_fields_passed_on (parsed : pydict) (r : CrowdResult) :
  normalize (VDict parsed) = Ok r ->
  (forall s, py_get parsed (str "crowd_label") = VStr s -> crowd_label r = Some s)
  /\ (py_get parsed (str "crowd_label") = VNone -> crowd_label r = None)
  /\ (forall s, dict_lookup parsed (str "rationale") = Some (VStr s) -> rationale r = Some s)
  /\ (dict_lookup parsed (str "rationale") = Some VNone -> rationale r = None)
  /\ (dict_lookup parsed (str "rationale") = None -> rationale r = Some []).
Proof.
  intros Hnorm. destruct (normalize_fields _ _ Hnorm) as (_ & _ & _ & Hlb & Hra & _).
  unfold py_get_default in Hra. repeat split.
  - intros s E. rewrite E in Hlb. now injection Hlb.
  - intros E. rewrite E in Hlb. now injection Hlb.
  - intros s E. rewrite E in Hra. now injection Hra.
  - intros E. rewrite E in Hra. now injection Hra.
  - intros E. rewrite E in Hra. now injection Hra.
Qed.

(** X12.  [confidence] (lines 156-158) is what [float] makes of the value
    and is not clamped: a float of the response is kept as it is, whatever
    its value, and an absent or [null] one stays unset. *)
Theorem confidence_coerced (parsed : pydict) (r : CrowdResult) :
  normalize (VDict parsed) = Ok r ->
  (py_get parsed (str "confidence") = VNone -> confidence r = None)
  /\ (py_get parsed (str "confidence") <> VNone ->
      exists x, confidence r = Some x
                /\ py_float (py_get parsed (str "confidence")) = Ok x)
  /\ (forall x, py_get parsed (str "confidence") = VFloat x -> confidence r = Some x).
Proof.
  intros Hnorm. destruct (normalize_fields _ _ Hnorm) as (_ & _ & Hcf & _).
  unfold norm_confidence in Hcf. repeat split.
  - intros E. rewrite E in Hcf. now injection Hcf.
  - intros Hv.
    destruct (py_float (py_get parsed (str "confidence"))) as [x|e] eqn:Ex;
      destruct (py_get parsed (str "confidence")); try (now destruct Hv);
      cbn in Hcf; try discriminate Hcf; injection Hcf as <-; eauto.
  - intros x E. rewrite E in Hcf. cbn in Hcf. now injection Hcf.
Qed.

(** X13.  [screen_detected] (lines 163-165) is the truth value of what the
    response holds, and unset when that is absent or [null].  A string that
    is not empty is true whatever it says, the string "false" too; 0, the
    empty string, the empty list and the empty object are false. *)
Theorem screen_detected_truth_value (parsed : pydict) (r : CrowdResult) :
  normalize (VDict parsed) = Ok r ->
  (py_get parsed (str "screen_detected") = VNone -> screen_detected r = None)
  /\ (py_get parsed (str "screen_detected") <> VNone ->
      screen_detected r = Some (py_bool (py_get parsed (str "screen_detected"))))
  /\ (forall s, py_get parsed (str "screen_detected") = VStr s ->
      screen_detected r = Some (negb (str_eqb s [])))
  /\ (forall n, py_get parsed (str "screen_detected") = VInt n ->
      screen_detected r = Some (negb (n =? 0)%Z))
  /\ (py_get parsed (str "screen_detected") = VList []
      \/ py_get parsed (str "screen_detected") = VDict [] ->
      screen_detected r = Some false).
Proof.
  intros Hnorm. destruct (normalize_fields _ _ Hnorm) as (_ & _ & _ & _ & _ & Hsd & _).
  rewrite Hsd. unfold norm_screen_detected. repeat split.
  - now intros ->.
  - intros Hv. destruct (py_get parsed (str "screen_detected")); try reflexivity.
    now destruct Hv.
  - intros s ->. now destruct s.
  - now intros n ->.
  - now intros [-> | ->].
Qed.

(** X14.  [crowd_score] at the edges (lines 150-153): absent or [null] it
    stays unset, and is not made 1; [true] and [false] are the integers 1
    and 0 for [int], so both give 1. *)
Theorem crowd_score_unset_or_bool (parsed : pydict) (r : CrowdResult) :
  normalize (VDict parsed) = Ok r ->
  (py_get parsed (str "crowd_score") = VNone -> crowd_score r = None)
  /\ (dict_lookup parsed (str "crowd_score") = None -> crowd_score r = None)
  /\ (forall b, py_get parsed (str "crowd_score") = VBool b -> crowd_score r = Some 1%Z).
Proof.
  intros Hnorm. destruct (normalize_fields _ _ Hnorm) as (_ & Hcs & _).
  unfold norm_crowd_score in Hcs.
  assert (Hnone : py_get parsed (str "crowd_score") = VNone -> crowd_score r = None).
  { intros E. rewrite E in Hcs. now injection Hcs. }
  repeat split.
  - exact Hnone.
  - intros E. apply Hnone. unfold py_get, py_get_default. now rewrite E.
  - intros b E. rewrite E in Hcs. cbn in Hcs. injection Hcs as <-. now destruct b.
Qed.

End Fields.

(** * More of [extract_first_json] *)

Section Candidate.

Context {rt : PyRuntime}.

(** ** The candidate (line 50) *)

(** [[\s\S]*\}] fails only on a text with no closing brace. *)
Lemma star_any_none (s : pystr) :
  star_match any_char (re_match [One (Chr 125)]) s = None -> ~ In 125%N s.
Proof.
  induction s as [|c s IH]; [intros _ []|].
  cbn [star_match]. rewrite any_char_ok.
  destruct (star_match any_char (re_match [One (Chr 125)]) s) as [[m rest]|];
    [discriminate|].
  cbn. destruct (N.eqb_spec c 125) as [->|Hc]; [discriminate|].
  intros _ [E|Hin]; [now destruct Hc|]. now apply IH.
Qed.

(** It takes the text up to the last closing brace. *)
Lemma star_any_to_last (mid post : pystr) :
  ~ In 125%N post ->
  star_match any_char (re_match [One (Chr 125)]) (mid ++ 125%N :: post)
  = Some (mid ++ [125%N], post).
Proof.
  intros Hpost. induction mid as [|c mid IH].
  - cbn [app star_match]. now rewrite any_char_ok, (star_any_no_brace _ Hpost).
  - cbn [app star_match]. now rewrite any_char_ok, IH.
Qed.

Lemma star_any_inv (s m rest : pystr) :
  star_match any_char (re_match [One (Chr 125)]) s = Some (m, rest) ->
  exists mid, m = mid ++ [125%N] /\ s = m ++ rest /\ ~ In 125%N rest.
Proof.
  revert m rest. induction s as [|c s IH]; intros m rest; [discriminate|].
  cbn [star_match]. rewrite any_char_ok.
  destruct (star_match any_char (re_match [One (Chr 125)]) s) as [[m' rest']|] eqn:E.
  - intros [= <- <-]. destruct (IH _ _ eq_refl) as (mid & -> & -> & Hrest).
    exists (c :: mid). repeat split; assumption.
  - cbn. destruct (N.eqb_spec c 125) as [->|Hc]; [|discriminate].
    intros [= <- <-]. exists []. repeat split. now apply star_any_none.
Qed.

Lemma search_skips (pre s : pystr) :
  ~ In 123%N pre -> re_search json_object_re (pre ++ s) = re_search json_object_re s.
Proof.
  induction pre as [|c pre IH]; intros Hpre; [reflexivity|].
  cbn [app re_search]. unfold json_object_re at 1. rewrite re_match_one. cbn [atom_ok].
  destruct (N.eqb_spec c 123) as [->|_]; [destruct Hpre; now left|].
  apply IH. intros H. apply Hpre. now right.
Qed.

Lemma search_first_to_last (pre mid post : pystr) :
  ~ In 123%N pre -> ~ In 125%N post ->
  re_search json_object_re (pre ++ 123%N :: mid ++ 125%N :: post)
  = Some (123%N :: mid ++ [125%N]).
Proof.
  intros Hpre Hpost. rewrite (search_skips _ _ Hpre).
  cbn [re_search]. unfold json_object_re. rewrite re_match_one, re_match_star.
  cbn [atom_ok]. now rewrite N.eqb_refl, (star_any_to_last _ _ Hpost).
Qed.

(** X15.  The candidate is the text from the first opening brace to the last
    closing brace, when the second comes after the first: a text [m] is the
    candidate exactly when it starts with an opening brace, ends with a
    closing one, and stands in the raw text after a text with no opening
    brace and before a text with no closing brace. *)
Theorem candidate_first_to_last_brace (raw m : pystr) :
  re_search json_object_re raw = Some m
  <-> exists pre mid post,
        raw = pre ++ m ++ post /\ m = 123%N :: mid ++ [125%N]
        /\ ~ In 123%N pre /\ ~ In 125%N post.
Proof.
  split.
  - induction raw as [|c raw IH]; [discriminate|]. cbn [re_search].
    destruct (re_match json_object_re (c :: raw)) as [[m' rest]|] eqn:E.
    + intros [= <-]. unfold json_object_re in E.
      rewrite re_match_one, re_match_star in E. cbn [atom_ok] in E.
      destruct (N.eqb_spec c 123) as [->|_]; [|discriminate E].
      destruct (star_match _ _ raw) as [[m1 rest1]|] eqn:Es; [|discriminate E].
      injection E as <- <-.
      apply star_any_inv in Es as (mid & -> & -> & Hrest).
      exists [], mid, rest1. repeat split; auto.
    + intros H. destruct (IH H) as (pre & mid & post & -> & -> & Hpre & Hpost).
      exists (c :: pre), mid, post. repeat split; [|assumption].
      intros [->|Hin]; [|auto].
      unfold json_object_re in E. rewrite re_match_one, re_match_star in E.
      cbn [atom_ok] in E. rewrite N.eqb_refl in E.
      replace (pre ++ (123%N :: mid ++ [125%N]) ++ post)
        with ((pre ++ 123%N :: mid) ++ 125%N :: post) in E
        by (cbn; now rewrite <- !app_assoc).
      rewrite (star_any_to_last _ _ Hpost) in E. discriminate E.
  - intros (pre & mid & post & -> & -> & Hpre & Hpost).
    cbn [app]. rewrite <- app_assoc. now apply search_first_to_last.
Qed.

(** X16.  So the text before the first opening brace and the text after the
    last closing brace count for nothing: extraction gives what it gives on
    the text between them (the same object or the same exception). *)
Theorem text_around_object_ignored (pre mid post : pystr) :
  ~ In 123%N pre -> ~ In 125%N post ->
  extract_first_json (pre ++ 123%N :: mid ++ 125%N :: post)
  = extract_first_json (123%N :: mid ++ [125%N]).
Proof.
  intros Hpre Hpost. unfold extract_first_json.
  now rewrite search_first_to_last, search_whole_object.
Qed.

(** X17.  What [extract_first_json] returns is a dict, on every text: the
    [.get] calls of step 5 are calls on a dict. *)
Theorem extract_returns_dict (raw : pystr) (obj : value) :
  extract_first_json raw = Ok obj -> exists d, obj = VDict d.
Proof.
  unfold extract_first_json.
  destruct (re_search json_object_re raw) as [candidate|] eqn:Es; [|discriminate].
  destruct (re_search_object _ _ Es) as (body & ->).
  destruct (json_loads (123%N :: body)) as [v|e] eqn:El.
  - intros [= <-]. now apply (json_loads_object _ _ El).
  - assert (H : json_loads (re_sub comma_bracket_re (str "]")
                              (re_sub comma_brace_re (str "}") (123%N :: body)))
                = Ok obj -> exists d, obj = VDict d).
    { unfold comma_brace_re, comma_bracket_re. rewrite re_sub_object.
      rewrite re_sub_object. apply json_loads_object. }
    destruct e; try discriminate. exact H.
Qed.

(** ** The repair (lines 58-62) *)

(** The pattern of a repair: a comma, whitespace, [close]. *)
Definition comma_re (close : N) : regex :=
  [One (Chr 44); Star (Cls is_space); One (Chr close)].

(** The text holds a comma followed, at once or after whitespace, by
    [close]. *)
Definition comma_before (close : N) (s : pystr) : Prop :=
  exists pre ws post,
    s = pre ++ 44%N :: ws ++ close :: post /\ forallb is_space ws = true.

Lemma star_space_inv (close : N) (s m rest : pystr) :
  star_match (Cls is_space) (re_match [One (Chr close)]) s = Some (m, rest) ->
  exists ws, forallb is_space ws = true /\ s = ws ++ close :: rest.
Proof.
  revert m rest. induction s as [|c s IH]; intros m rest; [discriminate|].
  assert (Hk : re_match [One (Chr close)] (c :: s) = Some (m, rest) ->
               exists ws, forallb is_space ws = true /\ c :: s = ws ++ close :: rest).
  { cbn. destruct (N.eqb_spec c close) as [->|_]; [|discriminate].
    intros [= <- <-]. now exists []. }
  cbn [star_match atom_ok]. destruct (is_space c) eqn:Ec; [|exact Hk].
  destruct (star_match (Cls is_space) (re_match [One (Chr close)]) s)
    as [[m' rest']|] eqn:E; [|exact Hk].
  intros [= <- <-]. destruct (IH _ _ eq_refl) as (ws & Hws & ->).
  exists (c :: ws). split; [|reflexivity]. cbn. now rewrite Ec.
Qed.

Lemma comma_re_match_inv (close : N) (s m rest : pystr) :
  re_match (comma_re close) s = Some (m, rest) -> comma_before close s.
Proof.
  unfold comma_re. destruct s as [|c s]; [discriminate|].
  rewrite re_match_one, re_match_star. cbn [atom_ok].
  destruct (N.eqb_spec c 44) as [->|_]; [|discriminate].
  destruct (star_match _ _ s) as [[m' rest']|] eqn:E; [|discriminate].
  intros _. apply star_space_inv in E as (ws & Hws & ->).
  now exists [], ws, rest'.
Qed.

Lemma comma_before_In (close : N) (s : pystr) : comma_before close s -> In 44%N s.
Proof. intros (pre & ws & post & -> & _). apply in_or_app. right. now left. Qed.

(** [re.sub] leaves a text with no match as it is. *)
Lemma re_sub_unchanged (close : N) (repl s : pystr) :
  ~ comma_before close s -> re_sub (comma_re close) repl s = s.
Proof.
  unfold re_sub. induction s as [|c s IH]; intros Hno; [reflexivity|].
  cbn [re_sub_from].
  destruct (re_match (comma_re close) (c :: s)) as [[m rest]|] eqn:E.
  - destruct Hno. eapply comma_re_match_inv, E.
  - f_equal. apply IH. intros (pre & ws & post & -> & Hws).
    apply Hno. now exists (c :: pre), ws, post.
Qed.

(** X18.  The repair changes only a text with a comma followed, at once or
    after whitespace, by a closing brace or bracket.  On any other candidate
    the result of [extract_first_json] is the result of [json.loads] on the
    candidate: what it rejects for another reason stays rejected. *)
Theorem repair_needs_trailing_comma (raw candidate : pystr) :
  re_search json_object_re raw = Some candidate ->
  ~ comma_before 125 candidate -> ~ comma_before 93 candidate ->
  re_sub comma_bracket_re (str "]") (re_sub comma_brace_re (str "}") candidate) = candidate
  /\ extract_first_json raw = json_loads candidate.
Proof.
  intros Hs Hbrace Hbracket.
  assert (E : re_sub comma_bracket_re (str "]") (re_sub comma_brace_re (str "}") candidate)
              = candidate).
  { change comma_brace_re with (comma_re 125). change comma_bracket_re with (comma_re 93).
    rewrite (re_sub_unchanged 125) by assumption.
    now apply re_sub_unchanged. }
  split; [exact E|]. unfold extract_first_json. rewrite Hs.
  destruct (json_loads candidate) as [v|e] eqn:El; [reflexivity|].
  destruct e; try reflexivity. now rewrite E.
Qed.

End Candidate.

Section Replies.

Context {rt : PyRuntime} {laws : FloatLaws rt} {sv : Services}.

(** ** An object in prose *)

(** The candidate in the text of an object with prose around it is the
    text of the object. *)
Lemma search_object_text (pre post : pystr) (d : pydict) :
  ~ In 123%N pre -> ~ In 125%N post ->
  re_search json_object_re (pre ++ json_dumps (VDict d) ++ post)
  = Some (json_dumps (VDict d)).
Proof.
  intros Hpre Hpost.
  assert (E : exists body, json_dumps (VDict d) = 123%N :: body ++ [125%N])
    by (eexists; reflexivity).
  destruct E as (body & ->). cbn [app]. rewrite <- app_assoc. cbn [app].
  now apply search_first_to_last.
Qed.

(** X19.  The text [json.dumps] writes for an object, with any text before
    it that holds no opening brace and any text after it that holds no
    closing brace (a sentence, a Markdown fence), is read back as the
    object. *)
Theorem object_in_prose (pre post : pystr) (d : pydict) :
  ~ In 123%N pre -> ~ In 125%N post ->
  decoded (VDict d) -> all_strings no_split_pair (VDict d) = true ->
  extract_first_json (pre ++ json_dumps (VDict d) ++ post) = Ok (VDict d).
Proof.
  intros Hpre Hpost Hdec Hsplit. unfold extract_first_json.
  rewrite (search_object_text _ _ _ Hpre Hpost).
  now rewrite (json_loads_dumps _ Hdec Hsplit).
Qed.

(** X20.  The whole handler on such a reply: an accepted upload, an image
    part, and a model whose text is an object in prose give 200 with the
    normalization of the object. *)
Theorem object_in_prose_200 (contents : list Byte.byte)
  (content_type user_id : option pystr) (image : image_part)
  (pre post : pystr) (d : pydict) (r : CrowdResult) :
  accepted contents ->
  Part_from_bytes contents (str_or content_type (str "image/jpeg")) = Ok image ->
  generate_content MODEL_NAME (py_strip SYSTEM_PROMPT) image
  = Ok (Some (pre ++ json_dumps (VDict d) ++ post)) ->
  ~ In 123%N pre -> ~ In 125%N post ->
  decoded (VDict d) -> all_strings no_split_pair (VDict d) = true ->
  normalize (VDict d) = Ok r ->
  analyze_image contents content_type user_id = JSONResponse 200 r.
Proof.
  intros Hacc E1 E2 Hpre Hpost Hdec Hsplit Hnorm.
  rewrite (analyze_accepted _ _ _ Hacc). unfold analyze_valid. rewrite E1.
  unfold respond. rewrite E2, str_or_nil.
  unfold extract_first_json. rewrite (search_object_text _ _ _ Hpre Hpost).
  now rewrite (json_loads_dumps _ Hdec Hsplit), Hnorm.
Qed.

End Replies.

Section Repair.

Context {rt : PyRuntime} {laws : FloatLaws rt}.

(** ** What the repair does to the text of an object *)

Definition no_comma (s : pystr) : bool := forallb (fun c => negb (c =? 44)%N) s.

(** The text starts with a character that is neither whitespace nor a
    closing brace or bracket. *)
Definition starts_ok (s : pystr) : bool :=
  match s with
  | c :: _ => negb (is_space c) && negb (c =? 125)%N && negb (c =? 93)%N
  | [] => false
  end.

(** Every comma of the text is followed by a space and then by such a
    character: no pattern of the repair matches in it. *)
Fixpoint settled (s : pystr) : bool :=
  match s with
  | [] => true
  | c :: t =>
      (if (c =? 44)%N then
         match t with
         | sp :: t' => (sp =? 32)%N && starts_ok t'
         | [] => false
         end
       else true)
      && settled t
  end.

Lemma starts_ok_app (a b : pystr) : starts_ok a = true -> starts_ok (a ++ b) = true.
Proof. now destruct a. Qed.

Lemma no_comma_app (a b : pystr) : no_comma (a ++ b) = no_comma a && no_comma b.
Proof. apply forallb_app. Qed.

Lemma no_comma_settled (s : pystr) : no_comma s = true -> settled s = true.
Proof.
  induction s as [|c s IH]; [reflexivity|]. cbn. intros H.
  apply andb_true_iff in H as [Hc Hs]. apply negb_true_iff in Hc.
  now rewrite Hc, IH.
Qed.

Lemma settled_app (a b : pystr) :
  settled a = true -> settled b = true -> settled (a ++ b) = true.
Proof.
  intros Ha Hb. induction a as [|c a IH]; [exact Hb|].
  cbn [settled] in Ha. apply andb_true_iff in Ha as [Hc Ha].
  cbn [app settled]. rewrite (IH Ha), andb_true_r.
  destruct (c =? 44)%N; [|reflexivity].
  destruct a as [|sp a']; [discriminate Hc|].
  apply andb_true_iff in Hc as [Hsp Hok]. cbn [app].
  now rewrite Hsp, starts_ok_app.
Qed.

Lemma settled_sep (b : pystr) :
  starts_ok b = true -> settled b = true -> settled (44%N :: 32%N :: b) = true.
Proof. intros Hok Hb. cbn. now rewrite Hok, Hb. Qed.

Lemma settled_join (xs : list pystr) :
  Forall (fun x => settled x = true /\ starts_ok x = true) xs ->
  settled (join (str ", ") xs) = true
  /\ (xs <> [] -> starts_ok (join (str ", ") xs) = true).
Proof.
  induction xs as [|x xs IH]; intros Hall; [now split|].
  inversion Hall as [|? ? [Hx Hok] Hxs]; subst. destruct (IH Hxs) as [Hs Hst].
  cbn [join]. destruct xs as [|x' xs]; [now split|].
  split; [|intros _; now apply starts_ok_app].
  apply settled_app; [assumption|]. apply settled_sep; [|assumption].
  now apply Hst.
Qed.

Lemma comma_re_no_match (close : N) (t : pystr) :
  close = 125%N \/ close = 93%N -> starts_ok t = true ->
  re_match (comma_re close) (44%N :: 32%N :: t) = None.
Proof.
  intros Hclose Hok. destruct t as [|x t]; [discriminate Hok|].
  cbn in Hok. apply andb_true_iff in Hok as [Hok H93].
  apply andb_true_iff in Hok as [Hsp H125].
  apply negb_true_iff in Hsp, H125, H93.
  unfold comma_re. rewrite re_match_one, re_match_star. cbn [atom_ok N.eqb Pos.eqb].
  change (star_match (Cls is_space) (re_match [One (Chr close)]) (32%N :: x :: t))
    with (match star_match (Cls is_space) (re_match [One (Chr close)]) (x :: t) with
          | Some (m, rest) => Some (32%N :: m, rest)
          | None => re_match [One (Chr close)] (32%N :: x :: t)
          end).
  cbn [star_match atom_ok]. rewrite Hsp. cbn [re_match atom_ok].
  destruct Hclose as [-> | ->].
  - now rewrite H125.
  - now rewrite H93.
Qed.

(** [re.sub] copies a settled text and goes on after it. *)
Lemma re_sub_from_settled (close : N) (repl a b : pystr) :
  close = 125%N \/ close = 93%N -> settled a = true ->
  re_sub_from (comma_re close) repl 0 (a ++ b)
  = a ++ re_sub_from (comma_re close) repl 0 b.
Proof.
  intros Hclose. induction a as [|c a IH]; intros Ha; [reflexivity|].
  cbn [settled] in Ha. apply andb_true_iff in Ha as [Hc Ha].
  cbn [app re_sub_from].
  assert (E : re_match (comma_re close) (c :: a ++ b) = None).
  { destruct (N.eqb_spec c 44) as [->|Hne].
    - destruct a as [|sp a']; [discriminate Hc|].
      apply andb_true_iff in Hc as [Hsp Hok]. apply N.eqb_eq in Hsp. subst sp.
      cbn [app]. apply comma_re_no_match; [assumption|]. now apply starts_ok_app.
    - unfold comma_re. rewrite re_match_one. cbn [atom_ok].
      now destruct (N.eqb_spec c 44). }
  rewrite E. f_equal. now apply IH.
Qed.

Lemma re_sub_from_skip (r : regex) (repl w b : pystr) :
  re_sub_from r repl (length w) (w ++ b) = re_sub_from r repl 0 b.
Proof.
  induction w as [|c w IH]; [reflexivity|]. cbn [length app re_sub_from]. exact IH.
Qed.

Lemma is_space_close (close : N) : close = 125%N \/ close = 93%N -> is_space close = false.
Proof. now intros [-> | ->]. Qed.

(** After a settled text, a comma, whitespace and [close] are replaced. *)
Lemma re_sub_from_match (close : N) (repl a ws b : pystr) :
  close = 125%N \/ close = 93%N -> settled a = true -> forallb is_space ws = true ->
  re_sub_from (comma_re close) repl 0 (a ++ 44%N :: ws ++ close :: b)
  = a ++ repl ++ re_sub_from (comma_re close) repl 0 b.
Proof.
  intros Hclose Ha Hws. rewrite (re_sub_from_settled _ _ _ _ Hclose Ha). f_equal.
  cbn [re_sub_from]. unfold comma_re at 1.
  rewrite (comma_close_match close ws b (is_space_close _ Hclose) Hws). f_equal.
  replace (pred (length (44%N :: ws ++ [close]))) with (length (ws ++ [close]))
    by reflexivity.
  replace (ws ++ close :: b) with ((ws ++ [close]) ++ b) by now rewrite <- app_assoc.
  apply re_sub_from_skip.
Qed.

(** *** The text of a value with no comma in its strings is settled *)

Lemma hex_digit_no_comma (n : N) : (hex_digit n =? 44)%N = false.
Proof. unfold hex_digit. destruct (n <? 10)%N; apply N.eqb_neq; lia. Qed.

Lemma escape_char_no_comma (c : N) :
  (c =? 44)%N = false -> no_comma (escape_char c) = true.
Proof.
  intros Hc. unfold escape_char, u_escape.
  repeat match goal with
         | |- context [if ?b then _ else _] => destruct b
         end;
    cbn; rewrite ?hex_digit_no_comma, ?Hc; reflexivity.
Qed.

Lemma escaped_no_comma (s : pystr) :
  no_comma s = true -> no_comma (flat_map escape_char s) = true.
Proof.
  induction s as [|c s IH]; [reflexivity|]. intros Hs. cbn in Hs.
  apply andb_true_iff in Hs as [Hc Hs]. apply negb_true_iff in Hc.
  cbn [flat_map]. now rewrite no_comma_app, escape_char_no_comma, IH.
Qed.

Lemma encode_no_comma (s : pystr) :
  no_comma s = true -> no_comma (encode_basestring_ascii s) = true.
Proof.
  intros Hs. unfold encode_basestring_ascii. rewrite !no_comma_app.
  now rewrite (escaped_no_comma _ Hs).
Qed.

Lemma digits_no_comma (ds : pystr) : forallb is_digit ds = true -> no_comma ds = true.
Proof.
  induction ds as [|c ds IH]; [reflexivity|]. intros H. cbn [forallb] in H.
  apply andb_true_iff in H as [Hc Hds].
  change (no_comma (c :: ds)) with (negb (c =? 44)%N && no_comma ds).
  rewrite (IH Hds), andb_true_r. unfold is_digit in Hc. apply andb_true_iff in Hc as [H1 H2].
  apply N.leb_le in H1, H2. apply negb_true_iff, N.eqb_neq. lia.
Qed.

Lemma int_repr_no_comma (n : Z) : no_comma (int_repr n) = true.
Proof.
  destruct (int_repr_shape n) as (ds & [Hds _] & [-> | ->]).
  - now apply digits_no_comma.
  - cbn. now apply digits_no_comma.
Qed.

Lemma span_forallb (p : N -> bool) (s a b : pystr) : span p s = (a, b) -> forallb p a = true.
Proof.
  revert a b. induction s as [|c s IH]; intros a b; cbn [span].
  - now intros [= <- <-].
  - destruct (p c) eqn:Ec; [|now intros [= <- <-]].
    destruct (span p s) as [a' b'] eqn:E. intros [= <- <-]. cbn.
    now rewrite Ec, (IH _ _ eq_refl).
Qed.

Lemma match_digits_no_comma (s ds r : pystr) :
  match_digits s = Some (ds, r) -> no_comma ds = true.
Proof.
  unfold match_digits. destruct s as [|c t]; [discriminate|].
  destruct ((49 <=? c) && (c <=? 57))%N eqn:E1.
  - destruct (span is_digit t) as [a b] eqn:Es. intros [= <- <-].
    apply digits_no_comma. cbn. rewrite (span_forallb _ _ _ _ Es), andb_true_r.
    apply andb_true_iff in E1 as [H1 H2]. apply N.leb_le in H1, H2.
    unfold is_digit. apply andb_true_iff. split; apply N.leb_le; lia.
  - destruct (N.eqb_spec c 48) as [->|_]; [|discriminate]. now intros [= <- <-].
Qed.

Lemma match_integer_no_comma (s i r : pystr) :
  match_integer s = Some (i, r) -> no_comma i = true.
Proof.
  unfold match_integer. destruct s as [|c t]; [discriminate|].
  destruct (N.eqb_spec c 45) as [->|_]; [|apply match_digits_no_comma].
  destruct (match_digits t) as [[ds r']|] eqn:E; [|discriminate].
  intros [= <- <-]. cbn. now apply (match_digits_no_comma _ _ _ E).
Qed.

Lemma match_frac_no_comma (s f r : pystr) : match_frac s = (f, r) -> no_comma f = true.
Proof.
  unfold match_frac. destruct s as [|dot [|d t]]; try now intros [= <- <-].
  destruct ((dot =? 46)%N && is_digit d) eqn:E; [|now intros [= <- <-]].
  destruct (span is_digit t) as [a b] eqn:Es. intros [= <- <-].
  apply andb_true_iff in E as [Hdot Hd]. apply N.eqb_eq in Hdot. subst dot.
  change (no_comma (46%N :: d :: a)) with (no_comma (d :: a)).
  apply digits_no_comma. cbn. now rewrite Hd, (span_forallb _ _ _ _ Es).
Qed.

Lemma match_exp_no_comma (s e r : pystr) : match_exp s = (e, r) -> no_comma e = true.
Proof.
  unfold match_exp. destruct s as [|c t]; [now intros [= <- <-]|].
  destruct ((c =? 101) || (c =? 69))%N eqn:Ec; [|now intros [= <- <-]].
  assert (Hc : negb (c =? 44)%N = true).
  { apply negb_true_iff, N.eqb_neq. intros ->. discriminate Ec. }
  assert (Hsign : forall sg t',
            match t with
            | x :: t0 => if ((x =? 43) || (x =? 45))%N then ([x], t0) else ([], t)
            | [] => ([], t)
            end = (sg, t') -> no_comma sg = true).
  { intros sg t'. destruct t as [|x t0]; [now intros [= <- <-]|].
    destruct ((x =? 43) || (x =? 45))%N eqn:Ex; [|now intros [= <- <-]].
    intros [= <- <-]. cbn. rewrite andb_true_r.
    apply negb_true_iff, N.eqb_neq. intros ->. discriminate Ex. }
  destruct (match t with
            | x :: t0 => if ((x =? 43) || (x =? 45))%N then ([x], t0) else ([], t)
            | [] => ([], t)
            end) as [sg t'] eqn:Esg.
  specialize (Hsign _ _ eq_refl).
  destruct (span is_digit t') as [es r'] eqn:Es.
  destruct es as [|d es]; [now intros [= <- <-]|]. intros [= <- <-].
  cbn [no_comma forallb]. fold (no_comma (sg ++ d :: es)).
  rewrite Hc, no_comma_app, Hsign.
  apply digits_no_comma. exact (span_forallb _ _ _ _ Es).
Qed.

Lemma match_number_no_comma (s i f e : pystr) :
  match_number s = Some (i, f, e, []) -> no_comma s = true.
Proof.
  intros Hm. pose proof (match_number_concat _ _ _ _ _ Hm) as ->.
  unfold match_number in Hm.
  destruct (match_integer (i ++ f ++ e ++ [])) as [[i' s2]|] eqn:Ei; [|discriminate].
  destruct (match_frac s2) as [f' s3] eqn:Ef.
  destruct (match_exp s3) as [e' s4] eqn:Ee.
  injection Hm as -> -> -> ->.
  rewrite !no_comma_app, (match_integer_no_comma _ _ _ Ei),
    (match_frac_no_comma _ _ _ Ef), (match_exp_no_comma _ _ _ Ee).
  reflexivity.
Qed.

Lemma floatstr_no_comma (x : pyfloat) : no_comma (floatstr x) = true.
Proof.
  unfold floatstr. destruct (float_class_of x) eqn:E; try reflexivity.
  destruct (repr_is_literal x E) as (i & f & e & Hm & _).
  exact (match_number_no_comma _ _ _ _ Hm).
Qed.

Lemma starts_ok_digit (c : N) (t : pystr) :
  c = 45%N \/ is_digit c = true -> starts_ok (c :: t) = true.
Proof.
  intros [->|H]; [reflexivity|]. unfold is_digit in H.
  apply andb_true_iff in H as [H1 H2]. apply N.leb_le in H1, H2.
  assert (Hc : (c = 48 \/ c = 49 \/ c = 50 \/ c = 51 \/ c = 52 \/ c = 53 \/ c = 54
                \/ c = 55 \/ c = 56 \/ c = 57)%N) by lia.
  repeat (destruct Hc as [->|Hc]; [reflexivity|]). now subst.
Qed.

Lemma floatstr_starts_ok (x : pyfloat) : starts_ok (floatstr x) = true.
Proof.
  unfold floatstr. destruct (float_class_of x) eqn:E; try reflexivity.
  destruct (repr_is_literal x E) as (i & f & e & Hm & _).
  destruct (match_number_head _ _ Hm) as (c & t & -> & Hc).
  now apply starts_ok_digit.
Qed.

Lemma json_dumps_settled (v : value) :
  all_strings no_comma v = true ->
  settled (json_dumps v) = true /\ starts_ok (json_dumps v) = true.
Proof.
  induction v using value_nested_ind; try rename H into IH; intros Hs.
  - now split.
  - now destruct b.
  - cbn [json_dumps]. split; [apply no_comma_settled, int_repr_no_comma|].
    destruct (int_repr_head n) as (c & t & -> & Hc). now apply starts_ok_digit.
  - cbn [json_dumps]. split; [apply no_comma_settled, floatstr_no_comma|].
    apply floatstr_starts_ok.
  - cbn [json_dumps]. split; [|reflexivity].
    now apply no_comma_settled, encode_no_comma.
  - cbn [json_dumps]. split; [|reflexivity]. cbn [all_strings] in Hs.
    rewrite forallb_forall in Hs. rewrite Forall_forall in IH.
    apply (settled_app [91%N]); [reflexivity|].
    apply settled_app; [|reflexivity].
    apply settled_join. apply Forall_forall. intros x Hx.
    apply in_map_iff in Hx as (w & <- & Hw). now apply IH; [|apply Hs].
  - cbn [json_dumps]. split; [|reflexivity]. cbn [all_strings] in Hs.
    rewrite forallb_forall in Hs. rewrite Forall_forall in IH.
    apply (settled_app [123%N]); [reflexivity|].
    apply settled_app; [|reflexivity].
    apply settled_join. apply Forall_forall. intros x Hx.
    apply in_map_iff in Hx as (kv & <- & Hkv).
    specialize (Hs kv Hkv). apply andb_true_iff in Hs as [Hk Hv].
    split; [|reflexivity].
    apply settled_app; [now apply no_comma_settled, encode_no_comma|].
    apply (settled_app (str ": ")); [reflexivity|]. now apply IH.
Qed.

Lemma settled_before_close (a : pystr) :
  settled (a ++ [125%N]) = true -> settled a = true.
Proof.
  induction a as [|c a IH]; [reflexivity|]. cbn [app settled]. intros H.
  apply andb_true_iff in H as [Hc Ha]. rewrite (IH Ha), andb_true_r.
  destruct (c =? 44)%N; [|reflexivity].
  destruct a as [|sp [|x a']]; try discriminate Hc.
  - cbn in Hc. now rewrite andb_false_r in Hc.
  - exact Hc.
Qed.

(** *** The decoder on the text of an object with a trailing comma *)

(** What the encoder writes for a dict after the opening quote of its
    first key, with [tail] in the place of the closing brace. *)
Fixpoint entries_open (d : pydict) (tail : pystr) : pystr :=
  match d with
  | [] => []
  | kv :: d' =>
      flat_map escape_char (fst kv) ++ 34%N :: 58%N :: 32%N :: json_dumps (snd kv)
      ++ match d' with
         | [] => tail
         | _ :: _ => 44%N :: 32%N :: 34%N :: entries_open d' tail
         end
  end.

Lemma join_entries_open (kv : pystr * value) (d : pydict) (tail : pystr) :
  join (str ", ") (map entry_text (kv :: d)) ++ tail = 34%N :: entries_open (kv :: d) tail.
Proof.
  revert kv. induction d as [|kv' d IH]; intros kv.
  - cbn [map join entries_open]. unfold entry_text, encode_basestring_ascii.
    cbn [app]. rewrite <- !app_assoc. reflexivity.
  - change (join (str ", ") (map entry_text (kv :: kv' :: d)))
      with (entry_text kv ++ str ", " ++ join (str ", ") (map entry_text (kv' :: d))).
    rewrite <- !app_assoc, IH. unfold entry_text, encode_basestring_ascii.
    cbn [app entries_open]. rewrite <- !app_assoc. reflexivity.
Qed.

(** After whitespace and before a closing brace the decoder finds no
    opening quote. *)
Lemma skip_ws_spaces (ws : pystr) :
  forallb is_space ws = true ->
  exists q s5, skip_ws (ws ++ [125%N]) = q :: s5 /\ (q =? 34)%N = false.
Proof.
  induction ws as [|c ws IH]; intros Hws; [now exists 125%N, []|].
  cbn [forallb] in Hws. apply andb_true_iff in Hws as [Hc Hws].
  cbn [app skip_ws]. destruct (json_ws c); [now apply IH|].
  exists c, (ws ++ [125%N]). split; [reflexivity|].
  destruct (N.eqb_spec c 34) as [->|_]; [discriminate Hc|reflexivity].
Qed.

(** The decoder on entries followed by a comma and then by something
    other than the opening quote of a key. *)
Lemma JSONObject_loop_comma (scan : pystr -> result (value * pystr)) (d : pydict)
  (t : pystr) :
  d <> [] ->
  match skip_ws t with
  | q :: _ => (q =? 34)%N = false
  | [] => True
  end ->
  Forall (fun kv => forallb valid_char (fst kv) = true
                    /\ no_split_pair (fst kv) = true
                    /\ forall rest, delimited rest = true ->
                                     scan (json_dumps (snd kv) ++ rest) = Ok (snd kv, rest)) d ->
  forall fuel acc, (length d <= fuel)%nat ->
  JSONObject_loop scan fuel acc (entries_open d (44%N :: t)) = Raise JSONDecodeError.
Proof.
  intros Hne Ht.
  induction d as [|[k v] d IH]; intros Hall fuel acc Hfuel; [now destruct Hne|].
  inversion Hall as [|? ? (Hk1 & Hk2 & Hv) Hd]; subst. cbn [fst snd] in *.
  destruct fuel as [|fuel]; [cbn in Hfuel; lia|].
  cbn [JSONObject_loop entries_open fst snd].
  rewrite scanstring_escaped by assumption.
  cbn [bind skip_ws json_ws N.eqb Pos.eqb orb].
  rewrite skip_ws_value by apply json_dumps_starts.
  destruct d as [|kv' d].
  - rewrite Hv by reflexivity. cbn [bind skip_ws json_ws N.eqb Pos.eqb orb].
    destruct (skip_ws t) as [|q s5]; [reflexivity|]. now rewrite Ht.
  - rewrite Hv by reflexivity. cbn [bind skip_ws json_ws N.eqb Pos.eqb orb].
    apply IH; [discriminate|assumption|cbn in *; lia].
Qed.

(** The text [json.dumps] writes for [d], with a comma and the
    whitespace [ws] before the closing brace. *)
Definition with_trailing_comma (d : pydict) (ws : pystr) : pystr :=
  123%N :: join (str ", ") (map entry_text d) ++ 44%N :: ws ++ [125%N].

(** [json.loads] rejects the text of an object cut before its closing
    brace and followed by a comma and then by something other than a
    key. *)
Lemma json_loads_comma (d : pydict) (t : pystr) :
  match skip_ws t with
  | q :: _ => (q =? 34)%N = false
  | [] => True
  end ->
  decoded (VDict d) -> all_strings no_split_pair (VDict d) = true ->
  json_loads (123%N :: join (str ", ") (map entry_text d) ++ 44%N :: t)
  = Raise JSONDecodeError.
Proof.
  intros Ht Hdec Hsplit. destruct d as [|kv d]; [reflexivity|].
  set (T := 123%N :: join (str ", ") (map entry_text (kv :: d)) ++ 44%N :: t).
  set (fuel := Nat.max (length T) (size (VDict (kv :: d)))).
  assert (Hfuel : (size (VDict (kv :: d)) <= fuel)%nat) by (unfold fuel; lia).
  rewrite (json_loads_fuel T (S fuel)) by (unfold fuel; lia).
  clearbody fuel.
  change (skip_ws T) with T. unfold T.
  cbn [scan_once N.eqb Pos.eqb]. unfold JSONObject.
  rewrite join_entries_open. cbn [skip_ws json_ws N.eqb Pos.eqb orb].
  apply decoded_dict in Hdec as [Hnd Hdec]. cbn [all_strings] in Hsplit.
  rewrite forallb_forall in Hsplit. rewrite Forall_forall in Hdec.
  change (size (VDict (kv :: d)))
    with (S (list_sum (map (fun kv => S (size (snd kv))) (kv :: d)))) in Hfuel.
  rewrite (JSONObject_loop_comma _ (kv :: d) t); [reflexivity|discriminate|assumption| |].
  - apply Forall_forall. intros w Hw.
    specialize (Hsplit w Hw). apply andb_true_iff in Hsplit as [Hs1 Hs2].
    destruct (Hdec w Hw) as [Hw1 Hw2].
    repeat split; try assumption. intros rest' Hrest'.
    apply scan_once_dumps; auto.
    pose proof (list_sum_bound _ (fun kv => S (size (snd kv))) _ _ Hw) as Hb.
    cbv beta in Hb. apply Nat.le_trans with (2 := Hfuel).
    apply Nat.le_trans with (2 := Nat.le_succ_diag_r _). exact Hb.
  - pose proof (list_sum_length _ (fun kv => size (snd kv)) (kv :: d)) as Hb.
    apply Nat.le_trans with (1 := Hb).
    apply Nat.le_trans with (2 := Hfuel). apply Nat.le_succ_diag_r.
Qed.

Lemma json_loads_trailing_comma (d : pydict) (ws : pystr) :
  forallb is_space ws = true ->
  decoded (VDict d) -> all_strings no_split_pair (VDict d) = true ->
  json_loads (with_trailing_comma d ws) = Raise JSONDecodeError.
Proof.
  intros Hws. apply json_loads_comma.
  now destruct (skip_ws_spaces ws Hws) as (q & s5 & -> & ->).
Qed.

(** The two substitutions take the trailing comma out and change nothing
    else, when no string of the object holds a comma. *)
Lemma repair_trailing_comma (d : pydict) (ws : pystr) :
  forallb is_space ws = true -> all_strings no_comma (VDict d) = true ->
  re_sub comma_bracket_re (str "]")
    (re_sub comma_brace_re (str "}") (with_trailing_comma d ws))
  = json_dumps (VDict d).
Proof.
  intros Hws Hcomma.
  destruct (json_dumps_settled _ Hcomma) as [Hsettled _].
  assert (Ha : settled (123%N :: join (str ", ") (map entry_text d)) = true).
  { apply settled_before_close. exact Hsettled. }
  assert (E1 : re_sub comma_brace_re (str "}") (with_trailing_comma d ws)
               = json_dumps (VDict d)).
  { unfold re_sub. change comma_brace_re with (comma_re 125).
    change (with_trailing_comma d ws)
      with ((123%N :: join (str ", ") (map entry_text d)) ++ 44%N :: ws ++ 125%N :: []).
    rewrite re_sub_from_match by auto. reflexivity. }
  rewrite E1. unfold re_sub. change comma_bracket_re with (comma_re 93).
  rewrite <- (app_nil_r (json_dumps (VDict d))) at 1.
  rewrite re_sub_from_settled by auto. apply app_nil_r.
Qed.

(** X21.  The repair does what it is for.  The text of an object with a
    comma (and whitespace) before its closing brace, in any prose, is
    rejected by [json.loads] as it stands and is read as the object by
    [extract_first_json], when no string of the object holds a comma. *)
Theorem trailing_comma_repaired (pre post ws : pystr) (d : pydict) :
  forallb is_space ws = true -> ~ In 123%N pre -> ~ In 125%N post ->
  decoded (VDict d) -> all_strings no_split_pair (VDict d) = true ->
  all_strings no_comma (VDict d) = true ->
  json_loads (with_trailing_comma d ws) = Raise JSONDecodeError
  /\ extract_first_json (pre ++ with_trailing_comma d ws ++ post) = Ok (VDict d).
Proof.
  intros Hws Hpre Hpost Hdec Hsplit Hcomma.
  pose proof (json_loads_trailing_comma d ws Hws Hdec Hsplit) as Hfail.
  split; [exact Hfail|]. unfold extract_first_json.
  assert (Es : re_search json_object_re (pre ++ with_trailing_comma d ws ++ post)
               = Some (with_trailing_comma d ws)).
  { unfold with_trailing_comma.
    replace (pre ++ (123%N :: join (str ", ") (map entry_text d) ++ 44%N :: ws ++ [125%N])
                 ++ post)
      with (pre ++ 123%N :: (join (str ", ") (map entry_text d) ++ 44%N :: ws)
                ++ 125%N :: post)
      by (repeat (progress (cbn [app]; rewrite <- ?app_assoc)); reflexivity).
    rewrite search_first_to_last by assumption.
    repeat (progress (cbn [app]; rewrite <- ?app_assoc)). reflexivity. }
  rewrite Es, Hfail. cbv zeta.
  rewrite (repair_trailing_comma d ws Hws Hcomma).
  exact (json_loads_dumps _ Hdec Hsplit).
Qed.

(** *** A comma before a closing brace inside a string *)

(** A string the encoder and the decoder agree on, with no comma. *)
Definition tame (s : pystr) : Prop :=
  forallb valid_char s = true /\ no_split_pair s = true /\ no_comma s = true.

Lemma no_split_pair_app (a : pystr) (c : N) (b : pystr) :
  no_split_pair a = true -> no_split_pair (c :: b) = true ->
  is_low_surrogate c = false -> no_split_pair (a ++ c :: b) = true.
Proof.
  intros Ha Hb Hc. induction a as [|x a IH]; [exact Hb|].
  apply no_split_pair_cons in Ha as [Ha Hx]. cbn [app].
  apply no_split_pair_intro; [|now apply IH].
  intros Hhigh. destruct a as [|y a]; cbn.
  - now rewrite Hc.
  - specialize (Hx Hhigh). cbn in Hx. now rewrite Hx.
Qed.

(** An object of one string, around an ASCII text [mid] that is not
    empty: it is what the decoder builds and the encoder keeps the
    characters of [mid] as they are. *)
Lemma single_string_decoded (k a b : pystr) (c : N) :
  tame k -> tame a -> tame b ->
  valid_char c = true -> is_high_surrogate c = false -> is_low_surrogate c = false ->
  decoded (VDict [(k, VStr (a ++ c :: b))])
  /\ all_strings no_split_pair (VDict [(k, VStr (a ++ c :: b))]) = true.
Proof.
  intros (Hk1 & Hk2 & _) (Ha1 & Ha2 & _) (Hb1 & Hb2 & _) Hc1 Hc2 Hc3.
  assert (Hvalid : forallb valid_char (a ++ c :: b) = true).
  { rewrite forallb_app. cbn. now rewrite Ha1, Hc1, Hb1. }
  assert (Hsplit : no_split_pair (a ++ c :: b) = true).
  { apply no_split_pair_app; [assumption| |assumption].
    apply no_split_pair_intro; [|assumption]. now rewrite Hc2. }
  split.
  - apply decoded_dict. split.
    + constructor; [intros []|constructor].
    + constructor; [|constructor]. split; [assumption|].
      repeat split. exact Hvalid.
  - cbn. now rewrite Hk2, Hsplit.
Qed.

(** X22.  The repair is a substitution in the text, blind to the strings of
    the object.  When a string holds a comma followed by a closing brace and
    the candidate is rejected for a trailing comma, the comma in the string
    goes too: the string written as [p], a comma, a closing brace and [q] is
    read as [p], a closing brace and [q], while the same text without the
    trailing comma is read as written.  The strings [k], [p] and [q] have no
    comma. *)
Theorem repair_rewrites_strings (k p q ws : pystr) :
  let written := [(k, VStr (p ++ 44%N :: 125%N :: q))] in
  let read := [(k, VStr (p ++ 125%N :: q))] in
  forallb is_space ws = true -> tame k -> tame p -> tame q ->
  extract_first_json (json_dumps (VDict written)) = Ok (VDict written)
  /\ extract_first_json (with_trailing_comma written ws) = Ok (VDict read).
Proof.
  intros written read Hws Hk Hp Hq.
  assert (Hq' : tame (125%N :: q)).
  { destruct Hq as (Hq1 & Hq2 & Hq3). repeat split; cbn.
    - exact Hq1.
    - rewrite Hq2. now destruct q.
    - exact Hq3. }
  destruct (single_string_decoded k p (125%N :: q) 44%N Hk Hp Hq')
    as [Hdec Hsplit]; try reflexivity.
  destruct (single_string_decoded k p q 125%N Hk Hp Hq)
    as [Hdec' Hsplit']; try reflexivity.
  fold written in Hdec, Hsplit. fold read in Hdec', Hsplit'.
  split; [now apply extract_first_json_dumps|].
  pose proof (json_loads_trailing_comma written ws Hws Hdec Hsplit) as Hfail.
  unfold extract_first_json.
  assert (Es : re_search json_object_re (with_trailing_comma written ws)
               = Some (with_trailing_comma written ws)).
  { unfold with_trailing_comma.
    replace (123%N :: join (str ", ") (map entry_text written) ++ 44%N :: ws ++ [125%N])
      with (123%N :: (join (str ", ") (map entry_text written) ++ 44%N :: ws) ++ [125%N])
      by (repeat (progress (cbn [app]; rewrite <- ?app_assoc)); reflexivity).
    apply search_whole_object. }
  rewrite Es, Hfail. cbv zeta.
  destruct Hk as (_ & _ & Hk3). destruct Hp as (_ & _ & Hp3). destruct Hq as (_ & _ & Hq3).
  assert (Hcomma : all_strings no_comma (VDict read) = true).
  { cbn [read all_strings forallb fst snd]. rewrite Hk3, no_comma_app, Hp3.
    change (no_comma (125%N :: q)) with (no_comma q). now rewrite Hq3. }
  destruct (json_dumps_settled _ Hcomma) as [Hsettled _].
  assert (E1 : re_sub comma_brace_re (str "}") (with_trailing_comma written ws)
               = json_dumps (VDict read)).
  { unfold re_sub. change comma_brace_re with (comma_re 125).
    set (a1 := 123%N :: 34%N :: flat_map escape_char k
                 ++ 34%N :: 58%N :: 32%N :: 34%N :: flat_map escape_char p).
    set (a2 := flat_map escape_char q ++ [34%N]).
    assert (Ha1 : settled a1 = true).
    { apply no_comma_settled. unfold a1.
      change (no_comma (flat_map escape_char k
                        ++ 34%N :: 58%N :: 32%N :: 34%N :: flat_map escape_char p) = true).
      rewrite no_comma_app, (escaped_no_comma _ Hk3).
      exact (escaped_no_comma _ Hp3). }
    assert (Ha2 : settled a2 = true).
    { apply no_comma_settled. unfold a2.
      now rewrite no_comma_app, (escaped_no_comma _ Hq3). }
    replace (with_trailing_comma written ws)
      with (a1 ++ 44%N :: [] ++ 125%N :: a2 ++ 44%N :: ws ++ 125%N :: []).
    - rewrite (re_sub_from_match 125 _ a1 []) by auto.
      rewrite (re_sub_from_match 125 _ a2 ws) by auto.
      unfold a1, a2, read. cbn [json_dumps map join fst snd].
      unfold encode_basestring_ascii. rewrite flat_map_app.
      change (flat_map escape_char (125%N :: q)) with (125%N :: flat_map escape_char q).
      repeat (progress (cbn [app re_sub_from str map list_ascii_of_string N_of_ascii
                              N.of_nat];
                        rewrite <- ?app_assoc)).
      reflexivity.
    - unfold a1, a2, with_trailing_comma, written, entry_text.
      cbn [json_dumps map join fst snd].
      unfold encode_basestring_ascii. rewrite flat_map_app.
      change (flat_map escape_char (44%N :: 125%N :: q))
        with (44%N :: 125%N :: flat_map escape_char q).
      repeat (progress (cbn [app]; rewrite <- ?app_assoc)).
      reflexivity. }
  rewrite E1. unfold re_sub. change comma_bracket_re with (comma_re 93).
  rewrite <- (app_nil_r (json_dumps (VDict read))) at 1.
  rewrite re_sub_from_settled by auto. rewrite app_nil_r.
  exact (json_loads_dumps _ Hdec' Hsplit').
Qed.

(** *** What the repair does not mend *)

Lemma comma_re_comma (close : N) (t : pystr) :
  close = 125%N \/ close = 93%N -> re_match (comma_re close) (44%N :: 44%N :: t) = None.
Proof. now intros [-> | ->]. Qed.

(** X23.  The repair takes one comma out, not two: the text of an object
    with two commas before its closing brace is still rejected, and so is
    the text after the repair. *)
Theorem two_trailing_commas_rejected (ws : pystr) (d : pydict) :
  forallb is_space ws = true ->
  decoded (VDict d) -> all_strings no_split_pair (VDict d) = true ->
  all_strings no_comma (VDict d) = true ->
  extract_first_json
    (123%N :: join (str ", ") (map entry_text d) ++ 44%N :: 44%N :: ws ++ [125%N])
  = Raise JSONDecodeError.
Proof.
  intros Hws Hdec Hsplit Hcomma.
  set (a := 123%N :: join (str ", ") (map entry_text d)).
  assert (Ha : settled a = true).
  { apply settled_before_close. exact (proj1 (json_dumps_settled _ Hcomma)). }
  pose proof (json_loads_trailing_comma d [] eq_refl Hdec Hsplit) as Hfail1.
  assert (Hfail : json_loads (a ++ 44%N :: 44%N :: ws ++ [125%N]) = Raise JSONDecodeError)
    by now apply (json_loads_comma d (44%N :: ws ++ [125%N])).
  unfold extract_first_json.
  assert (Es : re_search json_object_re (a ++ 44%N :: 44%N :: ws ++ [125%N])
               = Some (a ++ 44%N :: 44%N :: ws ++ [125%N])).
  { unfold a.
    replace ((123%N :: join (str ", ") (map entry_text d)) ++ 44%N :: 44%N :: ws ++ [125%N])
      with (123%N :: (join (str ", ") (map entry_text d) ++ 44%N :: 44%N :: ws) ++ [125%N])
      by (repeat (progress (cbn [app]; rewrite <- ?app_assoc)); reflexivity).
    apply search_whole_object. }
  change (123%N :: join (str ", ") (map entry_text d) ++ 44%N :: 44%N :: ws ++ [125%N])
    with (a ++ 44%N :: 44%N :: ws ++ [125%N]).
  rewrite Es, Hfail. cbv zeta.
  assert (E1 : re_sub comma_brace_re (str "}") (a ++ 44%N :: 44%N :: ws ++ [125%N])
               = a ++ [44%N; 125%N]).
  { unfold re_sub. change comma_brace_re with (comma_re 125).
    rewrite re_sub_from_settled by auto. f_equal. cbn [app re_sub_from].
    rewrite comma_re_comma by auto. f_equal.
    exact (re_sub_from_match 125 (str "}") [] ws [] (or_introl eq_refl) eq_refl Hws). }
  assert (E2 : re_sub comma_bracket_re (str "]") (a ++ [44%N; 125%N]) = a ++ [44%N; 125%N]).
  { unfold re_sub. change comma_bracket_re with (comma_re 93).
    rewrite re_sub_from_settled by auto. reflexivity. }
  rewrite E1, E2. exact Hfail1.
Qed.

(** The decoder reads back the text of an object whatever follows it. *)
Lemma scan_once_dumps_dict (d : pydict) :
  decoded (VDict d) -> all_strings no_split_pair (VDict d) = true ->
  forall fuel rest, (size (VDict d) < fuel)%nat ->
  scan_once fuel (json_dumps (VDict d) ++ rest) = Ok (VDict d, rest).
Proof.
  intros Hdec Hsplit fuel rest Hfuel. destruct fuel as [|fuel]; [cbn in Hfuel; lia|].
  apply decoded_dict in Hdec as [Hnd Hdec]. cbn [all_strings] in Hsplit.
  rewrite forallb_forall in Hsplit. rewrite Forall_forall in Hdec.
  cbn [json_dumps scan_once]. cbn [app N.eqb Pos.eqb]. unfold JSONObject.
  destruct d as [|kv d]; [reflexivity|].
  rewrite <- app_assoc. cbn [app].
  change (map (fun kv0 => encode_basestring_ascii (fst kv0) ++ str ": "
                          ++ json_dumps (snd kv0)) (kv :: d))
    with (map entry_text (kv :: d)).
  rewrite join_entries_text. cbn [skip_ws json_ws N.eqb Pos.eqb orb].
  change (size (VDict (kv :: d)))
    with (S (list_sum (map (fun kv => S (size (snd kv))) (kv :: d)))) in Hfuel.
  apply (JSONObject_loop_entries (scan_once fuel) (kv :: d)); [discriminate| | |].
  - apply Forall_forall. intros w Hw.
    specialize (Hsplit w Hw). apply andb_true_iff in Hsplit as [Hs1 Hs2].
    destruct (Hdec w Hw) as [Hw1 Hw2].
    repeat split; try assumption. intros rest' Hrest'.
    apply scan_once_dumps; auto.
    pose proof (list_sum_bound _ (fun kv => S (size (snd kv))) _ _ Hw) as Hb.
    cbv beta in Hb. apply Nat.le_trans with (1 := Hb).
    apply Nat.lt_le_incl, Nat.succ_lt_mono, Hfuel.
  - pose proof (list_sum_length _ (fun kv => size (snd kv)) (kv :: d)) as Hb.
    apply Nat.le_trans with (1 := Hb).
    apply Nat.lt_le_incl, Nat.succ_lt_mono, Hfuel.
  - exact Hnd.
Qed.

Lemma skip_ws_before_brace (a : pystr) : skip_ws (a ++ [125%N]) <> [].
Proof.
  induction a as [|c a IH]; [discriminate|]. cbn [app skip_ws].
  destruct (json_ws c); [exact IH|discriminate].
Qed.

(** [json.loads] rejects the text of an object followed by more text. *)
Lemma json_loads_text_after (d : pydict) (tail : pystr) :
  decoded (VDict d) -> all_strings no_split_pair (VDict d) = true ->
  json_loads (json_dumps (VDict d) ++ tail ++ [125%N]) = Raise JSONDecodeError.
Proof.
  intros Hdec Hsplit.
  set (T := json_dumps (VDict d) ++ tail ++ [125%N]).
  rewrite (json_loads_fuel T (S (Nat.max (length T) (size (VDict d))))) by lia.
  change (skip_ws T) with T. unfold T.
  rewrite (scan_once_dumps_dict d Hdec Hsplit) by lia. cbn [bind].
  pose proof (skip_ws_before_brace tail) as H.
  now destruct (skip_ws (tail ++ [125%N])).
Qed.

Lemma extract_text_after (d : pydict) (tail : pystr) :
  decoded (VDict d) -> all_strings no_split_pair (VDict d) = true ->
  settled (json_dumps (VDict d) ++ tail ++ [125%N]) = true ->
  extract_first_json (json_dumps (VDict d) ++ tail ++ [125%N]) = Raise JSONDecodeError.
Proof.
  intros Hdec Hsplit Hsettled.
  pose proof (json_loads_text_after d tail Hdec Hsplit) as Hfail.
  set (T := json_dumps (VDict d) ++ tail ++ [125%N]) in *.
  assert (Es : re_search json_object_re T = Some T).
  { unfold T. cbn [json_dumps].
    replace (([123%N] ++ join (str ", ")
                (map (fun kv => encode_basestring_ascii (fst kv) ++ str ": "
                                ++ json_dumps (snd kv)) d) ++ [125%N])
             ++ tail ++ [125%N])
      with (123%N :: (join (str ", ")
                (map (fun kv => encode_basestring_ascii (fst kv) ++ str ": "
                                ++ json_dumps (snd kv)) d) ++ 125%N :: tail) ++ [125%N])
      by (repeat (progress (cbn [app]; rewrite <- ?app_assoc)); reflexivity).
    apply search_whole_object. }
  assert (Esub : forall close repl, close = 125%N \/ close = 93%N ->
                   re_sub (comma_re close) repl T = T).
  { intros close repl Hclose. unfold re_sub.
    rewrite <- (app_nil_r T) at 1.
    rewrite re_sub_from_settled by assumption. apply app_nil_r. }
  unfold extract_first_json. rewrite Es, Hfail. cbv zeta.
  change comma_brace_re with (comma_re 125). change comma_bracket_re with (comma_re 93).
  rewrite !Esub by auto. exact Hfail.
Qed.

(** X24.  The candidate runs to the last closing brace of the text, so an
    object followed by more text with a closing brace in it is not
    extracted.  For an object and a text with no comma in their strings: the
    object followed by any text without commas and a closing brace, and the
    object followed by a second object, are rejected, and the repair does
    not change them. *)
Theorem text_after_object_rejected (d : pydict) :
  decoded (VDict d) -> all_strings no_split_pair (VDict d) = true ->
  all_strings no_comma (VDict d) = true ->
  (forall tail, no_comma tail = true ->
     extract_first_json (json_dumps (VDict d) ++ tail ++ [125%N]) = Raise JSONDecodeError)
  /\ (forall sep d', no_comma sep = true -> all_strings no_comma (VDict d') = true ->
      extract_first_json (json_dumps (VDict d) ++ sep ++ json_dumps (VDict d'))
      = Raise JSONDecodeError).
Proof.
  intros Hdec Hsplit Hcomma.
  destruct (json_dumps_settled _ Hcomma) as [Hsettled _]. split.
  - intros tail Htail. apply extract_text_after; try assumption.
    apply settled_app; [assumption|]. apply no_comma_settled.
    now rewrite no_comma_app, Htail.
  - intros sep d' Hsep Hcomma'.
    destruct (json_dumps_settled _ Hcomma') as [Hsettled' _].
    assert (E : exists body, json_dumps (VDict d') = 123%N :: body ++ [125%N])
      by (eexists; reflexivity).
    destruct E as (body & E). rewrite E in *.
    replace (sep ++ 123%N :: body ++ [125%N]) with ((sep ++ 123%N :: body) ++ [125%N])
      by now rewrite <- app_assoc.
    apply extract_text_after; try assumption.
    rewrite <- app_assoc. cbn [app].
    apply settled_app; [assumption|].
    apply settled_app; [now apply no_comma_settled|assumption].
Qed.

End Repair.

(** * The theorems above at an input *)

(** Services whose [Part.from_bytes] raises. *)
Definition no_part : @Services whole_runtime := {|
  image_part := unit;
  Part_from_bytes := fun _ _ => Raise SDKError;
  generate_content := fun _ _ _ => Ok None;
  pydantic_str := fun _ => Raise ValidationError
|}.

Lemma one_byte_accepted : accepted [Byte.x00].
Proof. split; discriminate. Qed.

Lemma image_part_failure_500_witness :
  analyze_image (sv := no_part) [Byte.x00] (Some []) None
  = HTTPException 500 "Failed to prepare image for analysis".
Proof.
  apply (@image_part_failure_500 whole_runtime no_part [Byte.x00] (Some []) None SDKError
           one_byte_accepted).
  reflexivity.
Defined.

Lemma model_failure_502_witness :
  analyze_image (sv := canned (Raise SDKError)) [Byte.x00] None None
  = HTTPException 502 "Vision model request failed".
Proof.
  apply (@model_failure_502 whole_runtime (canned (Raise SDKError)) [Byte.x00] None None
           ([Byte.x00], str "image/jpeg") SDKError one_byte_accepted);
    reflexivity.
Defined.

Lemma extraction_failure_502_witness :
  analyze_image (sv := canned (Ok None)) [Byte.x00] None None
  = HTTPException 502 "Model returned unexpected output format"
  /\ analyze_image (sv := canned (Ok (Some (text "{'people_count': twelve}"))))
       [Byte.x00] None None
     = HTTPException 502 "Model returned unexpected output format".
Proof.
  split.
  - apply (@extraction_failure_502 whole_runtime (canned (Ok None)) [Byte.x00] None None
             ([Byte.x00], str "image/jpeg") None one_byte_accepted eq_refl eq_refl).
    now left.
  - apply (@extraction_failure_502 whole_runtime
             (canned (Ok (Some (text "{'people_count': twelve}")))) [Byte.x00] None None
             ([Byte.x00], str "image/jpeg") (Some (text "{'people_count': twelve}"))
             one_byte_accepted eq_refl eq_refl).
    right. right. exists (text "{'people_count': twelve}"), JSONDecodeError.
    split; reflexivity.
Defined.

Lemma normalization_failure_500_witness :
  analyze_image (sv := canned (Ok (Some (text "{'people_count': []}"))))
    [Byte.x00] None None
  = HTTPException 500 "Failed to normalize model response".
Proof.
  apply (@normalization_failure_500 whole_runtime
           (canned (Ok (Some (text "{'people_count': []}")))) [Byte.x00] None None
           ([Byte.x00], str "image/jpeg") (Some (text "{'people_count': []}"))
           (VDict [(str "people_count", VList [])]) TypeError one_byte_accepted);
    reflexivity.
Defined.

Lemma note_is_no_field : ~ In (str "note") field_names.
Proof. cbv. intuition discriminate. Qed.

Lemma unknown_keys_ignored_witness :
  normalize_whole (VDict [(str "crowd_score", VInt 7); (str "note", VStr (str "dusk"))])
  = normalize_whole (VDict [(str "crowd_score", VInt 7)]).
Proof.
  exact (proj1 (@unknown_keys_ignored whole_runtime (canned (Ok None))
                  [(str "crowd_score", VInt 7)] (str "note") (VStr (str "dusk"))
                  note_is_no_field)).
Defined.

Lemma key_order_irrelevant_witness :
  normalize_whole (VDict [(str "crowd_score", VInt 7); (str "people_count", VInt 12)])
  = normalize_whole (VDict [(str "people_count", VInt 12); (str "crowd_score", VInt 7)]).
Proof.
  apply (@key_order_irrelevant whole_runtime (canned (Ok None))).
  - constructor; [intros [H|[]]; discriminate H|].
    constructor; [intros []|constructor].
  - apply perm_swap.
Defined.

Lemma no_field_defaults_witness :
  normalize_whole (VDict [(str "note", VStr (str "dusk"))])
  = Ok {| people_count := None; crowd_score := None; crowd_label := None;
          confidence := None; rationale := Some []; screen_detected := None;
          departure_type := Some (str "none"); departure_info := Some [] |}.
Proof.
  apply (@no_field_defaults whole_runtime (canned (Ok None))).
  intros k H. cbn [field_names In] in H.
  repeat (destruct H as [<-|H]; [reflexivity|]). destruct H.
Defined.

Lemma string_fields_passed_on_witness :
  exists r,
    normalize_whole (VDict [(str "crowd_label", VStr (str "packed"));
                            (str "rationale", VNone)]) = Ok r
    /\ crowd_label r = Some (str "packed") /\ rationale r = None.
Proof.
  eexists. split; [reflexivity|].
  destruct (@string_fields_passed_on whole_runtime (canned (Ok None))
              [(str "crowd_label", VStr (str "packed")); (str "rationale", VNone)]
              _ eq_refl) as (H1 & _ & _ & H4 & _).
  split; [now apply H1|now apply H4].
Defined.

Lemma confidence_coerced_witness :
  exists r,
    normalize_whole (VDict [(str "confidence", VFloat (WInt 250 : @pyfloat whole_runtime))])
    = Ok r
    /\ confidence r = Some (WInt 250 : @pyfloat whole_runtime).
Proof.
  eexists. split; [reflexivity|].
  now apply (@confidence_coerced whole_runtime (canned (Ok None))
               [(str "confidence", VFloat (WInt 250 : @pyfloat whole_runtime))] _ eq_refl).
Defined.

Lemma screen_detected_truth_value_witness :
  exists r,
    normalize_whole (VDict [(str "screen_detected", VStr (str "false"))]) = Ok r
    /\ screen_detected r = Some true.
Proof.
  eexists. split; [reflexivity|].
  destruct (@screen_detected_truth_value whole_runtime (canned (Ok None))
              [(str "screen_detected", VStr (str "false"))] _ eq_refl)
    as (_ & _ & H & _).
  exact (H (str "false") eq_refl).
Defined.

Lemma crowd_score_unset_or_bool_witness :
  (exists r, normalize_whole (VDict [(str "crowd_score", VBool false)]) = Ok r
             /\ crowd_score r = Some 1%Z)
  /\ (exists r, normalize_whole (VDict [(str "crowd_score", VNone)]) = Ok r
                /\ crowd_score r = None).
Proof.
  split; eexists; (split; [reflexivity|]).
  - destruct (@crowd_score_unset_or_bool whole_runtime (canned (Ok None))
                [(str "crowd_score", VBool false)] _ eq_refl) as (_ & _ & H).
    exact (H false eq_refl).
  - destruct (@crowd_score_unset_or_bool whole_runtime (canned (Ok None))
                [(str "crowd_score", VNone)] _ eq_refl) as (H & _).
    exact (H eq_refl).
Defined.

Lemma text_around_object_ignored_witness :
  extract_first_json (rt := whole_runtime)
    (str "} Sure: " ++ 123%N :: text "'people_count': 3" ++ 125%N :: str " Done {")
  = extract_first_json (rt := whole_runtime) (123%N :: text "'people_count': 3" ++ [125%N]).
Proof.
  apply (@text_around_object_ignored whole_runtime); cbv; intuition discriminate.
Defined.

Lemma extract_returns_dict_witness :
  exists d, VDict [(str "people_count", VInt 3)] = VDict (rt := whole_runtime) d.
Proof.
  exact (@extract_returns_dict whole_runtime (text "{'people_count': 3}") _ eq_refl).
Defined.

Lemma repair_needs_trailing_comma_witness :
  let raw := text "{'people_count': 3 'crowd_score': 2}" in
  extract_first_json (rt := whole_runtime) raw = json_loads raw.
Proof.
  cbv zeta.
  apply (@repair_needs_trailing_comma whole_runtime
           (text "{'people_count': 3 'crowd_score': 2}")
           (text "{'people_count': 3 'crowd_score': 2}") eq_refl);
    intros H; apply comma_before_In in H; cbv in H; intuition discriminate.
Defined.

(** An object to write and read. *)
Definition sample_object : @pydict whole_runtime :=
  [(str "people_count", VInt 3); (str "rationale", VStr (str "two at the gate"))].

Lemma sample_object_decoded :
  decoded (VDict sample_object)
  /\ all_strings no_split_pair (VDict sample_object) = true
  /\ all_strings no_comma (VDict sample_object) = true.
Proof.
  split; [|split; reflexivity]. apply decoded_dict. split.
  - constructor; [intros [H|[]]; discriminate H|].
    constructor; [intros []|constructor].
  - repeat constructor.
Qed.

Lemma fence_has_no_brace :
  ~ In 123%N (str "```json" ++ [10%N]) /\ ~ In 125%N (10%N :: str "```").
Proof. split; cbv; intuition discriminate. Qed.

(** The object in a Markdown fence. *)
Definition fenced_reply : pystr :=
  (str "```json" ++ [10%N]) ++ json_dumps (VDict sample_object) ++ 10%N :: str "```".

Lemma object_in_prose_witness :
  extract_first_json (rt := whole_runtime) fenced_reply = Ok (VDict sample_object).
Proof.
  apply (@object_in_prose whole_runtime whole_laws);
    first [apply fence_has_no_brace | apply sample_object_decoded].
Defined.

Lemma object_in_prose_200_witness :
  exists r,
    normalize_whole (VDict sample_object) = Ok r
    /\ analyze_image (sv := canned (Ok (Some fenced_reply))) [Byte.x00] None None
       = JSONResponse 200 r.
Proof.
  eexists. split; [reflexivity|].
  apply (@object_in_prose_200 whole_runtime whole_laws (canned (Ok (Some fenced_reply)))
           [Byte.x00] None None
           ([Byte.x00], str "image/jpeg") (str "```json" ++ [10%N]) (10%N :: str "```")
           sample_object _ one_byte_accepted eq_refl eq_refl
           (proj1 fence_has_no_brace) (proj2 fence_has_no_brace)
           (proj1 sample_object_decoded) (proj1 (proj2 sample_object_decoded))).
  reflexivity.
Defined.

Lemma trailing_comma_repaired_witness :
  json_loads (rt := whole_runtime) (with_trailing_comma sample_object [32%N; 10%N])
  = Raise JSONDecodeError
  /\ extract_first_json (rt := whole_runtime)
       (str "Here: " ++ with_trailing_comma sample_object [32%N; 10%N] ++ str " Bye.")
     = Ok (VDict sample_object).
Proof.
  apply (@trailing_comma_repaired whole_runtime whole_laws);
    first [reflexivity | apply sample_object_decoded | cbv; intuition discriminate].
Defined.

Lemma repair_rewrites_strings_witness :
  extract_first_json (rt := whole_runtime) (text "{'rationale': 'gates {A,}',}")
  = Ok (VDict [(str "rationale", VStr (str "gates {A}"))])
  /\ extract_first_json (rt := whole_runtime) (text "{'rationale': 'gates {A,}'}")
     = Ok (VDict [(str "rationale", VStr (str "gates {A,}"))]).
Proof.
  assert (Hk : tame (str "rationale")) by (repeat split; reflexivity).
  assert (Hp : tame (str "gates {A")) by (repeat split; reflexivity).
  assert (Hq : tame []) by (repeat split; reflexivity).
  destruct (@repair_rewrites_strings whole_runtime whole_laws
              (str "rationale") (str "gates {A") [] [] eq_refl Hk Hp Hq)
    as [H1 H2].
  split; [exact H2|exact H1].
Defined.

Lemma two_trailing_commas_rejected_witness :
  extract_first_json (rt := whole_runtime) (text "{'people_count': 3,, }")
  = Raise JSONDecodeError.
Proof.
  apply (@two_trailing_commas_rejected whole_runtime whole_laws [32%N]
           [(str "people_count", VInt 3)]); try reflexivity.
  apply decoded_dict. split; repeat constructor. intros [].
Defined.

Lemma text_after_object_rejected_witness :
  extract_first_json (rt := whole_runtime)
    (text "{'people_count': 3} or {'people_count': 4}")
  = Raise JSONDecodeError
  /\ extract_first_json (rt := whole_runtime) (text "{'people_count': 3} (see {1})")
     = Raise JSONDecodeError.
Proof.
  destruct (@text_after_object_rejected whole_runtime whole_laws
              [(str "people_count", VInt 3)]) as [H1 H2]; try reflexivity.
  - apply decoded_dict. split; repeat constructor. intros [].
  - split.
    + exact (H2 (str " or ") [(str "people_count", VInt 4)] eq_refl eq_refl).
    + exact (H1 (str " (see {1") eq_refl).
Defined.
